(** * Transformer forward pass ([model.py]): a shallow embedding

    The Python classes of [model.py] are translated class by class: every
    [nn.Module] becomes a record inside a Rocq module of the same name, with
    [init] for [__init__] and [forward] for [forward].  Python exceptions are
    an explicit error result, the random number generator used by parameter
    initialisation and by dropout is an explicit state, and the one
    attribute that [forward] writes ([attention_scores]) is returned as part
    of the updated module.

    Tensors of floating point numbers are idealised as tensors of real
    numbers: rounding, infinities and NaN are not modelled.  The tensor
    library itself is not part of the repository; module [Torch] below
    models the operations [model.py] calls, with the shape checks and the
    broadcasting rules of the library. *)

From Stdlib Require Import Reals ZArith QArith Qreals List Lia Lra Bool Arith ZifyNat.
Import ListNotations.
Close Scope Q_scope.
Local Open Scope nat_scope.

(* ================================================================== *)
(** ** Python: exceptions, and computations that may raise *)

Module Py.

Inductive exn : Type :=
| AssertionError
| ZeroDivisionError
| ValueError
| RuntimeError
| IndexError.

Inductive result (A : Type) : Type :=
| Ok (a : A)
| Raise (e : exn).
Arguments Ok {A} a.
Arguments Raise {A} e.

Definition rbind {A B} (r : result A) (k : A -> result B) : result B :=
  match r with
  | Ok a => k a
  | Raise e => Raise e
  end.

Definition rmap {A B} (f : A -> B) (r : result A) : result B :=
  rbind r (fun a => Ok (f a)).

Definition is_ok {A} (r : result A) : bool :=
  match r with Ok _ => true | Raise _ => false end.

(** The state of the global random number generator: the stream of sample
    tensors still to be drawn.  Drawing takes the head of the stream. *)
Definition Generator : Type := nat -> list nat -> R.

Definition advance (g : Generator) : Generator := fun n => g (S n).

(** A computation that may draw random numbers and may raise. *)
Definition M (A : Type) : Type := Generator -> result (A * Generator).

Definition ret {A} (a : A) : M A := fun g => Ok (a, g).

Definition bind {A B} (c : M A) (k : A -> M B) : M B :=
  fun g => match c g with
           | Ok (a, g') => k a g'
           | Raise e => Raise e
           end.

Definition lift {A} (r : result A) : M A :=
  fun g => match r with
           | Ok a => Ok (a, g)
           | Raise e => Raise e
           end.

(** The value a computation returns, without the generator state. *)
Definition outcome {A} (r : result (A * Generator)) : result A := rmap fst r.

End Py.
Import Py.

Declare Scope py_scope.
Delimit Scope py_scope with py.
Notation "x <- c ;; k" := (bind c (fun x => k))
  (at level 61, c at next level, right associativity) : py_scope.
Notation "' p <- c ;; k" := (bind c (fun x => let p := x in k))
  (at level 61, p pattern, c at next level, right associativity) : py_scope.
Notation "x <~ r ;; k" := (rbind r (fun x => k))
  (at level 61, r at next level, right associativity) : py_scope.
Local Open Scope py_scope.

(* ================================================================== *)
(** ** The tensor library *)

Module Torch.

Definition Shape : Type := list nat.
Definition Index : Type := list nat.

Definition numel (s : Shape) : nat := fold_right Nat.mul 1 s.

(** A tensor is its shape and its element at every multi-index.  Elements
    at indices outside the shape are never read by a well-shaped program. *)
Record Tensor : Type := mkTensor { shape : Shape; item : Index -> R }.

(** An integer tensor (token ids, masks). *)
Record LongTensor : Type := mkLong { lshape : Shape; litem : Index -> Z }.

Definition rank (t : Tensor) : nat := length (shape t).

(** All multi-indices of a shape, in row-major order. *)
Fixpoint indices (s : Shape) : list Index :=
  match s with
  | [] => [[]]
  | d :: s' => flat_map (fun i => map (cons i) (indices s')) (seq 0 d)
  end.

Definition in_range (s : Shape) (i : Index) : Prop := Forall2 lt i s.

Fixpoint sum_n (n : nat) (f : nat -> R) : R :=
  match n with
  | O => 0%R
  | S k => (sum_n k f + f k)%R
  end.

(** *** Creation *)

Definition zeros (s : Shape) : Tensor := mkTensor s (fun _ => 0%R).
Definition ones (s : Shape) : Tensor := mkTensor s (fun _ => 1%R).

(** [torch.empty] and its relatives refuse a negative dimension. *)
Definition size_of (dims : list Z) : result Shape :=
  if forallb (fun d => (0 <=? d)%Z) dims then Ok (map Z.to_nat dims)
  else Raise RuntimeError.

(** A fresh tensor whose elements are the next sample of the generator
    ([normal_], [uniform_], [xavier_uniform]: the distribution is not
    modelled, any real value may come out). *)
Definition random (s : Shape) : M Tensor :=
  fun g => Ok (mkTensor s (g 0), advance g).

(** [torch.arange(start, stop, step)] for integers: it raises on a zero
    step and on bounds inconsistent with the sign of the step. *)
Definition arange (start stop step : Z) : result Tensor :=
  if (step =? 0)%Z then Raise RuntimeError
  else
    let n := ((stop - start + step - Z.sgn step) / step)%Z in
    if (n <? 0)%Z then Raise RuntimeError
    else Ok (mkTensor [Z.to_nat n]
               (fun i => IZR (start + Z.of_nat (nth 0 i 0) * step))).

(** *** Elementwise operations and broadcasting *)

Definition map_t (f : R -> R) (t : Tensor) : Tensor :=
  mkTensor (shape t) (fun i => f (item t i)).

Definition mul_scalar (t : Tensor) (c : R) : Tensor := map_t (fun v => v * c)%R t.
Definition div_scalar (t : Tensor) (c : R) : Tensor := map_t (fun v => v / c)%R t.
Definition add_scalar (t : Tensor) (c : R) : Tensor := map_t (fun v => v + c)%R t.
Definition relu (t : Tensor) : Tensor := map_t (fun v => Rmax 0 v) t.

(** Shapes are aligned on the right: the shorter one is padded with ones
    on the left. *)
Definition pad (n : nat) (s : Shape) : Shape := repeat 1 (n - length s) ++ s.

Fixpoint zip_broadcast (a b : Shape) : option Shape :=
  match a, b with
  | [], [] => Some []
  | x :: a', y :: b' =>
      match zip_broadcast a' b' with
      | Some r =>
          if x =? y then Some (x :: r)
          else if x =? 1 then Some (y :: r)
          else if y =? 1 then Some (x :: r)
          else None
      | None => None
      end
  | _, _ => None
  end.

Definition broadcast_shapes (a b : Shape) : option Shape :=
  let n := Nat.max (length a) (length b) in
  zip_broadcast (pad n a) (pad n b).

(** The index read in an operand of shape [s] for the index [i] of the
    broadcast result: leading dimensions the operand does not have are
    dropped, and a dimension of size one is read at 0. *)
Definition bidx (s : Shape) (i : Index) : Index :=
  map (fun di => if fst di =? 1 then 0 else snd di)
      (combine s (skipn (length i - length s) i)).

Definition binop (f : R -> R -> R) (a b : Tensor) : result Tensor :=
  match broadcast_shapes (shape a) (shape b) with
  | Some s =>
      Ok (mkTensor s (fun i => f (item a (bidx (shape a) i))
                                 (item b (bidx (shape b) i))))
  | None => Raise RuntimeError
  end.

Definition add := binop Rplus.
Definition sub := binop Rminus.
Definition mul := binop Rmult.
Definition div := binop Rdiv.

(** [src] can be expanded to [dst]: after alignment on the right every
    dimension of [src] is the one of [dst] or is one. *)
Definition expandable (src dst : Shape) : bool :=
  (length src <=? length dst) &&
  forallb (fun sd => (fst sd =? snd sd) || (fst sd =? 1))
          (combine (pad (length dst) src) dst).

(** [t.masked_fill_(mask == 0, v)] *)
Definition masked_fill_eq0 (t : Tensor) (mask : LongTensor) (v : R) : result Tensor :=
  if expandable (lshape mask) (shape t) then
    Ok (mkTensor (shape t)
          (fun i => if (litem mask (bidx (lshape mask) i) =? 0)%Z then v else item t i))
  else Raise RuntimeError.

(** *** Reductions over the last dimension ([dim=-1])

    A tensor of rank 0 is reduced as a single element. *)

Definition last_dim (s : Shape) : nat := last s 1.

(** The index of the [k]-th element of the row through index [i]. *)
Definition sel (s : Shape) (i : Index) (k : nat) : Index :=
  match s with
  | [] => []
  | _ => removelast i ++ [k]
  end.

(** The shape after a reduction with [keepdim=True]. *)
Definition keepdim (s : Shape) : Shape :=
  match s with
  | [] => []
  | _ => removelast s ++ [1]
  end.

Definition row_sum (x : Tensor) (f : R -> R) (i : Index) : R :=
  sum_n (last_dim (shape x)) (fun k => f (item x (sel (shape x) i k))).

(** [x.mean(dim=-1, keepdim=True)] *)
Definition mean (x : Tensor) : Tensor :=
  mkTensor (keepdim (shape x))
    (fun i => row_sum x (fun v => v) i / INR (last_dim (shape x)))%R.

(** [x.std(dim=-1, keepdim=True)]: the sample standard deviation, with
    Bessel's correction (division by n - 1). *)
Definition std (x : Tensor) : Tensor :=
  mkTensor (keepdim (shape x))
    (fun i =>
       let m := (row_sum x (fun v => v) i / INR (last_dim (shape x)))%R in
       sqrt (row_sum x (fun v => (v - m) * (v - m)) i
             / (INR (last_dim (shape x)) - 1))%R).

(** [x.softmax(dim=-1)] *)
Definition softmax (x : Tensor) : Tensor :=
  mkTensor (shape x) (fun i => exp (item x i) / row_sum x exp i)%R.

(** [torch.log_softmax(x, dim=-1)] *)
Definition log_softmax (x : Tensor) : Tensor :=
  mkTensor (shape x) (fun i => item x i - ln (row_sum x exp i))%R.

(** *** Views *)

(** A dimension argument that may count from the end. *)
Definition wrap_dim (r : nat) (d : Z) : result nat :=
  let n := Z.of_nat (Nat.max r 1) in
  if ((- n <=? d) && (d <? n))%Z
  then Ok (Z.to_nat (if (d <? 0)%Z then d + n else d))
  else Raise IndexError.

Definition swap (l : list nat) (i j : nat) : list nat :=
  map (fun k => nth (if k =? i then j else if k =? j then i else k) l 0)
      (seq 0 (length l)).

(** [t.transpose(d0, d1)] *)
Definition transpose (t : Tensor) (d0 d1 : Z) : result Tensor :=
  i <~ wrap_dim (rank t) d0 ;;
  j <~ wrap_dim (rank t) d1 ;;
  Ok (mkTensor (swap (shape t) i j) (fun idx => item t (swap idx i j))).

(** Row-major offsets, for [view]. *)
Fixpoint ravel (s : Shape) (i : Index) : nat :=
  match s, i with
  | _ :: s', k :: i' => k * numel s' + ravel s' i'
  | _, _ => 0
  end.

Fixpoint unravel (s : Shape) (off : nat) : Index :=
  match s with
  | [] => []
  | _ :: s' => off / numel s' :: unravel s' (off mod numel s')
  end.

(** The shape [view] gives for the requested sizes, one of which may be
    -1 (inferred).  A size below -1 is invalid, two -1 are refused, and
    with no elements left to divide the inferred size is ambiguous. *)
Definition infer_size (dims : list Z) (n : nat) : result Shape :=
  if existsb (fun d => (d <? -1)%Z) dims then Raise RuntimeError
  else
    let newsize := fold_right Z.mul 1%Z (filter (fun d => negb (d =? -1)%Z) dims) in
    match count_occ Z.eq_dec dims (-1)%Z with
    | 0 =>
        if (newsize =? Z.of_nat n)%Z then Ok (map Z.to_nat dims)
        else Raise RuntimeError
    | 1 =>
        if ((0 <? newsize) && (Z.of_nat n mod newsize =? 0))%Z
        then Ok (map (fun d => Z.to_nat (if (d =? -1)%Z
                                         then Z.of_nat n / newsize else d)%Z) dims)
        else Raise RuntimeError
    | _ => Raise RuntimeError
    end.

(** [t.contiguous().view(dims)] *)
Definition view (t : Tensor) (dims : list Z) : result Tensor :=
  s <~ infer_size dims (numel (shape t)) ;;
  Ok (mkTensor s (fun i => item t (unravel (shape t) (ravel s i)))).

(** [t.unsqueeze(d)] for [0 <= d <= rank] *)
Definition unsqueeze (t : Tensor) (d : nat) : result Tensor :=
  if d <=? rank t then
    Ok (mkTensor (firstn d (shape t) ++ 1 :: skipn d (shape t))
          (fun i => item t (firstn d i ++ skipn (S d) i)))
  else Raise IndexError.

(** [t[:, :n, :]]: the first [n] entries along dimension 1. *)
Definition slice_dim1 (t : Tensor) (n : nat) : result Tensor :=
  match shape t with
  | a :: b :: rest => Ok (mkTensor (a :: Nat.min n b :: rest) (item t))
  | _ => Raise IndexError
  end.

(** [t[:, start::step] = v] on a matrix: the value is expanded to the
    shape of the selected columns, which must be possible. *)
Definition setitem_cols (t : Tensor) (start step : nat) (v : Tensor) : result Tensor :=
  match shape t with
  | [r; c] =>
      let n := (c - start + (step - 1)) / step in
      if expandable (shape v) [r; n] then
        Ok (mkTensor [r; c]
              (fun idx =>
                 match idx with
                 | [i; j] =>
                     if (start <=? j) && ((j - start) mod step =? 0)
                     then item v (bidx (shape v) [i; (j - start) / step])
                     else item t idx
                 | _ => item t idx
                 end))
      else Raise RuntimeError
  | _ => Raise IndexError
  end.

(** *** Products *)

(** The batch dimensions and the two matrix dimensions of a shape. *)
Definition split_matrix (s : Shape) : option (Shape * nat * nat) :=
  match rev s with
  | n :: p :: b => Some (rev b, p, n)
  | _ => None
  end.

(** [a @ b] ([torch.matmul]): a batched matrix product whose batch
    dimensions broadcast.  An operand of rank 1 is used as a row (on the
    left) or a column (on the right) and that dimension is removed from the
    result; an operand of rank 0 is refused. *)
Definition matmul (a b : Tensor) : result Tensor :=
  let sa := match shape a with [n] => [1; n] | s => s end in
  let sb := match shape b with [n] => [n; 1] | s => s end in
  let va := rank a =? 1 in
  let vb := rank b =? 1 in
  match split_matrix sa, split_matrix sb with
  | Some (ba, p, n), Some (bb, n', q) =>
      if n =? n' then
        match broadcast_shapes ba bb with
        | Some bs =>
            let nb := length bs in
            let full (bi : Index) (i j : nat) : R :=
              sum_n n (fun k =>
                item a (if va then [k] else bidx ba bi ++ [i; k]) *
                item b (if vb then [k] else bidx bb bi ++ [k; j]))%R in
            Ok (mkTensor
                  (bs ++ (if va then [] else [p]) ++ (if vb then [] else [q]))
                  (fun idx =>
                     let bi := firstn nb idx in
                     let rest := skipn nb idx in
                     full bi (if va then 0 else nth 0 rest 0)
                             (if vb then 0 else nth (if va then 0 else 1) rest 0)))
        | None => Raise RuntimeError
        end
      else Raise RuntimeError
  | _, _ => Raise RuntimeError
  end.

(** [F.linear(x, weight, bias)]: [x @ weight.T + bias]. *)
Definition linear (x weight bias : Tensor) : result Tensor :=
  wt <~ transpose weight 0 1 ;;
  y <~ matmul x wt ;;
  add y bias.

(** [F.embedding(x, weight)]: every index must be a row of the table. *)
Definition embedding (x : LongTensor) (weight : Tensor) : result Tensor :=
  match shape weight with
  | [v; d] =>
      if forallb (fun i => (0 <=? litem x i)%Z && (litem x i <? Z.of_nat v)%Z)
                 (indices (lshape x))
      then Ok (mkTensor (lshape x ++ [d])
                 (fun i => item weight [Z.to_nat (litem x (removelast i)); last i 0]))
      else Raise IndexError
  | _ => Raise RuntimeError
  end.

(** *** Dropout ([F.dropout])

    With [p = 0], outside training or on an empty tensor the input is
    returned and no random number is drawn; with [p = 1] everything is
    zeroed; otherwise every element is kept with probability [1 - p] and
    the kept ones are scaled by [1 / (1 - p)]. *)
Definition dropout (x : Tensor) (p : Q) (training : bool) : M Tensor :=
  if Qeq_bool p 0 || negb training || (numel (shape x) =? 0) then ret x
  else if Qeq_bool p 1 then ret (mul_scalar x 0)
  else fun g =>
    let keep (i : Index) : R :=
      if Rlt_dec (g 0 i) (Q2R (1 - p)) then 1%R else 0%R in
    Ok (mkTensor (shape x) (fun i => item x i * (keep i / Q2R (1 - p)))%R,
        advance g).

End Torch.

(* ================================================================== *)
(** ** The modules of [torch.nn] that [model.py] instantiates *)

Module nn.

(** [nn.Dropout]: the probability is validated by the constructor. *)
Module Dropout.
Record t : Type := mk { p : Q }.

Definition init (p : Q) : result t :=
  if Qle_bool 0 p && Qle_bool p 1 then Ok (mk p) else Raise ValueError.

(** [training] is the module's [training] flag: [train()] and [eval()]
    set it on every module of a model at once, so the forward functions
    below receive it as an argument. *)
Definition forward (training : bool) (self : t) (x : Torch.Tensor) : M Torch.Tensor :=
  Torch.dropout x (p self) training.
End Dropout.

(** [nn.Linear(in_features, out_features)]: a weight of shape (out, in)
    and a bias of shape (out), both initialised at random. *)
Module Linear.
Record t : Type := mk { weight : Torch.Tensor; bias : Torch.Tensor }.

Definition init (in_features out_features : Z) : M t :=
  sw <- lift (Torch.size_of [out_features; in_features]) ;;
  sb <- lift (Torch.size_of [out_features]) ;;
  w <- Torch.random sw ;;
  b <- Torch.random sb ;;
  ret (mk w b).

Definition forward (self : t) (x : Torch.Tensor) : result Torch.Tensor :=
  Torch.linear x (weight self) (bias self).
End Linear.

(** [nn.Embedding(num_embeddings, embedding_dim)] *)
Module Embedding.
Record t : Type := mk { weight : Torch.Tensor }.

Definition init (num_embeddings embedding_dim : Z) : M t :=
  s <- lift (Torch.size_of [num_embeddings; embedding_dim]) ;;
  w <- Torch.random s ;;
  ret (mk w).

Definition forward (self : t) (x : Torch.LongTensor) : result Torch.Tensor :=
  Torch.embedding x (weight self).
End Embedding.

(** [nn.init.xavier_uniform(p)] on a matrix: the bound divides by
    fan_in + fan_out. *)
Definition xavier_uniform (p : Torch.Tensor) : M Torch.Tensor :=
  match Torch.shape p with
  | [o; i] =>
      if o + i =? 0 then lift (Raise ZeroDivisionError)
      else Torch.random [o; i]
  | s => Torch.random s
  end.

(** [nn.ModuleList.__getitem__] *)
Definition getitem {A} (l : list A) (i : nat) : result A :=
  match nth_error l i with
  | Some a => Ok a
  | None => Raise IndexError
  end.

End nn.

(** [for _ in range(n)]: run a constructor [n] times, collecting. *)
Fixpoint replicateM {A} (n : nat) (c : M A) : M (list A) :=
  match n with
  | O => ret []
  | S k => a <- c ;; l <- replicateM k c ;; ret (a :: l)
  end.

Fixpoint mapM {A B} (f : A -> M B) (l : list A) : M (list B) :=
  match l with
  | [] => ret []
  | a :: l' => b <- f a ;; bs <- mapM f l' ;; ret (b :: bs)
  end.

(* ================================================================== *)
(** ** [model.py] *)

Module InputEmbedding.
Record t : Type := mk {
  d_model : Z;
  vocab_size : Z;
  embedding : nn.Embedding.t
}.

Definition init (d_model vocab_size : Z) : M t :=
  e <- nn.Embedding.init vocab_size d_model ;;
  ret (mk d_model vocab_size e).

(** [self.embedding(x) * math.sqrt(self.d_model)] *)
Definition forward (self : t) (x : Torch.LongTensor) : result Torch.Tensor :=
  e <~ nn.Embedding.forward (embedding self) x ;;
  s <~ (if (d_model self <? 0)%Z then Raise ValueError
        else Ok (sqrt (IZR (d_model self)))) ;;
  Ok (Torch.mul_scalar e s).

Definition xavier (self : t) : M t :=
  w <- nn.xavier_uniform (nn.Embedding.weight (embedding self)) ;;
  ret (mk (d_model self) (vocab_size self) (nn.Embedding.mk w)).
End InputEmbedding.

Module PositionalEncoding.
Record t : Type := mk {
  d_model : Z;
  seq_len : Z;
  dropout : nn.Dropout.t;
  pe : Torch.Tensor
}.

Definition init (d_model seq_len : Z) (dropout : Q) : result t :=
  dr <~ nn.Dropout.init dropout ;;
  s <~ Torch.size_of [seq_len; d_model] ;;
  let pe := Torch.zeros s in
  pos <~ Torch.arange 0 seq_len 1 ;;
  position <~ Torch.unsqueeze pos 1 ;;
  evens <~ Torch.arange 0 d_model 2 ;;
  c <~ (if (d_model =? 0)%Z then Raise ZeroDivisionError
        else Ok (- ln 10000 / IZR d_model)%R) ;;
  let div_term := Torch.map_t exp (Torch.mul_scalar evens c) in
  a <~ Torch.mul position div_term ;;
  pe <~ Torch.setitem_cols pe 0 2 (Torch.map_t sin a) ;;
  a <~ Torch.mul position div_term ;;
  pe <~ Torch.setitem_cols pe 1 2 (Torch.map_t cos a) ;;
  pe <~ Torch.unsqueeze pe 0 ;;
  Ok (mk d_model seq_len dr pe).

(** [x + self.pe[:, :x.shape[1], :]], then dropout *)
Definition forward (training : bool) (self : t) (x : Torch.Tensor) : M Torch.Tensor :=
  n <- lift (nn.getitem (Torch.shape x) 1) ;;
  sl <- lift (Torch.slice_dim1 (pe self) n) ;;
  x <- lift (Torch.add x sl) ;;
  nn.Dropout.forward training (dropout self) x.
End PositionalEncoding.

Module LayerNormalization.
Record t : Type := mk {
  eps : R;
  alpha : Torch.Tensor;
  bias : Torch.Tensor
}.

(** The default [eps], [10**-6]. *)
Definition default_eps : R := (/ 1000000)%R.

Definition init (eps : R) : t :=
  mk eps (Torch.ones [1]) (Torch.zeros [1]).

(** [self.alpha * (x - mean) / (std + self.eps) + self.bias] *)
Definition forward (self : t) (x : Torch.Tensor) : result Torch.Tensor :=
  let mean := Torch.mean x in
  let std := Torch.std x in
  d <~ Torch.sub x mean ;;
  n <~ Torch.mul (alpha self) d ;;
  q <~ Torch.div n (Torch.add_scalar std (eps self)) ;;
  Torch.add q (bias self).
End LayerNormalization.

Module FeedForwardBlock.
Record t : Type := mk {
  linear_1 : nn.Linear.t;
  dropout : nn.Dropout.t;
  linear_2 : nn.Linear.t
}.

Definition init (d_model d_ff : Z) (dropout : Q) : M t :=
  l1 <- nn.Linear.init d_model d_ff ;;
  dr <- lift (nn.Dropout.init dropout) ;;
  l2 <- nn.Linear.init d_ff d_model ;;
  ret (mk l1 dr l2).

Definition forward (training : bool) (self : t) (x : Torch.Tensor) : M Torch.Tensor :=
  a <- lift (nn.Linear.forward (linear_1 self) x) ;;
  d <- nn.Dropout.forward training (dropout self) (Torch.relu a) ;;
  lift (nn.Linear.forward (linear_2 self) d).

Definition xavier (self : t) : M t :=
  w1 <- nn.xavier_uniform (nn.Linear.weight (linear_1 self)) ;;
  w2 <- nn.xavier_uniform (nn.Linear.weight (linear_2 self)) ;;
  ret (mk (nn.Linear.mk w1 (nn.Linear.bias (linear_1 self)))
          (dropout self)
          (nn.Linear.mk w2 (nn.Linear.bias (linear_2 self)))).
End FeedForwardBlock.

Module MultiHeadAttentionBlock.
Record t : Type := mk {
  d_model : Z;
  h : Z;
  d_k : Z;
  w_q : nn.Linear.t;
  w_k : nn.Linear.t;
  w_v : nn.Linear.t;
  w_o : nn.Linear.t;
  dropout : nn.Dropout.t;
  (** set by [forward]; the attribute does not exist before the first call *)
  attention_scores : option Torch.Tensor
}.

(** [assert d_model % h == 0, ...]: the remainder by zero raises before
    the assertion is evaluated. *)
Definition check_heads (d_model h : Z) : result unit :=
  if (h =? 0)%Z then Raise ZeroDivisionError
  else if (d_model mod h =? 0)%Z then Ok tt
  else Raise AssertionError.

Definition init (d_model h : Z) (dropout : Q) : M t :=
  _ <- lift (check_heads d_model h) ;;
  let d_k := (d_model / h)%Z in
  w_q <- nn.Linear.init d_model d_model ;;
  w_k <- nn.Linear.init d_model d_model ;;
  w_v <- nn.Linear.init d_model d_model ;;
  w_o <- nn.Linear.init d_model d_model ;;
  dr <- lift (nn.Dropout.init dropout) ;;
  ret (mk d_model h d_k w_q w_k w_v w_o dr None).

(** [self.attention_scores = v] *)
Definition set_attention_scores (self : t) (v : option Torch.Tensor) : t :=
  mk (d_model self) (h self) (d_k self) (w_q self) (w_k self)
     (w_v self) (w_o self) (dropout self) v.

(** The static method [attention].  The dropout of the attention
    weights is subtracted from them and the difference is thrown away
    (line 131 of [model.py]). *)
Definition attention (training : bool) (query key value : Torch.Tensor)
    (mask : option Torch.LongTensor) (dropout : option nn.Dropout.t)
    : M (Torch.Tensor * Torch.Tensor) :=
  d_k <- lift (match Torch.shape query with
               | [] => Raise IndexError
               | s => Ok (last s 0)
               end) ;;
  kt <- lift (Torch.transpose key (-2) (-1)) ;;
  qk <- lift (Torch.matmul query kt) ;;
  let attention_scores := Torch.div_scalar qk (sqrt (INR d_k)) in
  attention_scores <-
    lift (match mask with
          | Some m => Torch.masked_fill_eq0 attention_scores m (-1000000000)%R
          | None => Ok attention_scores
          end) ;;
  let attention_scores := Torch.softmax attention_scores in
  _ <- match dropout with
       | Some dr =>
           dropped <- nn.Dropout.forward training dr attention_scores ;;
           lift (Torch.sub attention_scores dropped)
       | None => ret attention_scores
       end ;;
  out <- lift (Torch.matmul attention_scores value) ;;
  ret (out, attention_scores).

(** [t.shape[0]] *)
Definition size0 (x : Torch.Tensor) : result Z :=
  rmap Z.of_nat (nn.getitem (Torch.shape x) 0).

(** [t.contiguous().view(t.shape[0], -1, self.h, self.d_k).transpose(1, 2)] *)
Definition split_heads (self : t) (x : Torch.Tensor) : result Torch.Tensor :=
  b <~ size0 x ;;
  v <~ Torch.view x [b; (-1)%Z; h self; d_k self] ;;
  Torch.transpose v 1 2.

Definition forward (training : bool) (self : t) (q k v : Torch.Tensor)
    (mask : option Torch.LongTensor) : M (Torch.Tensor * t) :=
  query <- lift (nn.Linear.forward (w_q self) q) ;;
  key <- lift (nn.Linear.forward (w_k self) k) ;;
  value <- lift (nn.Linear.forward (w_v self) v) ;;
  query <- lift (split_heads self query) ;;
  key <- lift (split_heads self key) ;;
  value <- lift (split_heads self value) ;;
  xs <- attention training query key value mask (Some (dropout self)) ;;
  let x := fst xs in
  let self' := set_attention_scores self (Some (snd xs)) in
  b <- lift (size0 x) ;;
  xt <- lift (Torch.transpose x 1 2) ;;
  x <- lift (Torch.view xt [b; (-1)%Z; (h self * d_k self)%Z]) ;;
  out <- lift (nn.Linear.forward (w_o self) x) ;;
  ret (out, self').

Definition xavier (self : t) : M t :=
  wq <- nn.xavier_uniform (nn.Linear.weight (w_q self)) ;;
  wk <- nn.xavier_uniform (nn.Linear.weight (w_k self)) ;;
  wv <- nn.xavier_uniform (nn.Linear.weight (w_v self)) ;;
  wo <- nn.xavier_uniform (nn.Linear.weight (w_o self)) ;;
  ret (mk (d_model self) (h self) (d_k self)
          (nn.Linear.mk wq (nn.Linear.bias (w_q self)))
          (nn.Linear.mk wk (nn.Linear.bias (w_k self)))
          (nn.Linear.mk wv (nn.Linear.bias (w_v self)))
          (nn.Linear.mk wo (nn.Linear.bias (w_o self)))
          (dropout self) (attention_scores self)).

(** The block without what [forward] has stored in it. *)
Definition forget (self : t) : t := set_attention_scores self None.
End MultiHeadAttentionBlock.

Module ResidualConnection.
Record t : Type := mk {
  dropout : nn.Dropout.t;
  norm : LayerNormalization.t
}.

Definition init (dropout : Q) : result t :=
  dr <~ nn.Dropout.init dropout ;;
  Ok (mk dr (LayerNormalization.init LayerNormalization.default_eps)).

(** [x + self.dropout(sublayer(self.norm(x)))].  The sublayer may write
    to the module it closes over; [S] is that module after the call. *)
Definition forward {S : Type} (training : bool) (self : t) (x : Torch.Tensor)
    (sublayer : Torch.Tensor -> M (Torch.Tensor * S)) : M (Torch.Tensor * S) :=
  n <- lift (LayerNormalization.forward (norm self) x) ;;
  ys <- sublayer n ;;
  d <- nn.Dropout.forward training (dropout self) (fst ys) ;;
  r <- lift (Torch.add x d) ;;
  ret (r, snd ys).
End ResidualConnection.

Module EncoderBlock.
Record t : Type := mk {
  self_attention_block : MultiHeadAttentionBlock.t;
  feed_forward_block : FeedForwardBlock.t;
  residual_connections : list ResidualConnection.t
}.

Definition init (self_attention_block : MultiHeadAttentionBlock.t)
    (feed_forward_block : FeedForwardBlock.t) (dropout : Q) : result t :=
  r0 <~ ResidualConnection.init dropout ;;
  r1 <~ ResidualConnection.init dropout ;;
  Ok (mk self_attention_block feed_forward_block [r0; r1]).

Definition forward (training : bool) (self : t) (x : Torch.Tensor)
    (src_mask : option Torch.LongTensor) : M (Torch.Tensor * t) :=
  r0 <- lift (nn.getitem (residual_connections self) 0) ;;
  xa <- ResidualConnection.forward training r0 x
          (fun x => MultiHeadAttentionBlock.forward training
                      (self_attention_block self) x x x src_mask) ;;
  r1 <- lift (nn.getitem (residual_connections self) 1) ;;
  xf <- ResidualConnection.forward training r1 (fst xa)
          (fun x => y <- FeedForwardBlock.forward training
                          (feed_forward_block self) x ;; ret (y, tt)) ;;
  ret (fst xf, mk (snd xa) (feed_forward_block self) (residual_connections self)).

Definition xavier (self : t) : M t :=
  a <- MultiHeadAttentionBlock.xavier (self_attention_block self) ;;
  f <- FeedForwardBlock.xavier (feed_forward_block self) ;;
  ret (mk a f (residual_connections self)).

Definition forget (self : t) : t :=
  mk (MultiHeadAttentionBlock.forget (self_attention_block self))
     (feed_forward_block self) (residual_connections self).
End EncoderBlock.

Module Encoder.
Record t : Type := mk {
  layers : list EncoderBlock.t;
  norm : LayerNormalization.t
}.

Definition init (layers : list EncoderBlock.t) : t :=
  mk layers (LayerNormalization.init LayerNormalization.default_eps).

(** [for layer in self.layers: x = layer(x, mask)] *)
Fixpoint forward_layers (training : bool) (layers : list EncoderBlock.t)
    (x : Torch.Tensor) (mask : option Torch.LongTensor)
    : M (Torch.Tensor * list EncoderBlock.t) :=
  match layers with
  | [] => ret (x, [])
  | layer :: rest =>
      xl <- EncoderBlock.forward training layer x mask ;;
      xr <- forward_layers training rest (fst xl) mask ;;
      ret (fst xr, snd xl :: snd xr)
  end.

Definition forward (training : bool) (self : t) (x : Torch.Tensor)
    (mask : option Torch.LongTensor) : M (Torch.Tensor * t) :=
  xl <- forward_layers training (layers self) x mask ;;
  y <- lift (LayerNormalization.forward (norm self) (fst xl)) ;;
  ret (y, mk (snd xl) (norm self)).

Definition xavier (self : t) : M t :=
  ls <- mapM EncoderBlock.xavier (layers self) ;;
  ret (mk ls (norm self)).

Definition forget (self : t) : t :=
  mk (map EncoderBlock.forget (layers self)) (norm self).
End Encoder.

Module DecoderBlock.
Record t : Type := mk {
  self_attention_block : MultiHeadAttentionBlock.t;
  cross_attention_block : MultiHeadAttentionBlock.t;
  feed_forward_block : FeedForwardBlock.t;
  residual_connection : list ResidualConnection.t
}.

Definition init (self_attention_block cross_attention_block : MultiHeadAttentionBlock.t)
    (feed_forward_block : FeedForwardBlock.t) (dropout : Q) : result t :=
  r0 <~ ResidualConnection.init dropout ;;
  r1 <~ ResidualConnection.init dropout ;;
  r2 <~ ResidualConnection.init dropout ;;
  Ok (mk self_attention_block cross_attention_block feed_forward_block [r0; r1; r2]).

Definition forward (training : bool) (self : t) (x encoder_output : Torch.Tensor)
    (src_mask tgt_mask : option Torch.LongTensor) : M (Torch.Tensor * t) :=
  r0 <- lift (nn.getitem (residual_connection self) 0) ;;
  xa <- ResidualConnection.forward training r0 x
          (fun x => MultiHeadAttentionBlock.forward training
                      (self_attention_block self) x x x tgt_mask) ;;
  r1 <- lift (nn.getitem (residual_connection self) 1) ;;
  xc <- ResidualConnection.forward training r1 (fst xa)
          (fun x => MultiHeadAttentionBlock.forward training
                      (cross_attention_block self) x encoder_output encoder_output
                      src_mask) ;;
  r2 <- lift (nn.getitem (residual_connection self) 2) ;;
  xf <- ResidualConnection.forward training r2 (fst xc)
          (fun x => y <- FeedForwardBlock.forward training
                          (feed_forward_block self) x ;; ret (y, tt)) ;;
  ret (fst xf, mk (snd xa) (snd xc) (feed_forward_block self)
                  (residual_connection self)).

Definition xavier (self : t) : M t :=
  a <- MultiHeadAttentionBlock.xavier (self_attention_block self) ;;
  c <- MultiHeadAttentionBlock.xavier (cross_attention_block self) ;;
  f <- FeedForwardBlock.xavier (feed_forward_block self) ;;
  ret (mk a c f (residual_connection self)).

Definition forget (self : t) : t :=
  mk (MultiHeadAttentionBlock.forget (self_attention_block self))
     (MultiHeadAttentionBlock.forget (cross_attention_block self))
     (feed_forward_block self) (residual_connection self).
End DecoderBlock.

Module Decoder.
Record t : Type := mk {
  layers : list DecoderBlock.t;
  norm : LayerNormalization.t
}.

Definition init (layers : list DecoderBlock.t) : t :=
  mk layers (LayerNormalization.init LayerNormalization.default_eps).

Fixpoint forward_layers (training : bool) (layers : list DecoderBlock.t)
    (x encoder_output : Torch.Tensor) (src_mask tgt_mask : option Torch.LongTensor)
    : M (Torch.Tensor * list DecoderBlock.t) :=
  match layers with
  | [] => ret (x, [])
  | layer :: rest =>
      xl <- DecoderBlock.forward training layer x encoder_output src_mask tgt_mask ;;
      xr <- forward_layers training rest (fst xl) encoder_output src_mask tgt_mask ;;
      ret (fst xr, snd xl :: snd xr)
  end.

Definition forward (training : bool) (self : t) (x encoder_output : Torch.Tensor)
    (src_mask tgt_mask : option Torch.LongTensor) : M (Torch.Tensor * t) :=
  xl <- forward_layers training (layers self) x encoder_output src_mask tgt_mask ;;
  y <- lift (LayerNormalization.forward (norm self) (fst xl)) ;;
  ret (y, mk (snd xl) (norm self)).

Definition xavier (self : t) : M t :=
  ls <- mapM DecoderBlock.xavier (layers self) ;;
  ret (mk ls (norm self)).

Definition forget (self : t) : t :=
  mk (map DecoderBlock.forget (layers self)) (norm self).
End Decoder.

Module ProjectionLayer.
Record t : Type := mk { proj : nn.Linear.t }.

Definition init (d_model vocab_size : Z) : M t :=
  l <- nn.Linear.init d_model vocab_size ;;
  ret (mk l).

(** [torch.log_softmax(self.proj(x), dim = -1)] *)
Definition forward (self : t) (x : Torch.Tensor) : result Torch.Tensor :=
  y <~ nn.Linear.forward (proj self) x ;;
  Ok (Torch.log_softmax y).

Definition xavier (self : t) : M t :=
  w <- nn.xavier_uniform (nn.Linear.weight (proj self)) ;;
  ret (mk (nn.Linear.mk w (nn.Linear.bias (proj self)))).
End ProjectionLayer.

Module Transformer.
Record t : Type := mk {
  encoder : Encoder.t;
  decoder : Decoder.t;
  src_embed : InputEmbedding.t;
  tgt_embed : InputEmbedding.t;
  src_pos : PositionalEncoding.t;
  tgt_pos : PositionalEncoding.t;
  projection_layer : ProjectionLayer.t
}.

Definition encode (training : bool) (self : t) (src : Torch.LongTensor)
    (src_mask : option Torch.LongTensor) : M (Torch.Tensor * t) :=
  src <- lift (InputEmbedding.forward (src_embed self) src) ;;
  src <- PositionalEncoding.forward training (src_pos self) src ;;
  ye <- Encoder.forward training (encoder self) src src_mask ;;
  ret (fst ye, mk (snd ye) (decoder self) (src_embed self) (tgt_embed self)
                  (src_pos self) (tgt_pos self) (projection_layer self)).

Definition decode (training : bool) (self : t) (encoder_output : Torch.Tensor)
    (src_mask : option Torch.LongTensor) (tgt : Torch.LongTensor)
    (tgt_mask : option Torch.LongTensor) : M (Torch.Tensor * t) :=
  tgt <- lift (InputEmbedding.forward (tgt_embed self) tgt) ;;
  tgt <- PositionalEncoding.forward training (tgt_pos self) tgt ;;
  yd <- Decoder.forward training (decoder self) tgt encoder_output src_mask tgt_mask ;;
  ret (fst yd, mk (encoder self) (snd yd) (src_embed self) (tgt_embed self)
                  (src_pos self) (tgt_pos self) (projection_layer self)).

Definition project (self : t) (x : Torch.Tensor) : result Torch.Tensor :=
  ProjectionLayer.forward (projection_layer self) x.

(** [for p in transformer.parameters(): if p.dim() > 1: xavier_uniform(p)],
    in the order the modules were registered. *)
Definition xavier (self : t) : M t :=
  e <- Encoder.xavier (encoder self) ;;
  d <- Decoder.xavier (decoder self) ;;
  se <- InputEmbedding.xavier (src_embed self) ;;
  te <- InputEmbedding.xavier (tgt_embed self) ;;
  pl <- ProjectionLayer.xavier (projection_layer self) ;;
  ret (mk e d se te (src_pos self) (tgt_pos self) pl).

(** The model without the attention weights stored by earlier calls. *)
Definition forget (self : t) : t :=
  mk (Encoder.forget (encoder self)) (Decoder.forget (decoder self))
     (src_embed self) (tgt_embed self) (src_pos self) (tgt_pos self)
     (projection_layer self).
End Transformer.

Definition build_encoder_block (d_model h : Z) (dropout : Q) (d_ff : Z) : M EncoderBlock.t :=
  encoder_self_attention_block <- MultiHeadAttentionBlock.init d_model h dropout ;;
  feed_forward_block <- FeedForwardBlock.init d_model d_ff dropout ;;
  lift (EncoderBlock.init encoder_self_attention_block feed_forward_block dropout).

Definition build_decoder_block (d_model h : Z) (dropout : Q) (d_ff : Z) : M DecoderBlock.t :=
  decoder_self_attention_block <- MultiHeadAttentionBlock.init d_model h dropout ;;
  decoder_cross_attention_block <- MultiHeadAttentionBlock.init d_model h dropout ;;
  feed_forward_block <- FeedForwardBlock.init d_model d_ff dropout ;;
  lift (DecoderBlock.init decoder_self_attention_block decoder_cross_attention_block
          feed_forward_block dropout).

Definition build_transformer (src_vocab_size tgt_vocab_size src_seq_len tgt_seq_len : Z)
    (d_model N h : Z) (dropout : Q) (d_ff : Z) : M Transformer.t :=
  src_embed <- InputEmbedding.init d_model src_vocab_size ;;
  tgt_embed <- InputEmbedding.init d_model tgt_vocab_size ;;
  src_pos <- lift (PositionalEncoding.init d_model src_seq_len dropout) ;;
  tgt_pos <- lift (PositionalEncoding.init d_model tgt_seq_len dropout) ;;
  encoder_blocks <- replicateM (Z.to_nat N) (build_encoder_block d_model h dropout d_ff) ;;
  decoder_blocks <- replicateM (Z.to_nat N) (build_decoder_block d_model h dropout d_ff) ;;
  let encoder := Encoder.init encoder_blocks in
  let decoder := Decoder.init decoder_blocks in
  projection_layer <- ProjectionLayer.init d_model tgt_vocab_size ;;
  let transformer := Transformer.mk encoder decoder src_embed tgt_embed src_pos tgt_pos
                       projection_layer in
  Transformer.xavier transformer.

(** The default hyper-parameters of [build_transformer]. *)
Definition build_transformer_default (src_vocab_size tgt_vocab_size src_seq_len tgt_seq_len : Z)
    : M Transformer.t :=
  build_transformer src_vocab_size tgt_vocab_size src_seq_len tgt_seq_len
    512 6 8 (1 # 10)%Q 2048.

(* ================================================================== *)
(** ** Vocabulary of the specification *)

(** The angle whose sine (even [j]) or cosine (odd [j]) stands at position
    [pos] and feature [j] of the positional encoding table. *)
Definition angle (d_model : Z) (pos j : nat) : R :=
  (IZR (Z.of_nat pos)
   * exp (IZR (Z.of_nat (j / 2) * 2) * (- ln 10000 / IZR d_model)))%R.

(** The mean of the first [n] values of [f], and their sample variance
    (with Bessel's correction, as [std] computes it). *)
Definition row_mean (n : nat) (f : nat -> R) : R := (Torch.sum_n n f / INR n)%R.

Definition row_var (n : nat) (f : nat -> R) : R :=
  (Torch.sum_n n (fun k => (f k - row_mean n f) * (f k - row_mean n f))
   / (INR n - 1))%R.

(** Token ids 0, 1, 2, 3 in a batch of one, and a batch of one sequence
    of four tokens of id 10. *)
Definition example_tokens : Torch.LongTensor :=
  Torch.mkLong [1; 4] (fun i => Z.of_nat (nth 1 i 0)).

Definition tokens_out_of_vocabulary : Torch.LongTensor :=
  Torch.mkLong [1; 4] (fun _ => 10%Z).

(** A batch of no sequence at all, of length four. *)
Definition empty_batch : Torch.LongTensor :=
  Torch.mkLong [0; 4] (fun _ => 0%Z).

(** A generator that only ever draws zeros, and the vector (0, 1). *)
Definition zero_generator : Generator := fun _ _ => 0%R.

Definition vector01 : Torch.Tensor :=
  Torch.mkTensor [2] (fun i => INR (nth 0 i 0)).

(** Shapes of the parameters of a model of feature dimension [d]. *)
Definition wf_Linear (l : nn.Linear.t) (i o : nat) : Prop :=
  Torch.shape (nn.Linear.weight l) = [o; i] /\ Torch.shape (nn.Linear.bias l) = [o].

Definition wf_LayerNormalization (n : LayerNormalization.t) : Prop :=
  Torch.shape (LayerNormalization.alpha n) = [1]
  /\ Torch.shape (LayerNormalization.bias n) = [1].

Definition wf_ResidualConnection (r : ResidualConnection.t) : Prop :=
  wf_LayerNormalization (ResidualConnection.norm r).

Definition wf_MultiHeadAttentionBlock (a : MultiHeadAttentionBlock.t) (d : nat) : Prop :=
  (0 < MultiHeadAttentionBlock.h a)%Z /\
  (0 < MultiHeadAttentionBlock.d_k a)%Z /\
  Z.to_nat (MultiHeadAttentionBlock.h a * MultiHeadAttentionBlock.d_k a) = d /\
  wf_Linear (MultiHeadAttentionBlock.w_q a) d d /\
  wf_Linear (MultiHeadAttentionBlock.w_k a) d d /\
  wf_Linear (MultiHeadAttentionBlock.w_v a) d d /\
  wf_Linear (MultiHeadAttentionBlock.w_o a) d d.

Definition wf_FeedForwardBlock (f : FeedForwardBlock.t) (d : nat) : Prop :=
  exists d_ff,
    wf_Linear (FeedForwardBlock.linear_1 f) d d_ff
    /\ wf_Linear (FeedForwardBlock.linear_2 f) d_ff d.

Definition wf_EncoderBlock (d : nat) (e : EncoderBlock.t) : Prop :=
  wf_MultiHeadAttentionBlock (EncoderBlock.self_attention_block e) d /\
  wf_FeedForwardBlock (EncoderBlock.feed_forward_block e) d /\
  exists r0 r1, EncoderBlock.residual_connections e = [r0; r1]
                /\ wf_ResidualConnection r0 /\ wf_ResidualConnection r1.

Definition wf_DecoderBlock (d : nat) (e : DecoderBlock.t) : Prop :=
  wf_MultiHeadAttentionBlock (DecoderBlock.self_attention_block e) d /\
  wf_MultiHeadAttentionBlock (DecoderBlock.cross_attention_block e) d /\
  wf_FeedForwardBlock (DecoderBlock.feed_forward_block e) d /\
  exists r0 r1 r2, DecoderBlock.residual_connection e = [r0; r1; r2]
                   /\ wf_ResidualConnection r0 /\ wf_ResidualConnection r1
                   /\ wf_ResidualConnection r2.

Definition wf_Encoder (d : nat) (e : Encoder.t) : Prop :=
  Forall (wf_EncoderBlock d) (Encoder.layers e)
  /\ wf_LayerNormalization (Encoder.norm e).

Definition wf_Decoder (d : nat) (e : Decoder.t) : Prop :=
  Forall (wf_DecoderBlock d) (Decoder.layers e)
  /\ wf_LayerNormalization (Decoder.norm e).

Definition wf_InputEmbedding (e : InputEmbedding.t) (d v : nat) : Prop :=
  InputEmbedding.d_model e = Z.of_nat d /\
  Torch.shape (nn.Embedding.weight (InputEmbedding.embedding e)) = [v; d].

(** A transformer of feature dimension [d], head count [h], source and
    target vocabularies [vs] and [vt], and maximum lengths [ls] and [lt]. *)
Record wf_Transformer (m : Transformer.t) (d : nat) (h : Z) (vs vt ls lt : nat) : Prop := {
  wf_encoder : wf_Encoder d (Transformer.encoder m);
  wf_decoder : wf_Decoder d (Transformer.decoder m);
  wf_heads_encoder :
    Forall (fun e => MultiHeadAttentionBlock.h (EncoderBlock.self_attention_block e) = h)
           (Encoder.layers (Transformer.encoder m));
  wf_heads_decoder :
    Forall (fun e => MultiHeadAttentionBlock.h (DecoderBlock.self_attention_block e) = h
                     /\ MultiHeadAttentionBlock.h (DecoderBlock.cross_attention_block e) = h)
           (Decoder.layers (Transformer.decoder m));
  wf_src_embed : wf_InputEmbedding (Transformer.src_embed m) d vs;
  wf_tgt_embed : wf_InputEmbedding (Transformer.tgt_embed m) d vt;
  wf_src_pos : Torch.shape (PositionalEncoding.pe (Transformer.src_pos m)) = [1; ls; d];
  wf_tgt_pos : Torch.shape (PositionalEncoding.pe (Transformer.tgt_pos m)) = [1; lt; d];
  wf_projection : wf_Linear (ProjectionLayer.proj (Transformer.projection_layer m)) d vt
}.

(** What [build_transformer] knows of a block it has just built. *)
Definition fresh_EncoderBlock (d : nat) (h : Z) (e : EncoderBlock.t) : Prop :=
  MultiHeadAttentionBlock.h (EncoderBlock.self_attention_block e) = h /\
  MultiHeadAttentionBlock.attention_scores (EncoderBlock.self_attention_block e) = None /\
  ((0 < h)%Z -> wf_EncoderBlock d e).

Definition fresh_DecoderBlock (d : nat) (h : Z) (e : DecoderBlock.t) : Prop :=
  MultiHeadAttentionBlock.h (DecoderBlock.self_attention_block e) = h /\
  MultiHeadAttentionBlock.h (DecoderBlock.cross_attention_block e) = h /\
  ((0 < h)%Z -> wf_DecoderBlock d e).

(** A mask is absent, or can be expanded to the shape of the attention
    scores. *)
Definition mask_fits (mask : option Torch.LongTensor) (scores : Torch.Shape) : bool :=
  match mask with
  | None => true
  | Some m => Torch.expandable (Torch.lshape m) scores
  end.

(** Every token id is an index of a vocabulary of [v] entries. *)
Definition tokens_in (x : Torch.LongTensor) (v : nat) : bool :=
  forallb (fun i => (0 <=? Torch.litem x i)%Z && (Torch.litem x i <? Z.of_nat v)%Z)
          (Torch.indices (Torch.lshape x)).

(** A computation that draws no random number: its result does not
    depend on the state of the generator, which it leaves as it is. *)
Definition draws_nothing {A} (c : M A) : Prop :=
  forall g, c g = match c zero_generator with
                  | Ok (a, _) => Ok (a, g)
                  | Raise e => Raise e
                  end.

(** The attention score of query position [i] against key position [k]
    in batch [bi] and head [hi], before the softmax: the scaled dot
    product, or -1e9 where the mask is 0. *)
Definition masked_score (query key : Torch.Tensor) (mask : option Torch.LongTensor)
    (d_k : nat) (bi hi i k : nat) : R :=
  let raw :=
    (Torch.sum_n d_k
       (fun n => Torch.item query [bi; hi; i; n] * Torch.item key [bi; hi; k; n])
     / sqrt (INR d_k))%R in
  match mask with
  | Some m =>
      if (Torch.litem m (Torch.bidx (Torch.lshape m) [bi; hi; i; k]) =? 0)%Z
      then (-1000000000)%R else raw
  | None => raw
  end.

(** A mask that hides every position. *)
Definition zero_mask (s : Torch.Shape) : Torch.LongTensor :=
  Torch.mkLong s (fun _ => 0%Z).


(** A tensor of shape (1, 4, 8) whose entries are all different. *)
Definition vector148 : Torch.Tensor :=
  Torch.mkTensor [1; 4; 8] (fun i => INR (8 * nth 1 i 0 + nth 2 i 0)).


(* ================================================================== *)
(** * Properties *)

(** Linear arithmetic with division and remainder by constants. *)
Ltac dlia := zify; Z.div_mod_to_equations; lia.

(** ** Shapes and broadcasting *)

Section Broadcasting.
Import Torch.

Lemma pad_same (s : Shape) : pad (length s) s = s.
Proof. unfold pad. now rewrite Nat.sub_diag. Qed.

Lemma zip_broadcast_refl (s : Shape) : zip_broadcast s s = Some s.
Proof.
  induction s as [|d s IH]; simpl; [reflexivity|].
  now rewrite IH, Nat.eqb_refl.
Qed.

Lemma broadcast_shapes_refl (s : Shape) : broadcast_shapes s s = Some s.
Proof.
  unfold broadcast_shapes. rewrite Nat.max_id, pad_same.
  apply zip_broadcast_refl.
Qed.

Lemma binop_same_shape (f : R -> R -> R) (a b : Tensor) :
  shape a = shape b ->
  exists r, binop f a b = Ok r /\ shape r = shape a.
Proof.
  intros E. unfold binop. rewrite <- E, broadcast_shapes_refl.
  eexists; split; reflexivity.
Qed.

Lemma pad_length (n : nat) (s : Shape) :
  length s <= n -> length (pad n s) = n.
Proof.
  intros H. unfold pad. rewrite length_app, repeat_length. lia.
Qed.

Lemma zip_broadcast_expand (a b : Shape) :
  length b = length a ->
  forallb (fun sd => (fst sd =? snd sd) || (fst sd =? 1)) (combine b a) = true ->
  zip_broadcast a b = Some a /\ zip_broadcast b a = Some a.
Proof.
  revert b. induction a as [|x a IH]; intros [|y b] L H; try discriminate.
  - split; reflexivity.
  - cbn in H. apply andb_true_iff in H. destruct H as [Hxy H].
    injection L as L. destruct (IH b L H) as [E1 E2].
    cbn. rewrite E1, E2.
    destruct (Nat.eqb_spec y x) as [->|Hne].
    + rewrite Nat.eqb_refl. split; reflexivity.
    + destruct (Nat.eqb_spec y 1) as [->|Hn1]; [|discriminate].
      destruct (Nat.eqb_spec x 1) as [->|_]; [congruence|].
      split; reflexivity.
Qed.

Lemma broadcast_expand_r (a b : Shape) :
  expandable b a = true -> broadcast_shapes a b = Some a.
Proof.
  unfold expandable, broadcast_shapes. intros H.
  apply andb_true_iff in H. destruct H as [L H]. apply Nat.leb_le in L.
  rewrite Nat.max_l by exact L. rewrite pad_same.
  apply zip_broadcast_expand; [now apply pad_length | exact H].
Qed.

Lemma broadcast_expand_l (a b : Shape) :
  expandable a b = true -> broadcast_shapes a b = Some b.
Proof.
  unfold expandable, broadcast_shapes. intros H.
  apply andb_true_iff in H. destruct H as [L H]. apply Nat.leb_le in L.
  rewrite Nat.max_r by exact L. rewrite pad_same.
  apply zip_broadcast_expand; [now apply pad_length | exact H].
Qed.

Lemma expandable_refl (s : Shape) : expandable s s = true.
Proof.
  unfold expandable. rewrite Nat.leb_refl, pad_same. cbn [andb].
  induction s as [|d s IH]; cbn; [reflexivity|].
  now rewrite Nat.eqb_refl, IH.
Qed.

Lemma forallb_combine_ones (n : nat) (s : Shape) :
  forallb (fun sd => (fst sd =? snd sd) || (fst sd =? 1)) (combine (repeat 1 n) s) = true.
Proof.
  revert s. induction n as [|n IH]; intros [|d s]; cbn; try reflexivity.
  now rewrite orb_true_r, IH.
Qed.

Lemma expandable_nil (s : Shape) : expandable [] s = true.
Proof.
  unfold expandable, pad. cbn [length Nat.leb andb]. rewrite app_nil_r.
  apply forallb_combine_ones.
Qed.

Lemma expandable_one (s : Shape) : s <> [] -> expandable [1] s = true.
Proof.
  intros H. unfold expandable, pad.
  destruct s as [|d s]; [congruence|]. cbn [length Nat.leb andb].
  replace (repeat 1 (S (length s) - 1) ++ [1]) with (repeat 1 (S (length s))).
  - apply forallb_combine_ones.
  - replace (S (length s) - 1) with (length s) by lia.
    now rewrite <- repeat_cons.
Qed.

Lemma length_removelast_snoc {A} (l : list A) (x : A) :
  l <> [] -> length (removelast l ++ [x]) = length l.
Proof.
  intros H. rewrite length_app. cbn [length].
  induction l as [|a [|b l] IH]; [congruence|reflexivity|].
  change (removelast (a :: b :: l)) with (a :: removelast (b :: l)).
  cbn [length] in *. specialize (IH ltac:(discriminate)). lia.
Qed.

Lemma expandable_keepdim (s : Shape) : expandable (keepdim s) s = true.
Proof.
  destruct s as [|d s]; [reflexivity|].
  unfold keepdim, expandable.
  assert (L : length (removelast (d :: s) ++ [1]) = length (d :: s))
    by (apply length_removelast_snoc; discriminate).
  rewrite L, Nat.leb_refl. cbn [andb]. rewrite <- L at 1. rewrite pad_same.
  clear L. revert d. induction s as [|e s IH]; intros d.
  - cbn. now rewrite orb_true_r.
  - change (removelast (d :: e :: s)) with (d :: removelast (e :: s)).
    cbn [app combine forallb fst snd]. now rewrite Nat.eqb_refl, IH.
Qed.

Lemma bidx_id (s : Shape) (i : Index) :
  in_range s i -> bidx s i = i.
Proof.
  unfold in_range, bidx. intros H.
  rewrite (Forall2_length H), Nat.sub_diag. cbn [skipn].
  induction H as [|x d i s Hx H IH]; cbn; [reflexivity|].
  rewrite IH. destruct (Nat.eqb_spec d 1); [f_equal; lia|reflexivity].
Qed.

Lemma bidx_keepdim (s : Shape) (i : Index) :
  in_range s i -> s <> [] -> bidx (keepdim s) i = removelast i ++ [0].
Proof.
  unfold in_range. intros H Hs.
  destruct s as [|d s]; [congruence|]. clear Hs.
  unfold keepdim, bidx.
  assert (L : length (removelast (d :: s) ++ [1]) = length i)
    by (rewrite (Forall2_length H); apply length_removelast_snoc; discriminate).
  rewrite L, Nat.sub_diag. cbn [skipn]. clear L.
  remember (d :: s) as l eqn:El. assert (Hl : l <> []) by (subst; discriminate).
  clear El d s.
  induction H as [|x d i s Hx H IH]; [congruence|].
  destruct H as [|x' d' i' s' Hx' H'].
  - cbn. reflexivity.
  - change (removelast (d :: d' :: s')) with (d :: removelast (d' :: s')).
    change (removelast (x :: x' :: i')) with (x :: removelast (x' :: i')).
    cbn [app combine map fst snd]. rewrite IH by discriminate.
    destruct (Nat.eqb_spec d 1); [f_equal; lia|reflexivity].
Qed.

Lemma bidx_one (i : Index) : i <> [] -> bidx [1] i = [0].
Proof.
  intros H. unfold bidx. cbn [length].
  assert (E : exists x, skipn (length i - 1) i = [x]).
  { induction i as [|x [|y i] IH]; [congruence| |].
    - exists x. reflexivity.
    - destruct IH as [z Ez]; [discriminate|]. exists z.
      cbn [length] in *. replace (S (S (length i)) - 1) with (S (S (length i) - 1)) by lia.
      exact Ez. }
  destruct E as [x ->]. reflexivity.
Qed.

Lemma broadcast_col_row (l h : nat) :
  broadcast_shapes [l; 1] [h] = Some [l; h].
Proof.
  unfold broadcast_shapes, pad. cbn.
  destruct h as [|[|h]]; cbn; destruct l as [|[|l]]; cbn; try reflexivity;
  rewrite ?Nat.eqb_refl; reflexivity.
Qed.

Lemma parity_cases (j : nat) :
  (Nat.even j = true /\ j mod 2 = 0 /\ (j = 0 \/ (1 <= j /\ (j - 1) mod 2 = 1))) \/
  (Nat.even j = false /\ j mod 2 = 1 /\ 1 <= j /\ (j - 1) mod 2 = 0
   /\ (j - 1) / 2 = j / 2).
Proof.
  pose proof (Nat.div2_odd j) as H. rewrite Nat.div2_div in H.
  unfold Nat.odd in H. destruct (Nat.even j); simpl in H; [left|right]; dlia.
Qed.

(** Dropout never raises and keeps the shape. *)
Lemma dropout_ok (x : Tensor) (p : Q) (training : bool) (g : Generator) :
  exists y g', dropout x p training g = Ok (y, g') /\ shape y = shape x.
Proof.
  unfold dropout.
  destruct (Qeq_bool p 0 || negb training || (numel (shape x) =? 0)).
  - exists x, g. split; reflexivity.
  - destruct (Qeq_bool p 1).
    + eexists; eexists; split; reflexivity.
    + eexists; eexists; split; reflexivity.
Qed.

(** Outside training, dropout is the identity and draws nothing. *)
Lemma dropout_eval (x : Tensor) (p : Q) (g : Generator) :
  dropout x p false g = Ok (x, g).
Proof.
  unfold dropout. simpl. now rewrite orb_true_r.
Qed.
End Broadcasting.

(** ** Attention: the dropout argument *)

(** C2: the dropout passed to [attention] has no effect on what it
    returns.  For every query, key, value and mask, every dropout module,
    in training mode or not, and every state of the random number
    generator, the outcome of [attention] (the pair of the output and the
    attention weights, or the exception raised) is the one obtained with no
    dropout at all. *)
Theorem attention_ignores_dropout :
  forall (training : bool) (query key value : Torch.Tensor)
         (mask : option Torch.LongTensor) (dr : nn.Dropout.t) (g g0 : Generator),
    outcome (MultiHeadAttentionBlock.attention training query key value mask (Some dr) g)
    = outcome (MultiHeadAttentionBlock.attention false query key value mask None g0).
Proof.
  intros tr query key v mask dr g g0.
  unfold MultiHeadAttentionBlock.attention, bind, lift, ret, outcome, rmap, rbind.
  destruct (Torch.shape query) as [|q0 qs]; [reflexivity|].
  destruct (Torch.transpose key (-2) (-1)) as [kt|e]; [|reflexivity].
  destruct (Torch.matmul query kt) as [qk|e]; [|reflexivity].
  set (sc := Torch.div_scalar qk _).
  destruct (match mask with Some m => _ | None => _ end) as [sc'|e]; [|reflexivity].
  unfold nn.Dropout.forward.
  destruct (dropout_ok (Torch.softmax sc') (nn.Dropout.p dr) tr g)
    as (y & g' & E & Es).
  rewrite E.
  destruct (binop_same_shape Rminus (Torch.softmax sc') y (eq_sym Es))
    as (r & Er & _).
  unfold Torch.sub. rewrite Er.
  destruct (Torch.matmul (Torch.softmax sc') v); reflexivity.
Qed.

(** ** What the tensor operations return when they succeed *)

Section TorchInversion.
Import Torch.

Lemma rbind_ok {A B} (r : result A) (k : A -> result B) (b : B) :
  rbind r k = Ok b -> exists a, r = Ok a /\ k a = Ok b.
Proof. destruct r as [a|e]; simpl; [eauto | discriminate]. Qed.

Lemma arange_inv (start stop step : Z) (t : Tensor) :
  arange start stop step = Ok t ->
  step <> 0%Z /\
  (0 <= (stop - start + step - Z.sgn step) / step)%Z /\
  shape t = [Z.to_nat ((stop - start + step - Z.sgn step) / step)] /\
  forall i, item t i = IZR (start + Z.of_nat (nth 0 i 0) * step).
Proof.
  unfold arange. destruct (Z.eqb_spec step 0); [discriminate|].
  destruct (Z.ltb_spec ((stop - start + step - Z.sgn step) / step) 0);
    [discriminate|].
  intros [= <-]. repeat split; auto.
Qed.

Lemma unsqueeze_inv (t u : Tensor) (d : nat) :
  unsqueeze t d = Ok u ->
  d <= rank t /\
  shape u = firstn d (shape t) ++ 1 :: skipn d (shape t) /\
  forall i, item u i = item t (firstn d i ++ skipn (S d) i).
Proof.
  unfold unsqueeze. destruct (Nat.leb_spec d (rank t)); [|discriminate].
  intros [= <-]. repeat split; auto.
Qed.

Lemma binop_inv (f : R -> R -> R) (a b r : Tensor) :
  binop f a b = Ok r ->
  broadcast_shapes (shape a) (shape b) = Some (shape r) /\
  forall i, item r i = f (item a (bidx (shape a) i)) (item b (bidx (shape b) i)).
Proof.
  unfold binop. destruct (broadcast_shapes _ _); [|discriminate].
  intros [= <-]. split; reflexivity.
Qed.

Lemma setitem_cols_inv (t v u : Tensor) (start step : nat) :
  setitem_cols t start step v = Ok u ->
  exists r c,
    shape t = [r; c] /\ shape u = [r; c] /\
    expandable (shape v) [r; (c - start + (step - 1)) / step] = true /\
    forall i j,
      item u [i; j] =
      if (start <=? j) && ((j - start) mod step =? 0)
      then item v (bidx (shape v) [i; (j - start) / step])
      else item t [i; j].
Proof.
  unfold setitem_cols.
  destruct (shape t) as [|r [|c [|? ?]]]; try discriminate.
  destruct (expandable _ _) eqn:E; [|discriminate].
  intros [= <-]. exists r, c. repeat split; auto.
Qed.

Lemma arange_ok (start stop step : Z) :
  step <> 0%Z -> (0 <= (stop - start + step - Z.sgn step) / step)%Z ->
  exists t, arange start stop step = Ok t /\
    shape t = [Z.to_nat ((stop - start + step - Z.sgn step) / step)].
Proof.
  intros H1 H2. unfold arange.
  destruct (Z.eqb_spec step 0); [contradiction|].
  destruct (Z.ltb_spec ((stop - start + step - Z.sgn step) / step) 0); [lia|].
  eexists; split; reflexivity.
Qed.

Lemma unsqueeze_ok (t : Tensor) (d : nat) :
  d <= rank t ->
  exists u, unsqueeze t d = Ok u /\
    shape u = firstn d (shape t) ++ 1 :: skipn d (shape t).
Proof.
  intros H. unfold unsqueeze. destruct (Nat.leb_spec d (rank t)); [|lia].
  eexists; split; reflexivity.
Qed.

Lemma binop_ok (f : R -> R -> R) (a b : Tensor) (s : Shape) :
  broadcast_shapes (shape a) (shape b) = Some s ->
  exists r, binop f a b = Ok r /\ shape r = s.
Proof.
  intros E. unfold binop. rewrite E. eexists; split; reflexivity.
Qed.

Lemma setitem_cols_ok (t v : Tensor) (start step r c : nat) :
  shape t = [r; c] ->
  expandable (shape v) [r; (c - start + (step - 1)) / step] = true ->
  exists u, setitem_cols t start step v = Ok u /\ shape u = [r; c].
Proof.
  intros St E. unfold setitem_cols. rewrite St, E.
  eexists; split; reflexivity.
Qed.

Lemma expandable_2 (a b c d : nat) :
  expandable [a; b] [c; d]
  = ((a =? c) || (a =? 1)) && (((b =? d) || (b =? 1)) && true).
Proof. reflexivity. Qed.

Lemma size_of_inv (dims : list Z) (s : Shape) :
  size_of dims = Ok s ->
  Forall (fun d => (0 <= d)%Z) dims /\ s = map Z.to_nat dims.
Proof.
  unfold size_of. destruct (forallb _ dims) eqn:E; [|discriminate].
  intros [= <-]. split; [|reflexivity].
  rewrite forallb_forall in E. apply Forall_forall.
  intros d Hd. apply Z.leb_le. auto.
Qed.

Lemma size_of_ok (dims : list Z) :
  Forall (fun d => (0 <= d)%Z) dims -> size_of dims = Ok (map Z.to_nat dims).
Proof.
  intros H. unfold size_of.
  replace (forallb _ dims) with true; [reflexivity|].
  symmetry. apply forallb_forall. intros d Hd. apply Z.leb_le.
  rewrite Forall_forall in H. auto.
Qed.
End TorchInversion.

(** Take one successful step of a computation in the error monad. *)
Ltac step L :=
  let t := fresh "t" in let E := fresh "E" in let S := fresh "S" in
  destruct L as (t & E & S); rewrite E; cbn [rbind].

(** ** The positional encoding table *)

Section PositionalEncodingTable.
Import Torch.

(** The constructor succeeds for a positive even [d_model] (and for 1). *)
Lemma PositionalEncoding_init_ok (d L : Z) (p : Q) :
  Qle_bool 0 p && Qle_bool p 1 = true -> (0 <= L)%Z -> (0 < d)%Z ->
  (Z.even d = true \/ d = 1%Z) ->
  exists self, PositionalEncoding.init d L p = Ok self /\
    PositionalEncoding.d_model self = d /\ PositionalEncoding.seq_len self = L /\
    PositionalEncoding.dropout self = nn.Dropout.mk p /\
    shape (PositionalEncoding.pe self) = [1; Z.to_nat L; Z.to_nat d].
Proof.
  intros Hp HL Hd Hev.
  unfold PositionalEncoding.init, nn.Dropout.init. rewrite Hp. cbn [rbind].
  rewrite size_of_ok by (repeat constructor; lia). cbn [rbind map].
  step (arange_ok 0 L 1 ltac:(lia) ltac:(cbn [Z.sgn]; dlia)).
  step (unsqueeze_ok t 1 ltac:(unfold rank; rewrite S; cbn; lia)).
  step (arange_ok 0 d 2 ltac:(lia) ltac:(cbn [Z.sgn]; dlia)).
  destruct (Z.eqb_spec d 0); [lia|]. cbn [rbind].
  rewrite S in S0. cbn [firstn skipn app] in S0.
  replace ((L - 0 + 1 - Z.sgn 1) / 1)%Z with L in S0
    by (cbn [Z.sgn]; rewrite Z.div_1_r; lia).
  set (hw := Z.to_nat ((d - 0 + 2 - Z.sgn 2) / 2)) in *.
  unfold mul.
  step (binop_ok Rmult t0 (map_t exp (mul_scalar t1 (- ln 10000 / IZR d)))
          [Z.to_nat L; hw]
          ltac:(cbn [shape map_t mul_scalar]; rewrite S0, S1;
                apply broadcast_col_row)).
  step (setitem_cols_ok (zeros [Z.to_nat L; Z.to_nat d]) (map_t sin t2) 0 2 _ _ eq_refl
          ltac:(cbn [shape map_t]; rewrite S2, expandable_2, Nat.eqb_refl;
                replace ((Z.to_nat d - 0 + (2 - 1)) / 2) with hw
                  by (subst hw; cbn [Z.sgn]; dlia);
                now rewrite Nat.eqb_refl)).
  step (setitem_cols_ok t3 (map_t cos t2) 1 2 _ _ S3
          ltac:(cbn [shape map_t]; rewrite S2, expandable_2, Nat.eqb_refl;
                cbn [orb andb]; rewrite andb_true_r; apply orb_true_iff;
                destruct Hev as [Hev| ->];
                [left; apply Nat.eqb_eq; subst hw; cbn [Z.sgn];
                 rewrite Zeven_mod in Hev; apply Z.eqb_eq in Hev; dlia
                |right; reflexivity])).
  step (unsqueeze_ok t4 0 ltac:(lia)).
  eexists; split; [reflexivity|]. cbn. rewrite S5, S4. repeat split; reflexivity.
Qed.

(** Every entry of a constructed table. *)
Lemma PositionalEncoding_table (d_model seq_len : Z) (dropout : Q)
    (self : PositionalEncoding.t) :
  PositionalEncoding.init d_model seq_len dropout = Ok self ->
  shape (PositionalEncoding.pe self) = [1; Z.to_nat seq_len; Z.to_nat d_model] /\
  forall pos j : nat,
    pos < Z.to_nat seq_len -> j < Z.to_nat d_model ->
    item (PositionalEncoding.pe self) [0; pos; j]
    = if Nat.even j then sin (angle d_model pos j) else cos (angle d_model pos j).
Proof.
  unfold PositionalEncoding.init.
  intros H.
  repeat (apply rbind_ok in H; destruct H as (? & ? & H)).
  injection H as <-. cbn [PositionalEncoding.pe].
  rename x1 into p0, x2 into position, x3 into evens, x4 into c, x5 into a,
    x6 into pe1, x7 into a', x8 into pe2, x9 into pe3.
  assert (x7eq : a' = a) by congruence. subst a'.
  destruct (Z.eqb_spec d_model 0) as [|Hd0]; [discriminate|].
  injection H5 as <-.
  apply size_of_inv in H1. destruct H1 as [Hnn ->].
  apply arange_inv in H2. destruct H2 as (_ & _ & Sp0 & Ip0).
  apply unsqueeze_inv in H3. destruct H3 as (_ & Spos & Ipos).
  apply arange_inv in H4. destruct H4 as (_ & _ & Sev & Iev).
  apply binop_inv in H6. destruct H6 as (Sa & Ia).
  apply setitem_cols_inv in H7. destruct H7 as (r & c & S0 & S1 & X1 & I1).
  apply setitem_cols_inv in H9. destruct H9 as (r' & c' & S1' & S2 & X2 & I2).
  apply unsqueeze_inv in H10. destruct H10 as (_ & S3 & I3).
  rewrite S1 in S1'. injection S1' as <- <-.
  cbn in S0. injection S0 as <- <-.
  replace ((seq_len - 0 + 1 - Z.sgn 1) / 1)%Z with seq_len in Sp0
    by (cbn [Z.sgn]; rewrite Z.div_1_r; lia).
  set (hw := Z.to_nat ((d_model - 0 + 2 - Z.sgn 2) / 2)) in *.
  rewrite Sp0 in Spos. cbn [firstn skipn app] in Spos.
  cbn [map_t mul_scalar shape item] in Sa, Ia, X1, X2, I1, I2.
  rewrite Spos, Sev, broadcast_col_row in Sa. injection Sa as Sa.
  rewrite <- Sa in I1, I2. rewrite Spos, Sev in Ia.
  split.
  - rewrite S3, S2. reflexivity.
  - intros pos j Hpos Hj.
    rewrite I3. cbn [firstn skipn app].
    set (k := j / 2).
    assert (Hk : k < hw) by (subst k hw; cbn [Z.sgn]; dlia).
    assert (Hang : item a (bidx [Z.to_nat seq_len; hw] [pos; k])
                   = angle d_model pos j).
    { rewrite bidx_id by (repeat constructor; assumption).
      rewrite Ia. change (bidx [Z.to_nat seq_len; 1] [pos; k])
        with [if Z.to_nat seq_len =? 1 then 0 else pos; 0].
      change (bidx [hw] [pos; k]) with [if hw =? 1 then 0 else k].
      rewrite Ipos, Ip0, Iev. unfold angle. fold k.
      cbn [firstn skipn app nth].
      replace (if Z.to_nat seq_len =? 1 then 0 else pos) with pos
        by (destruct (Nat.eqb_spec (Z.to_nat seq_len) 1); lia).
      replace (if hw =? 1 then 0 else k) with k
        by (destruct (Nat.eqb_spec hw 1); lia).
      rewrite Z.add_0_l, Z.mul_1_r, Z.add_0_l. reflexivity. }
    rewrite I2, I1.
    destruct (parity_cases j) as [(Ev & E0 & [Ej|[E1 E2]])|(Ev & E0 & E1 & E2 & E3)];
      rewrite Ev.
    + replace (1 <=? j) with false by (symmetry; apply Nat.leb_gt; lia).
      rewrite Nat.sub_0_r, E0. cbn [andb Nat.eqb Nat.leb]. fold k. now rewrite Hang.
    + replace (1 <=? j) with true by (symmetry; apply Nat.leb_le; lia).
      rewrite E2, Nat.sub_0_r, E0. cbn [andb Nat.eqb Nat.leb]. fold k. now rewrite Hang.
    + replace (1 <=? j) with true by (symmetry; apply Nat.leb_le; lia).
      rewrite E2, E3. cbn [andb Nat.eqb]. fold k. now rewrite Hang.
Qed.

End PositionalEncodingTable.

(** C8: in the table precomputed by [PositionalEncoding.__init__], for
    whatever [d_model] and maximum sequence length it was constructed
    with, the entry at sequence position 0 is 0 at every even feature index
    (sin 0) and 1 at every odd feature index (cos 0). *)
Theorem positional_encoding_position_zero :
  forall (d_model seq_len : Z) (dropout : Q) (self : PositionalEncoding.t),
    PositionalEncoding.init d_model seq_len dropout = Ok self ->
    forall j : nat,
      (0 < seq_len)%Z -> (Z.of_nat j < d_model)%Z ->
      Torch.item (PositionalEncoding.pe self) [0; 0; j]
      = if Nat.even j then 0%R else 1%R.
Proof.
  intros d_model seq_len dropout self H j HL Hj.
  destruct (PositionalEncoding_table _ _ _ _ H) as [_ T].
  rewrite T by lia. unfold angle. cbn [Z.of_nat]. rewrite Rmult_0_l.
  now rewrite sin_0, cos_0.
Qed.

(** A table for [d_model = 4] and four positions: its first row is
    0, 1, 0, 1. *)
Lemma positional_encoding_position_zero_witness :
  exists self : PositionalEncoding.t,
    PositionalEncoding.init 4 4 (1 # 10) = Ok self /\
    Torch.item (PositionalEncoding.pe self) [0; 0; 0] = 0%R /\
    Torch.item (PositionalEncoding.pe self) [0; 0; 1] = 1%R /\
    Torch.item (PositionalEncoding.pe self) [0; 0; 2] = 0%R /\
    Torch.item (PositionalEncoding.pe self) [0; 0; 3] = 1%R.
Proof.
  destruct (PositionalEncoding_init_ok 4 4 (1 # 10) eq_refl ltac:(lia) ltac:(lia)
              (or_introl eq_refl)) as (self & E & _).
  exists self. split; [exact E|].
  repeat split.
  - apply (positional_encoding_position_zero 4 4 (1 # 10) self E 0); lia.
  - apply (positional_encoding_position_zero 4 4 (1 # 10) self E 1); lia.
  - apply (positional_encoding_position_zero 4 4 (1 # 10) self E 2); lia.
  - apply (positional_encoding_position_zero 4 4 (1 # 10) self E 3); lia.
Defined.

(** ** [PositionalEncoding.forward] and the sequence length *)

Section PositionalEncodingForward.
Import Torch.


Lemma expandable_3 (a b c a' b' c' : nat) :
  expandable [a; b; c] [a'; b'; c']
  = ((a =? a') || (a =? 1))
    && (((b =? b') || (b =? 1)) && (((c =? c') || (c =? 1)) && true)).
Proof. reflexivity. Qed.

Lemma PositionalEncoding_forward_ok tr self x b s d l g :
  shape (PositionalEncoding.pe self) = [1; l; d] ->
  shape x = [b; s; d] ->
  s <= l \/ l = 1 ->
  exists y g', PositionalEncoding.forward tr self x g = Ok (y, g') /\
    shape y = [b; s; d].
Proof.
  intros Spe Sx Hs.
  unfold PositionalEncoding.forward, bind, lift, nn.getitem, slice_dim1.
  rewrite Sx, Spe. cbn [nth_error].
  unfold add.
  destruct (binop_ok Rplus x
              (mkTensor [1; Nat.min s l; d] (item (PositionalEncoding.pe self)))
              [b; s; d]) as (y & E & Sy).
  { rewrite Sx. cbn [shape]. apply broadcast_expand_r.
    rewrite expandable_3, !Nat.eqb_refl. cbn [orb andb].
    rewrite orb_true_r. cbn [andb]. rewrite andb_true_r.
    apply orb_true_iff. destruct Hs as [Hs| ->].
    - left. apply Nat.eqb_eq. lia.
    - destruct s as [|s]; [left; reflexivity|right]. apply Nat.eqb_eq. lia. }
  rewrite E. unfold nn.Dropout.forward.
  destruct (dropout_ok y (nn.Dropout.p (PositionalEncoding.dropout self)) tr g)
    as (z & g' & Ez & Sz).
  rewrite Ez. exists z, g'. split; [reflexivity|congruence].
Qed.


End PositionalEncodingForward.




(** ** Layer normalisation *)

Section LayerNorm.
Import Torch.

Lemma sum_n_ext n f g : (forall k, k < n -> f k = g k) -> sum_n n f = sum_n n g.
Proof.
  induction n as [|n IH]; intros H; cbn; [reflexivity|].
  rewrite IH by (intros; apply H; lia). now rewrite H by lia.
Qed.

Lemma sum_n_scal n f c : sum_n n (fun k => f k * c)%R = (sum_n n f * c)%R.
Proof. induction n as [|n IH]; cbn; [ring|rewrite IH; ring]. Qed.

Lemma sum_n_minus_const n f c : sum_n n (fun k => f k - c)%R = (sum_n n f - INR n * c)%R.
Proof.
  induction n as [|n IH]; [cbn; ring|].
  cbn [sum_n]. rewrite IH, S_INR. ring.
Qed.

Lemma sum_n_sq_nonneg n f : (0 <= sum_n n (fun k => f k * f k))%R.
Proof.
  induction n as [|n IH]; cbn; [lra|]. pose proof (Rle_0_sqr (f n)) as H.
  unfold Rsqr in H. lra.
Qed.

Lemma in_range_snoc (s : Shape) (pre : Index) (k : nat) :
  s <> [] -> in_range (removelast s) pre -> k < last_dim s ->
  in_range s (pre ++ [k]).
Proof.
  intros Hs Hp Hk. unfold in_range, last_dim in *.
  rewrite (app_removelast_last 1 Hs) at 1.
  apply Forall2_app; [exact Hp|]. repeat constructor. exact Hk.
Qed.

Lemma sel_nonempty (s : Shape) (i : Index) (k : nat) :
  s <> [] -> sel s i k = removelast i ++ [k].
Proof. destruct s; [congruence|reflexivity]. Qed.

Lemma LayerNormalization_forward_inv self x y :
  shape (LayerNormalization.alpha self) = [1] ->
  shape (LayerNormalization.bias self) = [1] ->
  shape x <> [] ->
  LayerNormalization.forward self x = Ok y ->
  shape y = shape x /\
  forall i, in_range (shape x) i ->
    item y i =
    (item (LayerNormalization.alpha self) [0%nat]
     * (item x i - item (mean x) (removelast i ++ [0%nat]))
     / (item (std x) (removelast i ++ [0%nat]) + LayerNormalization.eps self)
     + item (LayerNormalization.bias self) [0%nat])%R.
Proof.
  intros Sa Sb Hs H. unfold LayerNormalization.forward in H.
  repeat (apply rbind_ok in H; destruct H as (? & ? & H)).
  rename x0 into d, x1 into n, x2 into q.
  apply binop_inv in H0, H1, H2, H. 
  destruct H0 as [S0 I0], H1 as [S1 I1], H2 as [S2 I2], H as [S3 I3].
  cbn [shape mean std add_scalar map_t item] in *.
  rewrite broadcast_expand_r in S0 by apply expandable_keepdim.
  injection S0 as S0. rewrite <- S0 in *.
  rewrite Sa in S1, I1. rewrite broadcast_expand_l in S1 by now apply expandable_one.
  injection S1 as S1. rewrite <- S1 in *.
  rewrite broadcast_expand_r in S2 by apply expandable_keepdim.
  injection S2 as S2. rewrite <- S2 in *.
  rewrite Sb in S3, I3. rewrite broadcast_expand_r in S3 by now apply expandable_one.
  injection S3 as S3. split; [congruence|].
  intros i Hi.
  assert (Hne : i <> []).
  { intros ->. inversion Hi. congruence. }
  rewrite I3, (bidx_id (shape x)), bidx_one by assumption.
  rewrite I2, (bidx_id (shape x)), bidx_keepdim by assumption.
  rewrite I1, (bidx_id (shape x)), bidx_one by assumption.
  rewrite I0, (bidx_id (shape x)), bidx_keepdim by assumption.
  reflexivity.
Qed.

Lemma row_mean_centered n f :
  n <> 0 -> sum_n n (fun k => f k - row_mean n f)%R = 0%R.
Proof.
  intros Hn. rewrite sum_n_minus_const. unfold row_mean.
  assert (INR n <> 0%R) by (apply not_0_INR; exact Hn).
  field. assumption.
Qed.

Lemma row_var_nonneg n f : 2 <= n -> (0 <= row_var n f)%R.
Proof.
  intros Hn. unfold row_var.
  apply Rmult_le_pos; [apply sum_n_sq_nonneg|].
  apply Rlt_le, Rinv_0_lt_compat.
  assert (2 <= INR n)%R by (change 2%R with (INR 2); apply le_INR; exact Hn). lra.
Qed.

(** Statistics of a row scaled around its mean. *)
Lemma scaled_row_statistics n (f z : nat -> R) (c : R) :
  2 <= n ->
  (forall k, k < n -> z k = ((f k - row_mean n f) * c)%R) ->
  row_mean n z = 0%R /\
  row_var n z = (row_var n f * (c * c))%R.
Proof.
  intros Hn Hz.
  assert (Hm : row_mean n z = 0%R).
  { unfold row_mean at 1. rewrite (sum_n_ext n z _ Hz), sum_n_scal.
    rewrite row_mean_centered by lia. unfold Rdiv. ring. }
  split; [exact Hm|].
  unfold row_var at 1. rewrite Hm.
  rewrite (sum_n_ext n _ (fun k => (f k - row_mean n f) * (f k - row_mean n f) * (c * c))%R).
  - rewrite sum_n_scal. unfold row_var, Rdiv. ring.
  - intros k Hk. rewrite (Hz k Hk). ring.
Qed.

Lemma ratio_sq_lt_1 (s e : R) : (0 <= s -> 0 < e -> (s / (s + e)) * (s / (s + e)) < 1)%R.
Proof.
  intros Hs He.
  assert (H0 : (0 <= s / (s + e))%R).
  { apply Rmult_le_pos; [lra|]. apply Rlt_le, Rinv_0_lt_compat. lra. }
  assert (H1 : (s / (s + e) < 1)%R).
  { apply (Rmult_lt_reg_r (s + e)); [lra|]. unfold Rdiv.
    rewrite Rmult_assoc, Rinv_l by lra. lra. }
  nra.
Qed.


Lemma LayerNormalization_forward_ok self x :
  shape (LayerNormalization.alpha self) = [1] ->
  shape (LayerNormalization.bias self) = [1] ->
  shape x <> [] ->
  exists y, LayerNormalization.forward self x = Ok y /\ shape y = shape x.
Proof.
  intros Sa Sb Hs. unfold LayerNormalization.forward, sub, mul, div, add.
  step (binop_ok Rminus x (mean x) (shape x)
          ltac:(apply broadcast_expand_r, expandable_keepdim)).
  step (binop_ok Rmult (LayerNormalization.alpha self) t (shape x)
          ltac:(rewrite Sa, S; apply broadcast_expand_l, expandable_one, Hs)).
  step (binop_ok Rdiv t0 (add_scalar (std x) (LayerNormalization.eps self)) (shape x)
          ltac:(rewrite S0; apply broadcast_expand_r, expandable_keepdim)).
  apply binop_ok. rewrite Sb, S1. apply broadcast_expand_r, expandable_one, Hs.
Qed.

(** The rows of the output of [LayerNormalization.forward]. *)
Lemma LayerNormalization_rows self x y :
  shape (LayerNormalization.alpha self) = [1] ->
  shape (LayerNormalization.bias self) = [1] ->
  item (LayerNormalization.alpha self) [0] <> 0%R ->
  2 <= last_dim (shape x) ->
  LayerNormalization.forward self x = Ok y ->
  forall pre, in_range (removelast (shape x)) pre ->
    let n := last_dim (shape x) in
    let xs := fun k => item x (pre ++ [k]) in
    let z := fun k => ((item y (pre ++ [k]) - item (LayerNormalization.bias self) [0%nat])
                       / item (LayerNormalization.alpha self) [0%nat])%R in
    let sigma := sqrt (row_var n xs) in
    let eps := LayerNormalization.eps self in
    (forall k, k < n -> z k = ((xs k - row_mean n xs) / (sigma + eps))%R) /\
    row_mean n z = 0%R /\
    row_var n z = ((sigma / (sigma + eps)) * (sigma / (sigma + eps)))%R /\
    ((0 < eps)%R -> (row_var n z < 1)%R).
Proof.
  intros Sa Sb Ha Hn H pre Hpre n xs z sigma eps.
  assert (Hs : shape x <> []).
  { intros E. rewrite E in Hn. cbn in Hn. lia. }
  destruct (LayerNormalization_forward_inv self x y Sa Sb Hs H) as [Sy Iy].
  assert (Hz : forall k, k < n -> z k = ((xs k - row_mean n xs) * / (sigma + eps))%R).
  { intros k Hk. unfold z. rewrite Iy by (apply in_range_snoc; assumption).
    rewrite removelast_last.
    cbn [mean std item]. unfold row_sum.
    rewrite (sum_n_ext _ _ xs)
      by (intros; rewrite sel_nonempty, removelast_last by exact Hs; reflexivity).
    rewrite (sum_n_ext _ (fun k0 => (item x (sel _ _ k0) - _) * _)%R
               (fun k0 => (xs k0 - row_mean n xs) * (xs k0 - row_mean n xs))%R)
      by (intros; rewrite sel_nonempty, removelast_last by exact Hs; reflexivity).
    change (sqrt _) with sigma. change (_ / INR _)%R with (row_mean n xs).
    fold eps.
    set (a := item (LayerNormalization.alpha self) [0]) in *.
    unfold Rdiv.
    transitivity ((xs k - row_mean n xs) * / (sigma + eps) * (a * / a))%R;
      [unfold xs; ring|].
    rewrite Rinv_r by exact Ha. ring. }
  destruct (scaled_row_statistics n xs z (/ (sigma + eps)) Hn Hz) as [Hm Hv].
  assert (Hsig : (sigma * sigma = row_var n xs)%R)
    by (apply sqrt_sqrt, row_var_nonneg; exact Hn).
  assert (Hv' : row_var n z = (sigma / (sigma + eps) * (sigma / (sigma + eps)))%R).
  { rewrite Hv, <- Hsig. unfold Rdiv. ring. }
  repeat split.
  - exact Hz.
  - exact Hm.
  - exact Hv'.
  - intros He. rewrite Hv'. apply ratio_sq_lt_1; [apply sqrt_pos|exact He].
Qed.

End LayerNorm.

(** C4, as the code has it: for every input whose last dimension has at
    least two entries, the values (output - bias) / alpha along the last
    dimension are (x - mean) / (std + eps) with the sample standard
    deviation [std]; their mean is 0 and their sample variance is
    (std / (std + eps))^2, which is below 1 for every positive [eps]. *)
Theorem layer_norm_statistics :
  forall (self : LayerNormalization.t) (x y : Torch.Tensor),
    Torch.shape (LayerNormalization.alpha self) = [1] ->
    Torch.shape (LayerNormalization.bias self) = [1] ->
    Torch.item (LayerNormalization.alpha self) [0] <> 0%R ->
    2 <= Torch.last_dim (Torch.shape x) ->
    LayerNormalization.forward self x = Ok y ->
    forall pre, Torch.in_range (removelast (Torch.shape x)) pre ->
      let n := Torch.last_dim (Torch.shape x) in
      let xs := fun k => Torch.item x (pre ++ [k]) in
      let z := fun k =>
        ((Torch.item y (pre ++ [k]) - Torch.item (LayerNormalization.bias self) [0%nat])
         / Torch.item (LayerNormalization.alpha self) [0%nat])%R in
      let sigma := sqrt (row_var n xs) in
      let eps := LayerNormalization.eps self in
      (forall k, k < n -> z k = ((xs k - row_mean n xs) / (sigma + eps))%R) /\
      row_mean n z = 0%R /\
      row_var n z = ((sigma / (sigma + eps)) * (sigma / (sigma + eps)))%R /\
      ((0 < eps)%R -> (row_var n z < 1)%R).
Proof.
  intros self x y Sa Sb Ha Hn H pre Hpre.
  exact (LayerNormalization_rows self x y Sa Sb Ha Hn H pre Hpre).
Qed.

(** The default layer on the vector (0, 1): mean 0, variance below 1. *)
Lemma layer_norm_statistics_witness :
  exists y : Torch.Tensor,
    LayerNormalization.forward
      (LayerNormalization.init LayerNormalization.default_eps) vector01 = Ok y /\
    row_mean 2 (fun k => (Torch.item y [k] - 0) / 1)%R = 0%R /\
    (row_var 2 (fun k => (Torch.item y [k] - 0) / 1)%R < 1)%R.
Proof.
  destruct (LayerNormalization_forward_ok
              (LayerNormalization.init LayerNormalization.default_eps) vector01
              eq_refl eq_refl ltac:(discriminate)) as (y & E & _).
  exists y. split; [exact E|].
  destruct (layer_norm_statistics
              (LayerNormalization.init LayerNormalization.default_eps) vector01 y
              eq_refl eq_refl R1_neq_R0 (le_n 2) E [] (Forall2_nil _))
    as (_ & Hm & _ & Hv).
  split; [exact Hm|]. apply Hv.
  apply Rinv_0_lt_compat. apply (IZR_lt 0 1000000). reflexivity.
Defined.

(** The default layer on the vector (0, 1): the variance of the normalised
    values is not 1.  And on the constant vector (1, 1) the normalised
    values are all 0: their variance is 0. *)
Lemma layer_norm_variance_not_one :
  (exists y : Torch.Tensor,
     LayerNormalization.forward
       (LayerNormalization.init LayerNormalization.default_eps) vector01 = Ok y /\
     row_var 2 (fun k => (Torch.item y [k] - 0) / 1)%R <> 1%R) /\
  (exists y : Torch.Tensor,
     LayerNormalization.forward
       (LayerNormalization.init LayerNormalization.default_eps) (Torch.ones [2]) = Ok y /\
     Torch.item y [0] = 0%R /\ Torch.item y [1] = 0%R /\
     row_var 2 (fun k => (Torch.item y [k] - 0) / 1)%R = 0%R).
Proof.
  assert (He : (0 < LayerNormalization.default_eps)%R).
  { apply Rinv_0_lt_compat. apply (IZR_lt 0 1000000). reflexivity. }
  split.
  - destruct (LayerNormalization_forward_ok
                (LayerNormalization.init LayerNormalization.default_eps) vector01
                eq_refl eq_refl ltac:(discriminate)) as (y & E & _).
    exists y. split; [exact E|].
    destruct (LayerNormalization_rows
                (LayerNormalization.init LayerNormalization.default_eps) vector01 y
                eq_refl eq_refl R1_neq_R0 (le_n 2) E [] (Forall2_nil _))
      as (_ & _ & _ & Hv).
    apply Rlt_not_eq, Hv, He.
  - destruct (LayerNormalization_forward_ok
                (LayerNormalization.init LayerNormalization.default_eps) (Torch.ones [2])
                eq_refl eq_refl ltac:(discriminate)) as (y & E & _).
    exists y. split; [exact E|].
    destruct (LayerNormalization_rows
                (LayerNormalization.init LayerNormalization.default_eps) (Torch.ones [2]) y
                eq_refl eq_refl R1_neq_R0 (le_n 2) E [] (Forall2_nil _))
      as (Hz & _ & Hv & _).
    cbn [Torch.shape Torch.ones Torch.last_dim last app Torch.item
         LayerNormalization.init LayerNormalization.alpha LayerNormalization.bias
         LayerNormalization.eps Torch.zeros] in Hz, Hv.
    assert (Hm : row_mean 2 (fun _ : nat => 1%R) = 1%R).
    { unfold row_mean. cbn. lra. }
    assert (Hs : sqrt (row_var 2 (fun _ : nat => 1%R)) = 0%R).
    { unfold row_var. rewrite Hm. cbn.
      replace ((0 + (1 - 1) * (1 - 1) + (1 - 1) * (1 - 1)) / (1 + 1 - 1))%R with 0%R
        by lra.
      apply sqrt_0. }
    rewrite Hs in Hv.
    pose proof (Hz 0 ltac:(lia)) as H0. pose proof (Hz 1 ltac:(lia)) as H1.
    rewrite Hm in H0, H1.
    assert (Hzero : forall a b : R, ((a - 0) / 1 = (1 - 1) / b -> a = 0)%R).
    { intros a b H. unfold Rdiv in H. rewrite Rinv_1 in H. lra. }
    split; [exact (Hzero _ _ H0)|]. split; [exact (Hzero _ _ H1)|].
    rewrite Hv. unfold Rdiv. ring.
Qed.

(** ** The forward pass succeeds on well-shaped inputs *)

Lemma bind_lift_ok {A B} (r : result A) (a : A) (k : A -> M B) (g : Generator) :
  r = Ok a -> bind (lift r) k g = k a g.
Proof. intros ->. reflexivity. Qed.

Lemma bind_ok {A B} (c : M A) (a : A) (k : A -> M B) (g g' : Generator) :
  c g = Ok (a, g') -> bind c k g = k a g'.
Proof. intros E. unfold bind. now rewrite E. Qed.

Lemma bind_raise {A B} (c : M A) (k : A -> M B) (g : Generator) (e : exn) :
  c g = Raise e -> bind c k g = Raise e.
Proof. intros E. unfold bind. now rewrite E. Qed.

(** Take one successful step of a computation that may also draw. *)
Ltac mstep L :=
  let t := fresh "t" in let E := fresh "E" in let S := fresh "S" in
  destruct L as (t & E & S); rewrite (bind_lift_ok _ _ _ _ E); cbv beta iota.

Section ForwardShapes.
Import Torch.

Lemma transpose_ok (t : Tensor) (d0 d1 : Z) (i j : nat) :
  wrap_dim (rank t) d0 = Ok i -> wrap_dim (rank t) d1 = Ok j ->
  exists u, transpose t d0 d1 = Ok u /\ shape u = swap (shape t) i j.
Proof.
  intros E0 E1. unfold transpose. rewrite E0, E1. cbn [rbind].
  eexists; split; reflexivity.
Qed.

Lemma broadcast_nil_r (s : Shape) : broadcast_shapes s [] = Some s.
Proof. apply broadcast_expand_r, expandable_nil. Qed.

Lemma matmul_3_2 (a w : Tensor) (b s d o : nat) :
  shape a = [b; s; d] -> shape w = [d; o] ->
  exists r, matmul a w = Ok r /\ shape r = [b; s; o].
Proof.
  intros Sa Sw. unfold matmul, rank. rewrite Sa, Sw.
  cbn [split_matrix rev app length Nat.eqb]. rewrite Nat.eqb_refl.
  rewrite broadcast_nil_r. eexists; split; reflexivity.
Qed.

Lemma matmul_4_4 (a c : Tensor) (b h s k t : nat) :
  shape a = [b; h; s; k] -> shape c = [b; h; k; t] ->
  exists r, matmul a c = Ok r /\ shape r = [b; h; s; t].
Proof.
  intros Sa Sc. unfold matmul, rank. rewrite Sa, Sc.
  cbn [split_matrix rev app length Nat.eqb]. rewrite Nat.eqb_refl.
  rewrite broadcast_shapes_refl. eexists; split; reflexivity.
Qed.

Lemma linear_ok (x w bias : Tensor) (b s d o : nat) :
  shape x = [b; s; d] -> shape w = [o; d] -> shape bias = [o] ->
  exists r, linear x w bias = Ok r /\ shape r = [b; s; o].
Proof.
  intros Sx Sw Sb. unfold linear.
  step (transpose_ok w 0 1 0 1 ltac:(unfold rank; rewrite Sw; reflexivity)
          ltac:(unfold rank; rewrite Sw; reflexivity)).
  rewrite Sw in S. cbn in S.
  step (matmul_3_2 x t b s d o Sx S).
  apply binop_ok. rewrite S0, Sb. apply broadcast_expand_r.
  unfold expandable, pad. cbn. rewrite Nat.eqb_refl, !orb_true_r. reflexivity.
Qed.

Lemma infer_split (b s : nat) (h dk : Z) :
  0 < b -> (0 < h)%Z -> (0 < dk)%Z ->
  infer_size [Z.of_nat b; (-1)%Z; h; dk] (numel [b; s; Z.to_nat (h * dk)])
  = Ok [b; s; Z.to_nat h; Z.to_nat dk].
Proof.
  intros Hb Hh Hk. unfold infer_size.
  cbn [existsb filter count_occ fold_right].
  change (-1 <? -1)%Z with false. change (-1 =? -1)%Z with true.
  replace (Z.of_nat b <? -1)%Z with false by (symmetry; apply Z.ltb_ge; lia).
  replace (h <? -1)%Z with false by (symmetry; apply Z.ltb_ge; lia).
  replace (dk <? -1)%Z with false by (symmetry; apply Z.ltb_ge; lia).
  cbn [orb].
  replace (Z.of_nat b =? -1)%Z with false by (symmetry; apply Z.eqb_neq; lia).
  replace (h =? -1)%Z with false by (symmetry; apply Z.eqb_neq; lia).
  replace (dk =? -1)%Z with false by (symmetry; apply Z.eqb_neq; lia).
  cbn [negb fold_right].
  destruct (Z.eq_dec (Z.of_nat b) (-1)); [lia|].
  destruct (Z.eq_dec (-1) (-1)); [|congruence].
  destruct (Z.eq_dec h (-1)); [lia|].
  destruct (Z.eq_dec dk (-1)); [lia|].
  assert (En : Z.of_nat (numel [b; s; Z.to_nat (h * dk)])
               = (Z.of_nat s * (Z.of_nat b * (h * (dk * 1))))%Z).
  { cbn [numel fold_right]. rewrite !Nat2Z.inj_mul, Z2Nat.id by nia.
    change (Z.of_nat 1) with 1%Z. ring. }
  rewrite En.
  assert (Hpos : (0 < Z.of_nat b * (h * (dk * 1)))%Z) by nia.
  set (m := (Z.of_nat b * (h * (dk * 1)))%Z) in *.
  rewrite Z.mod_mul by lia. rewrite Z.div_mul by lia.
  replace (0 <? m)%Z with true by (symmetry; apply Z.ltb_lt; lia).
  cbn [andb map]. change (0 =? 0)%Z with true. cbv iota.
  replace (Z.of_nat b =? -1)%Z with false by (symmetry; apply Z.eqb_neq; lia).
  replace (h =? -1)%Z with false by (symmetry; apply Z.eqb_neq; lia).
  replace (dk =? -1)%Z with false by (symmetry; apply Z.eqb_neq; lia).
  change (-1 =? -1)%Z with true. cbv iota. rewrite !Nat2Z.id. reflexivity.
Qed.

Lemma infer_merge (b s : nat) (h dk : Z) :
  0 < b -> (0 < h)%Z -> (0 < dk)%Z ->
  infer_size [Z.of_nat b; (-1)%Z; (h * dk)%Z] (numel [b; s; Z.to_nat h; Z.to_nat dk])
  = Ok [b; s; Z.to_nat (h * dk)].
Proof.
  intros Hb Hh Hk. unfold infer_size.
  cbn [existsb filter count_occ fold_right].
  change (-1 <? -1)%Z with false. change (-1 =? -1)%Z with true.
  replace (Z.of_nat b <? -1)%Z with false by (symmetry; apply Z.ltb_ge; lia).
  replace (h * dk <? -1)%Z with false by (symmetry; apply Z.ltb_ge; nia).
  cbn [orb].
  replace (Z.of_nat b =? -1)%Z with false by (symmetry; apply Z.eqb_neq; lia).
  replace (h * dk =? -1)%Z with false by (symmetry; apply Z.eqb_neq; nia).
  cbn [negb fold_right].
  destruct (Z.eq_dec (Z.of_nat b) (-1)); [lia|].
  destruct (Z.eq_dec (-1) (-1)); [|congruence].
  destruct (Z.eq_dec (h * dk) (-1)); [nia|].
  assert (En : Z.of_nat (numel [b; s; Z.to_nat h; Z.to_nat dk])
               = (Z.of_nat s * (Z.of_nat b * (h * dk * 1)))%Z).
  { cbn [numel fold_right]. rewrite !Nat2Z.inj_mul, !Z2Nat.id by lia.
    change (Z.of_nat 1) with 1%Z. ring. }
  rewrite En.
  assert (Hpos : (0 < Z.of_nat b * (h * dk * 1))%Z) by nia.
  set (m := (Z.of_nat b * (h * dk * 1))%Z) in *.
  rewrite Z.mod_mul by lia. rewrite Z.div_mul by lia.
  replace (0 <? m)%Z with true by (symmetry; apply Z.ltb_lt; lia).
  cbn [andb map]. change (0 =? 0)%Z with true. cbv iota.
  replace (Z.of_nat b =? -1)%Z with false by (symmetry; apply Z.eqb_neq; lia).
  replace (h * dk =? -1)%Z with false by (symmetry; apply Z.eqb_neq; nia).
  change (-1 =? -1)%Z with true. cbv iota. rewrite !Nat2Z.id. reflexivity.
Qed.



Lemma Linear_forward_ok (l : nn.Linear.t) (x : Tensor) (b s i o : nat) :
  wf_Linear l i o -> shape x = [b; s; i] ->
  exists r, nn.Linear.forward l x = Ok r /\ shape r = [b; s; o].
Proof.
  intros [Sw Sb] Sx. unfold nn.Linear.forward. now apply (linear_ok x _ _ b s i o).
Qed.

Lemma split_heads_ok (self : MultiHeadAttentionBlock.t) (x : Tensor) (b s d : nat) :
  (0 < MultiHeadAttentionBlock.h self)%Z -> (0 < MultiHeadAttentionBlock.d_k self)%Z ->
  Z.to_nat (MultiHeadAttentionBlock.h self * MultiHeadAttentionBlock.d_k self) = d ->
  0 < b -> shape x = [b; s; d] ->
  exists r, MultiHeadAttentionBlock.split_heads self x = Ok r /\
    shape r = [b; Z.to_nat (MultiHeadAttentionBlock.h self); s;
               Z.to_nat (MultiHeadAttentionBlock.d_k self)].
Proof.
  intros Hh Hk Hd Hb Sx.
  unfold MultiHeadAttentionBlock.split_heads, MultiHeadAttentionBlock.size0, nn.getitem.
  rewrite Sx. cbn [nth_error rmap rbind]. unfold view. rewrite Sx, <- Hd.
  rewrite infer_split by assumption. cbn [rbind].
  destruct (transpose_ok
              (mkTensor [b; s; Z.to_nat (MultiHeadAttentionBlock.h self);
                         Z.to_nat (MultiHeadAttentionBlock.d_k self)]
                 (fun i => item x (unravel [b; s; Z.to_nat (MultiHeadAttentionBlock.h self * MultiHeadAttentionBlock.d_k self)]
                    (ravel [b; s; Z.to_nat (MultiHeadAttentionBlock.h self);
                            Z.to_nat (MultiHeadAttentionBlock.d_k self)] i))))
              1 2 1 2 eq_refl eq_refl) as (u & E & S).
  exists u. split; [exact E|exact S].
Qed.

Lemma masked_fill_ok (t : Tensor) (m : LongTensor) (v : R) :
  expandable (lshape m) (shape t) = true ->
  exists r, masked_fill_eq0 t m v = Ok r /\ shape r = shape t.
Proof.
  intros E. unfold masked_fill_eq0. rewrite E. eexists; split; reflexivity.
Qed.

Lemma attention_ok tr (query key value : Tensor) mask dr g (b h s t dk : nat) :
  shape query = [b; h; s; dk] -> shape key = [b; h; t; dk] ->
  shape value = [b; h; t; dk] -> mask_fits mask [b; h; s; t] = true ->
  exists r g', MultiHeadAttentionBlock.attention tr query key value mask (Some dr) g
               = Ok (r, g')
    /\ shape (fst r) = [b; h; s; dk] /\ shape (snd r) = [b; h; s; t].
Proof.
  intros Sq Sk Sv Hm. unfold MultiHeadAttentionBlock.attention.
  rewrite Sq. rewrite (bind_lift_ok _ _ _ _ eq_refl). cbv beta iota.
  mstep (transpose_ok key (-2) (-1) 2 3
           ltac:(unfold rank; rewrite Sk; reflexivity)
           ltac:(unfold rank; rewrite Sk; reflexivity)).
  rewrite Sk in S. cbn in S.
  mstep (matmul_4_4 query t0 b h s dk t Sq S).
  set (sc := div_scalar t1 _).
  assert (Ssc : shape sc = [b; h; s; t]) by exact S0.
  assert (Hfill : exists r, match mask with
                            | Some m => masked_fill_eq0 sc m (-1000000000)
                            | None => Ok sc
                            end = Ok r /\ shape r = [b; h; s; t]).
  { destruct mask as [m|]; [|now exists sc].
    destruct (masked_fill_ok sc m (-1000000000)) as (r & E1 & S1).
    - rewrite Ssc. exact Hm.
    - exists r. split; [exact E1|congruence]. }
  mstep Hfill.
  unfold nn.Dropout.forward.
  destruct (dropout_ok (softmax t2) (nn.Dropout.p dr) tr g) as (y & g' & Ey & Sy).
  destruct (binop_same_shape Rminus (softmax t2) y (eq_sym Sy)) as (z & Ez & _).
  assert (Edrop : bind (dropout (softmax t2) (nn.Dropout.p dr) tr)
                    (fun dropped => lift (sub (softmax t2) dropped)) g = Ok (z, g')).
  { rewrite (bind_ok _ _ _ _ _ Ey). unfold sub. now rewrite Ez. }
  rewrite (bind_ok _ _ _ _ _ Edrop).
  destruct (matmul_4_4 (softmax t2) value b h s t dk) as (o & Eo & So);
    [exact S1 | exact Sv |].
  rewrite (bind_lift_ok _ _ _ _ Eo). cbv beta.
  eexists; eexists; split; [reflexivity|]. split; [exact So|exact S1].
Qed.

Lemma MultiHeadAttentionBlock_forward_ok tr self q k v mask g (b s t d : nat) :
  wf_MultiHeadAttentionBlock self d -> 0 < b ->
  shape q = [b; s; d] -> shape k = [b; t; d] -> shape v = [b; t; d] ->
  mask_fits mask [b; Z.to_nat (MultiHeadAttentionBlock.h self); s; t] = true ->
  exists r g', MultiHeadAttentionBlock.forward tr self q k v mask g = Ok (r, g')
    /\ shape (fst r) = [b; s; d].
Proof.
  intros (Hh & Hk & Hd & Wq & Wk & Wv & Wo) Hb Sq Sk Sv Hm.
  unfold MultiHeadAttentionBlock.forward.
  mstep (Linear_forward_ok _ q b s d d Wq Sq).
  mstep (Linear_forward_ok _ k b t d d Wk Sk).
  mstep (Linear_forward_ok _ v b t d d Wv Sv).
  mstep (split_heads_ok self t0 b s d Hh Hk Hd Hb S).
  mstep (split_heads_ok self t1 b t d Hh Hk Hd Hb S0).
  mstep (split_heads_ok self t2 b t d Hh Hk Hd Hb S1).
  destruct (attention_ok tr t3 t4 t5 mask (MultiHeadAttentionBlock.dropout self) g
              _ _ _ _ _ S2 S3 S4 Hm) as (r & g' & Er & So & Ssc).
  rewrite (bind_ok _ _ _ _ _ Er). cbv beta zeta.
  unfold MultiHeadAttentionBlock.size0, nn.getitem. rewrite So.
  cbn [nth_error rmap rbind]. rewrite (bind_lift_ok _ _ _ _ eq_refl). cbv beta.
  mstep (transpose_ok (fst r) 1 2 1 2
           ltac:(unfold rank; rewrite So; reflexivity)
           ltac:(unfold rank; rewrite So; reflexivity)).
  rewrite So in S5. cbn in S5.
  unfold view. rewrite S5, infer_merge by assumption. cbn [rbind].
  rewrite (bind_lift_ok _ _ _ _ eq_refl). cbv beta.
  mstep (Linear_forward_ok (MultiHeadAttentionBlock.w_o self)
           (mkTensor [b; s; Z.to_nat (MultiHeadAttentionBlock.h self * MultiHeadAttentionBlock.d_k self)]
              (fun i => item t6 (unravel [b; s; Z.to_nat (MultiHeadAttentionBlock.h self);
                                          Z.to_nat (MultiHeadAttentionBlock.d_k self)]
                                   (ravel [b; s; Z.to_nat (MultiHeadAttentionBlock.h self * MultiHeadAttentionBlock.d_k self)] i))))
           b s d d Wo ltac:(cbn [shape]; now rewrite Hd)).
  eexists; eexists; split; [reflexivity|exact S6].
Qed.

Lemma FeedForwardBlock_forward_ok tr self x g (b s d : nat) :
  wf_FeedForwardBlock self d -> shape x = [b; s; d] ->
  exists r g', FeedForwardBlock.forward tr self x g = Ok (r, g') /\ shape r = [b; s; d].
Proof.
  intros (dff & W1 & W2) Sx. unfold FeedForwardBlock.forward.
  mstep (Linear_forward_ok _ x b s d dff W1 Sx).
  unfold nn.Dropout.forward.
  destruct (dropout_ok (relu t) (nn.Dropout.p (FeedForwardBlock.dropout self)) tr g)
    as (y & g' & Ey & Sy).
  rewrite (bind_ok _ _ _ _ _ Ey).
  destruct (Linear_forward_ok _ y b s dff d W2) as (z & Ez & Sz).
  { rewrite Sy. exact S. }
  unfold lift. rewrite Ez. eexists; eexists; split; [reflexivity|exact Sz].
Qed.

Lemma ResidualConnection_forward_ok {St} tr self x (sublayer : Tensor -> M (Tensor * St)) g :
  wf_ResidualConnection self -> shape x <> [] ->
  (forall n g1, shape n = shape x ->
     exists r g', sublayer n g1 = Ok (r, g') /\ shape (fst r) = shape x) ->
  exists r g', ResidualConnection.forward tr self x sublayer g = Ok (r, g')
    /\ shape (fst r) = shape x.
Proof.
  intros [Sa Sb] Hx Hsub. unfold ResidualConnection.forward.
  mstep (LayerNormalization_forward_ok _ x Sa Sb Hx).
  destruct (Hsub t g S) as (r & g1 & Er & Sr).
  rewrite (bind_ok _ _ _ _ _ Er).
  unfold nn.Dropout.forward.
  destruct (dropout_ok (fst r) (nn.Dropout.p (ResidualConnection.dropout self)) tr g1)
    as (y & g2 & Ey & Sy).
  rewrite (bind_ok _ _ _ _ _ Ey).
  destruct (binop_same_shape Rplus x y) as (z & Ez & Sz); [congruence|].
  unfold add. rewrite (bind_lift_ok _ _ _ _ Ez).
  eexists; eexists; split; [reflexivity|exact Sz].
Qed.

Lemma EncoderBlock_forward_ok tr self x mask g (b s d : nat) :
  wf_EncoderBlock d self -> 0 < b -> shape x = [b; s; d] ->
  mask_fits mask [b; Z.to_nat (MultiHeadAttentionBlock.h (EncoderBlock.self_attention_block self)); s; s] = true ->
  exists r g', EncoderBlock.forward tr self x mask g = Ok (r, g')
    /\ shape (fst r) = [b; s; d].
Proof.
  intros (Wa & Wf & r0 & r1 & Er & W0 & W1) Hb Sx Hm.
  unfold EncoderBlock.forward. rewrite Er. unfold nn.getitem. cbn [nth_error].
  rewrite (bind_lift_ok _ _ _ _ eq_refl).
  destruct (ResidualConnection_forward_ok tr r0 x
              (fun x0 => MultiHeadAttentionBlock.forward tr
                           (EncoderBlock.self_attention_block self) x0 x0 x0 mask) g W0)
    as (xa & g1 & Ea & Sa).
  { rewrite Sx. discriminate. }
  { intros n g1 Sn. rewrite Sx in *.
    apply (MultiHeadAttentionBlock_forward_ok tr _ n n n mask g1 b s s d); assumption. }
  rewrite (bind_ok _ _ _ _ _ Ea). rewrite (bind_lift_ok _ _ _ _ eq_refl).
  destruct (ResidualConnection_forward_ok tr r1 (fst xa)
              (fun x0 => y <- FeedForwardBlock.forward tr
                                (EncoderBlock.feed_forward_block self) x0 ;; ret (y, tt))
              g1 W1)
    as (xf & g2 & Ef & Sf).
  { rewrite Sa, Sx. discriminate. }
  { intros n g3 Sn. rewrite Sa, Sx in *.
    destruct (FeedForwardBlock_forward_ok tr _ n g3 b s d Wf Sn) as (y & g4 & Ey & Sy).
    rewrite (bind_ok _ _ _ _ _ Ey). eexists; eexists; split; [reflexivity|exact Sy]. }
  rewrite (bind_ok _ _ _ _ _ Ef).
  eexists; eexists; split; [reflexivity|]. cbn [fst]. congruence.
Qed.

Lemma Encoder_forward_layers_ok tr layers x mask g (b s d : nat) (h : Z) :
  Forall (wf_EncoderBlock d) layers ->
  Forall (fun e => MultiHeadAttentionBlock.h (EncoderBlock.self_attention_block e) = h) layers ->
  0 < b -> shape x = [b; s; d] ->
  mask_fits mask [b; Z.to_nat h; s; s] = true ->
  exists r g', Encoder.forward_layers tr layers x mask g = Ok (r, g')
    /\ shape (fst r) = [b; s; d].
Proof.
  intros W Hh Hb. revert x g.
  induction W as [|e layers We W IH]; intros x g Sx Hm; cbn [Encoder.forward_layers].
  - eexists; eexists; split; [reflexivity|exact Sx].
  - pose proof (Forall_inv Hh) as He. pose proof (Forall_inv_tail Hh) as Hh'.
    destruct (EncoderBlock_forward_ok tr e x mask g b s d We Hb Sx)
      as (xl & g1 & El & Sl).
    { rewrite He. exact Hm. }
    rewrite (bind_ok _ _ _ _ _ El).
    destruct (IH Hh' (fst xl) g1 Sl Hm) as (xr & g2 & Er & Sr).
    rewrite (bind_ok _ _ _ _ _ Er).
    eexists; eexists; split; [reflexivity|exact Sr].
Qed.

Lemma Encoder_forward_ok tr self x mask g (b s d : nat) (h : Z) :
  wf_Encoder d self ->
  Forall (fun e => MultiHeadAttentionBlock.h (EncoderBlock.self_attention_block e) = h)
         (Encoder.layers self) ->
  0 < b -> shape x = [b; s; d] ->
  mask_fits mask [b; Z.to_nat h; s; s] = true ->
  exists r g', Encoder.forward tr self x mask g = Ok (r, g')
    /\ shape (fst r) = [b; s; d].
Proof.
  intros [W [Sa Sb]] Hh Hb Sx Hm. unfold Encoder.forward.
  destruct (Encoder_forward_layers_ok tr _ x mask g b s d h W Hh Hb Sx Hm)
    as (xl & g1 & El & Sl).
  rewrite (bind_ok _ _ _ _ _ El).
  mstep (LayerNormalization_forward_ok (Encoder.norm self) (fst xl) Sa Sb
           ltac:(rewrite Sl; discriminate)).
  eexists; eexists; split; [reflexivity|]. cbn [fst]. congruence.
Qed.

Lemma InputEmbedding_forward_ok self x (d v : nat) :
  wf_InputEmbedding self d v -> tokens_in x v = true ->
  exists r, InputEmbedding.forward self x = Ok r /\ shape r = lshape x ++ [d].
Proof.
  intros [Hd Sw] Ht.
  unfold InputEmbedding.forward, nn.Embedding.forward, embedding.
  rewrite Sw. unfold tokens_in in Ht. rewrite Ht. cbn [rbind].
  rewrite Hd. replace (Z.of_nat d <? 0)%Z with false by (symmetry; apply Z.ltb_ge; lia).
  cbn [rbind]. eexists; split; reflexivity.
Qed.

Lemma Transformer_encode_ok tr m src mask g (d : nat) (h : Z) (vs vt ls lt b s : nat) :
  wf_Transformer m d h vs vt ls lt ->
  lshape src = [b; s] -> 0 < b -> s <= ls ->
  tokens_in src vs = true ->
  mask_fits mask [b; Z.to_nat h; s; s] = true ->
  exists r g', Transformer.encode tr m src mask g = Ok (r, g')
    /\ shape (fst r) = [b; s; d].
Proof.
  intros W Ss Hb Hs Ht Hm. unfold Transformer.encode.
  mstep (InputEmbedding_forward_ok _ src d vs (wf_src_embed _ _ _ _ _ _ _ W) Ht).
  rewrite Ss in S. cbn [app] in S.
  destruct (PositionalEncoding_forward_ok tr (Transformer.src_pos m) t b s d ls g
              (wf_src_pos _ _ _ _ _ _ _ W) S (or_introl Hs)) as (y & g1 & Ey & Sy).
  rewrite (bind_ok _ _ _ _ _ Ey).
  destruct (Encoder_forward_ok tr (Transformer.encoder m) y mask g1 b s d h
              (wf_encoder _ _ _ _ _ _ _ W) (wf_heads_encoder _ _ _ _ _ _ _ W) Hb Sy Hm)
    as (ye & g2 & Ee & Se).
  rewrite (bind_ok _ _ _ _ _ Ee).
  eexists; eexists; split; [reflexivity|exact Se].
Qed.

Lemma DecoderBlock_forward_ok tr self x enc src_mask tgt_mask g (b s t d : nat) (h : Z) :
  wf_DecoderBlock d self ->
  MultiHeadAttentionBlock.h (DecoderBlock.self_attention_block self) = h ->
  MultiHeadAttentionBlock.h (DecoderBlock.cross_attention_block self) = h ->
  0 < b -> shape x = [b; s; d] -> shape enc = [b; t; d] ->
  mask_fits tgt_mask [b; Z.to_nat h; s; s] = true ->
  mask_fits src_mask [b; Z.to_nat h; s; t] = true ->
  exists r g', DecoderBlock.forward tr self x enc src_mask tgt_mask g = Ok (r, g')
    /\ shape (fst r) = [b; s; d].
Proof.
  intros (Wa & Wc & Wf & r0 & r1 & r2 & Er & W0 & W1 & W2) Ha Hc Hb Sx Se Hmt Hms.
  unfold DecoderBlock.forward. rewrite Er. unfold nn.getitem. cbn [nth_error].
  rewrite (bind_lift_ok _ _ _ _ eq_refl).
  destruct (ResidualConnection_forward_ok tr r0 x
              (fun x0 => MultiHeadAttentionBlock.forward tr
                           (DecoderBlock.self_attention_block self) x0 x0 x0 tgt_mask) g W0)
    as (xa & g1 & Ea & Sa).
  { rewrite Sx. discriminate. }
  { intros n g1 Sn. rewrite Sx in *.
    apply (MultiHeadAttentionBlock_forward_ok tr _ n n n tgt_mask g1 b s s d);
      try assumption. now rewrite Ha. }
  rewrite (bind_ok _ _ _ _ _ Ea). rewrite (bind_lift_ok _ _ _ _ eq_refl).
  destruct (ResidualConnection_forward_ok tr r1 (fst xa)
              (fun x0 => MultiHeadAttentionBlock.forward tr
                           (DecoderBlock.cross_attention_block self) x0 enc enc src_mask)
              g1 W1)
    as (xc & g2 & Ec & Sc).
  { rewrite Sa, Sx. discriminate. }
  { intros n g3 Sn. rewrite Sa, Sx in *.
    apply (MultiHeadAttentionBlock_forward_ok tr _ n enc enc src_mask g3 b s t d);
      try assumption. now rewrite Hc. }
  rewrite (bind_ok _ _ _ _ _ Ec). rewrite (bind_lift_ok _ _ _ _ eq_refl).
  destruct (ResidualConnection_forward_ok tr r2 (fst xc)
              (fun x0 => y <- FeedForwardBlock.forward tr
                                (DecoderBlock.feed_forward_block self) x0 ;; ret (y, tt))
              g2 W2)
    as (xf & g3 & Ef & Sf).
  { rewrite Sc, Sa, Sx. discriminate. }
  { intros n g4 Sn. rewrite Sc, Sa, Sx in *.
    destruct (FeedForwardBlock_forward_ok tr _ n g4 b s d Wf Sn) as (y & g5 & Ey & Sy).
    rewrite (bind_ok _ _ _ _ _ Ey). eexists; eexists; split; [reflexivity|exact Sy]. }
  rewrite (bind_ok _ _ _ _ _ Ef).
  eexists; eexists; split; [reflexivity|]. cbn [fst]. congruence.
Qed.

Lemma Decoder_forward_layers_ok tr layers x enc src_mask tgt_mask g (b s t d : nat) (h : Z) :
  Forall (wf_DecoderBlock d) layers ->
  Forall (fun e => MultiHeadAttentionBlock.h (DecoderBlock.self_attention_block e) = h
                   /\ MultiHeadAttentionBlock.h (DecoderBlock.cross_attention_block e) = h)
         layers ->
  0 < b -> shape x = [b; s; d] -> shape enc = [b; t; d] ->
  mask_fits tgt_mask [b; Z.to_nat h; s; s] = true ->
  mask_fits src_mask [b; Z.to_nat h; s; t] = true ->
  exists r g', Decoder.forward_layers tr layers x enc src_mask tgt_mask g = Ok (r, g')
    /\ shape (fst r) = [b; s; d].
Proof.
  intros W Hh Hb. revert x g.
  induction W as [|e layers We W IH]; intros x g Sx Se Hmt Hms;
    cbn [Decoder.forward_layers].
  - eexists; eexists; split; [reflexivity|exact Sx].
  - pose proof (Forall_inv Hh) as [Ha Hc]. pose proof (Forall_inv_tail Hh) as Hh'.
    destruct (DecoderBlock_forward_ok tr e x enc src_mask tgt_mask g b s t d _
                We Ha Hc Hb Sx Se Hmt Hms)
      as (xl & g1 & El & Sl).
    rewrite (bind_ok _ _ _ _ _ El).
    destruct (IH Hh' (fst xl) g1 Sl Se Hmt Hms) as (xr & g2 & Er & Sr).
    rewrite (bind_ok _ _ _ _ _ Er).
    eexists; eexists; split; [reflexivity|exact Sr].
Qed.

Lemma Decoder_forward_ok tr self x enc src_mask tgt_mask g (b s t d : nat) (h : Z) :
  wf_Decoder d self ->
  Forall (fun e => MultiHeadAttentionBlock.h (DecoderBlock.self_attention_block e) = h
                   /\ MultiHeadAttentionBlock.h (DecoderBlock.cross_attention_block e) = h)
         (Decoder.layers self) ->
  0 < b -> shape x = [b; s; d] -> shape enc = [b; t; d] ->
  mask_fits tgt_mask [b; Z.to_nat h; s; s] = true ->
  mask_fits src_mask [b; Z.to_nat h; s; t] = true ->
  exists r g', Decoder.forward tr self x enc src_mask tgt_mask g = Ok (r, g')
    /\ shape (fst r) = [b; s; d].
Proof.
  intros [W [Sa Sb]] Hh Hb Sx Se Hmt Hms. unfold Decoder.forward.
  destruct (Decoder_forward_layers_ok tr _ x enc src_mask tgt_mask g b s t d h
              W Hh Hb Sx Se Hmt Hms)
    as (xl & g1 & El & Sl).
  rewrite (bind_ok _ _ _ _ _ El).
  mstep (LayerNormalization_forward_ok (Decoder.norm self) (fst xl) Sa Sb
           ltac:(rewrite Sl; discriminate)).
  eexists; eexists; split; [reflexivity|]. cbn [fst]. congruence.
Qed.

Lemma Transformer_decode_ok tr m enc src_mask tgt tgt_mask g
    (d : nat) (h : Z) (vs vt ls lt b s t : nat) :
  wf_Transformer m d h vs vt ls lt ->
  lshape tgt = [b; s] -> shape enc = [b; t; d] -> 0 < b -> s <= lt ->
  tokens_in tgt vt = true ->
  mask_fits tgt_mask [b; Z.to_nat h; s; s] = true ->
  mask_fits src_mask [b; Z.to_nat h; s; t] = true ->
  exists r g', Transformer.decode tr m enc src_mask tgt tgt_mask g = Ok (r, g')
    /\ shape (fst r) = [b; s; d].
Proof.
  intros W Ss Se Hb Hs Ht Hmt Hms. unfold Transformer.decode.
  mstep (InputEmbedding_forward_ok _ tgt d vt (wf_tgt_embed _ _ _ _ _ _ _ W) Ht).
  rewrite Ss in S. cbn [app] in S.
  destruct (PositionalEncoding_forward_ok tr (Transformer.tgt_pos m) t0 b s d lt g
              (wf_tgt_pos _ _ _ _ _ _ _ W) S (or_introl Hs)) as (y & g1 & Ey & Sy).
  rewrite (bind_ok _ _ _ _ _ Ey).
  destruct (Decoder_forward_ok tr (Transformer.decoder m) y enc src_mask tgt_mask g1
              b s t d h (wf_decoder _ _ _ _ _ _ _ W) (wf_heads_decoder _ _ _ _ _ _ _ W)
              Hb Sy Se Hmt Hms)
    as (yd & g2 & Ed & Sd).
  rewrite (bind_ok _ _ _ _ _ Ed).
  eexists; eexists; split; [reflexivity|exact Sd].
Qed.

Lemma Transformer_project_ok m x (d : nat) (h : Z) (vs vt ls lt b s : nat) :
  wf_Transformer m d h vs vt ls lt -> shape x = [b; s; d] ->
  exists y, Transformer.project m x = Ok y /\ shape y = [b; s; vt].
Proof.
  intros W Sx. unfold Transformer.project, ProjectionLayer.forward.
  step (Linear_forward_ok _ x b s d vt (wf_projection _ _ _ _ _ _ _ W) Sx).
  eexists; split; [reflexivity|exact S].
Qed.

(** An empty batch: [view] cannot infer the -1 of [query.shape[0], -1, h, d_k]
    from a tensor of no elements. *)
Lemma split_heads_empty_batch (self : MultiHeadAttentionBlock.t) (x : Tensor) (s d : nat) :
  (0 < MultiHeadAttentionBlock.h self)%Z -> (0 < MultiHeadAttentionBlock.d_k self)%Z ->
  shape x = [0; s; d] ->
  MultiHeadAttentionBlock.split_heads self x = Raise RuntimeError.
Proof.
  intros Hh Hk Sx.
  unfold MultiHeadAttentionBlock.split_heads, MultiHeadAttentionBlock.size0, nn.getitem.
  rewrite Sx. cbn [nth_error rmap rbind]. unfold view. rewrite Sx.
  unfold infer_size. cbn [existsb filter count_occ fold_right numel Nat.mul Z.of_nat].
  change (0 <? -1)%Z with false. change (-1 <? -1)%Z with false.
  change (-1 =? -1)%Z with true. change (0 =? -1)%Z with false.
  replace (MultiHeadAttentionBlock.h self <? -1)%Z with false
    by (symmetry; apply Z.ltb_ge; lia).
  replace (MultiHeadAttentionBlock.d_k self <? -1)%Z with false
    by (symmetry; apply Z.ltb_ge; lia).
  replace (MultiHeadAttentionBlock.h self =? -1)%Z with false
    by (symmetry; apply Z.eqb_neq; lia).
  replace (MultiHeadAttentionBlock.d_k self =? -1)%Z with false
    by (symmetry; apply Z.eqb_neq; lia).
  cbn [orb negb fold_right].
  destruct (Z.eq_dec 0 (-1)); [lia|].
  destruct (Z.eq_dec (-1) (-1)); [|congruence].
  destruct (Z.eq_dec (MultiHeadAttentionBlock.h self) (-1)); [lia|].
  destruct (Z.eq_dec (MultiHeadAttentionBlock.d_k self) (-1)); [lia|].
  rewrite Z.mul_0_l. reflexivity.
Qed.

Lemma MultiHeadAttentionBlock_forward_empty_batch tr self x mask g (s d : nat) :
  wf_MultiHeadAttentionBlock self d -> shape x = [0; s; d] ->
  MultiHeadAttentionBlock.forward tr self x x x mask g = Raise RuntimeError.
Proof.
  intros (Hh & Hk & Hd & Wq & Wk & Wv & Wo) Sx.
  unfold MultiHeadAttentionBlock.forward.
  mstep (Linear_forward_ok _ x 0 s d d Wq Sx).
  mstep (Linear_forward_ok _ x 0 s d d Wk Sx).
  mstep (Linear_forward_ok _ x 0 s d d Wv Sx).
  rewrite (split_heads_empty_batch self t s d Hh Hk S). reflexivity.
Qed.

Lemma ResidualConnection_forward_raise {St} tr self x
    (sublayer : Tensor -> M (Tensor * St)) g n e :
  LayerNormalization.forward (ResidualConnection.norm self) x = Ok n ->
  sublayer n g = Raise e ->
  ResidualConnection.forward tr self x sublayer g = Raise e.
Proof.
  intros En Es. unfold ResidualConnection.forward.
  rewrite (bind_lift_ok _ _ _ _ En). now apply bind_raise.
Qed.

Lemma EncoderBlock_forward_empty_batch tr self x mask g (s d : nat) :
  wf_EncoderBlock d self -> shape x = [0; s; d] ->
  EncoderBlock.forward tr self x mask g = Raise RuntimeError.
Proof.
  intros (Wa & Wf & r0 & r1 & Er & [Sa Sb] & W1) Sx.
  unfold EncoderBlock.forward. rewrite Er. unfold nn.getitem. cbn [nth_error].
  rewrite (bind_lift_ok _ _ _ _ eq_refl).
  destruct (LayerNormalization_forward_ok _ x Sa Sb ltac:(rewrite Sx; discriminate))
    as (n & En & Sn).
  rewrite Sx in Sn.
  apply bind_raise. apply (ResidualConnection_forward_raise _ _ _ _ _ n); [exact En|].
  exact (MultiHeadAttentionBlock_forward_empty_batch tr _ n mask g s d Wa Sn).
Qed.

Lemma Transformer_encode_empty_batch tr m src mask g (d : nat) (h : Z)
    (vs vt ls lt s : nat) :
  wf_Transformer m d h vs vt ls lt ->
  Encoder.layers (Transformer.encoder m) <> [] ->
  lshape src = [0; s] -> s <= ls ->
  Transformer.encode tr m src mask g = Raise RuntimeError.
Proof.
  intros W Hl Ss Hs. unfold Transformer.encode.
  mstep (InputEmbedding_forward_ok _ src d vs (wf_src_embed _ _ _ _ _ _ _ W)
           ltac:(unfold tokens_in; rewrite Ss; reflexivity)).
  rewrite Ss in S. cbn [app] in S.
  destruct (PositionalEncoding_forward_ok tr (Transformer.src_pos m) t 0 s d ls g
              (wf_src_pos _ _ _ _ _ _ _ W) S (or_introl Hs)) as (y & g1 & Ey & Sy).
  rewrite (bind_ok _ _ _ _ _ Ey).
  destruct (wf_encoder _ _ _ _ _ _ _ W) as [Wl _].
  apply bind_raise. unfold Encoder.forward. apply bind_raise.
  destruct (Encoder.layers (Transformer.encoder m)) as [|e l]; [congruence|].
  apply Forall_inv in Wl. cbn [Encoder.forward_layers]. apply bind_raise.
  exact (EncoderBlock_forward_empty_batch tr e y mask g1 s d Wl Sy).
Qed.

End ForwardShapes.

(** ** Construction *)

Lemma bind_inv {A B} (c : M A) (k : A -> M B) (g : Generator) (r : B * Generator) :
  bind c k g = Ok r -> exists a g1, c g = Ok (a, g1) /\ k a g1 = Ok r.
Proof.
  unfold bind. destruct (c g) as [[a g1]|e]; [|discriminate].
  intros H. now exists a, g1.
Qed.

Lemma lift_inv {A} (r : result A) (g g' : Generator) (a : A) :
  lift r g = Ok (a, g') -> r = Ok a /\ g' = g.
Proof. unfold lift. destruct r; [|discriminate]. intros [= -> ->]. split; reflexivity. Qed.

Lemma ret_inv {A} (a a' : A) (g g' : Generator) :
  ret a g = Ok (a', g') -> a' = a /\ g' = g.
Proof. unfold ret. intros [= -> ->]. split; reflexivity. Qed.

Lemma random_inv (s : Torch.Shape) (g g' : Generator) (t : Torch.Tensor) :
  Torch.random s g = Ok (t, g') -> Torch.shape t = s.
Proof. unfold Torch.random. intros [= <- _]. reflexivity. Qed.

(** Decompose a successful run into its steps. *)
Ltac minv H :=
  repeat (apply bind_inv in H;
          let a := fresh "a" in let g := fresh "g" in let E := fresh "E" in
          destruct H as (a & g & E & H));
  repeat match goal with
         | E : lift _ _ = Ok _ |- _ =>
             apply lift_inv in E; let e := fresh "Eg" in destruct E as [E e]; subst
         | E : ret _ _ = Ok _ |- _ =>
             apply ret_inv in E; let e := fresh "Eg" in destruct E as [E e]; subst
         end.

Section Construction.
Import Torch.

Lemma Linear_init_inv (i o : Z) (g g' : Generator) (l : nn.Linear.t) :
  nn.Linear.init i o g = Ok (l, g') ->
  (0 <= i)%Z /\ (0 <= o)%Z /\ wf_Linear l (Z.to_nat i) (Z.to_nat o).
Proof.
  unfold nn.Linear.init. intros H. minv H.
  apply size_of_inv in E, E0. destruct E as [F1 ->], E0 as [F2 ->].
  apply random_inv in E1, E2.
  inversion F1 as [|? ? Ho F1']. inversion F1' as [|? ? Hi _]. subst.
  repeat split; assumption.
Qed.

Lemma Linear_init_ok (i o : Z) (g : Generator) :
  (0 <= i)%Z -> (0 <= o)%Z ->
  exists l g', nn.Linear.init i o g = Ok (l, g').
Proof.
  intros Hi Ho. unfold nn.Linear.init.
  rewrite !size_of_ok by (repeat constructor; lia).
  eexists; eexists; reflexivity.
Qed.

Lemma xavier_uniform_inv (p p' : Tensor) (g g' : Generator) :
  nn.xavier_uniform p g = Ok (p', g') -> shape p' = shape p.
Proof.
  unfold nn.xavier_uniform.
  destruct (shape p) as [|o [|i [|? ?]]] eqn:E; try apply random_inv.
  destruct (o + i =? 0); [discriminate|apply random_inv].
Qed.

Lemma xavier_uniform_ok (p : Tensor) (g : Generator) (o i : nat) :
  shape p = [o; i] -> 0 < i ->
  exists p' g', nn.xavier_uniform p g = Ok (p', g') /\ shape p' = [o; i].
Proof.
  intros E Hi. unfold nn.xavier_uniform. rewrite E.
  destruct (Nat.eqb_spec (o + i) 0); [lia|].
  eexists; eexists; split; reflexivity.
Qed.

Lemma Dropout_init_ok (p : Q) :
  Qle_bool 0 p && Qle_bool p 1 = true -> nn.Dropout.init p = Ok (nn.Dropout.mk p).
Proof. intros H. unfold nn.Dropout.init. now rewrite H. Qed.

Lemma Dropout_init_inv (p : Q) (d : nn.Dropout.t) :
  nn.Dropout.init p = Ok d -> Qle_bool 0 p && Qle_bool p 1 = true.
Proof. unfold nn.Dropout.init. destruct (_ && _); [reflexivity|discriminate]. Qed.

Lemma Embedding_init_inv (v d : Z) (g g' : Generator) (e : nn.Embedding.t) :
  nn.Embedding.init v d g = Ok (e, g') ->
  (0 <= d)%Z /\ (0 <= v)%Z /\ shape (nn.Embedding.weight e) = [Z.to_nat v; Z.to_nat d].
Proof.
  unfold nn.Embedding.init. intros H. minv H.
  apply size_of_inv in E. destruct E as [F ->]. apply random_inv in E0.
  inversion F as [|? ? Hv F']. inversion F' as [|? ? Hd _]. subst.
  repeat split; assumption.
Qed.

Lemma InputEmbedding_init_inv (d v : Z) (g g' : Generator) (e : InputEmbedding.t) :
  InputEmbedding.init d v g = Ok (e, g') ->
  (0 <= d)%Z /\ (0 <= v)%Z /\ wf_InputEmbedding e (Z.to_nat d) (Z.to_nat v).
Proof.
  unfold InputEmbedding.init. intros H. minv H.
  apply Embedding_init_inv in E. destruct E as (Hd & Hv & Sw).
  repeat split; try assumption. cbn. lia.
Qed.

Lemma InputEmbedding_init_ok (d v : Z) (g : Generator) :
  (0 <= d)%Z -> (0 <= v)%Z ->
  exists e g', InputEmbedding.init d v g = Ok (e, g').
Proof.
  intros Hd Hv. unfold InputEmbedding.init, nn.Embedding.init.
  rewrite size_of_ok by (repeat constructor; lia).
  eexists; eexists; reflexivity.
Qed.

Lemma InputEmbedding_xavier_inv (e e' : InputEmbedding.t) (g g' : Generator) (d v : nat) :
  InputEmbedding.xavier e g = Ok (e', g') ->
  wf_InputEmbedding e d v -> wf_InputEmbedding e' d v.
Proof.
  unfold InputEmbedding.xavier. intros H [Hd Sw]. minv H.
  apply xavier_uniform_inv in E. split; [exact Hd|]. cbn. congruence.
Qed.

Lemma InputEmbedding_xavier_ok (e : InputEmbedding.t) (g : Generator) (d v : nat) :
  wf_InputEmbedding e d v -> 0 < d ->
  exists e' g', InputEmbedding.xavier e g = Ok (e', g').
Proof.
  intros [Hd Sw] Hp. unfold InputEmbedding.xavier.
  destruct (xavier_uniform_ok _ g v d Sw Hp) as (p' & g' & E & _).
  rewrite (bind_ok _ _ _ _ _ E). eexists; eexists; reflexivity.
Qed.

Lemma check_heads_ok (d h : Z) :
  h <> 0%Z -> (d mod h = 0)%Z -> MultiHeadAttentionBlock.check_heads d h = Ok tt.
Proof.
  intros Hh Hd. unfold MultiHeadAttentionBlock.check_heads.
  destruct (Z.eqb_spec h 0); [contradiction|]. now rewrite Hd.
Qed.

Lemma check_heads_inv (d h : Z) (u : unit) :
  MultiHeadAttentionBlock.check_heads d h = Ok u -> h <> 0%Z /\ (d mod h = 0)%Z.
Proof.
  unfold MultiHeadAttentionBlock.check_heads.
  destruct (Z.eqb_spec h 0); [discriminate|].
  destruct (Z.eqb_spec (d mod h) 0); [auto|discriminate].
Qed.

Lemma MultiHeadAttentionBlock_init_ok (d h : Z) (p : Q) (g : Generator) :
  h <> 0%Z -> (d mod h = 0)%Z -> (0 <= d)%Z ->
  Qle_bool 0 p && Qle_bool p 1 = true ->
  exists a g', MultiHeadAttentionBlock.init d h p g = Ok (a, g').
Proof.
  intros Hh Hm Hd Hp. unfold MultiHeadAttentionBlock.init.
  rewrite (bind_lift_ok _ _ _ _ (check_heads_ok d h Hh Hm)).
  destruct (Linear_init_ok d d g Hd Hd) as (l1 & g1 & E1). rewrite (bind_ok _ _ _ _ _ E1).
  destruct (Linear_init_ok d d g1 Hd Hd) as (l2 & g2 & E2). rewrite (bind_ok _ _ _ _ _ E2).
  destruct (Linear_init_ok d d g2 Hd Hd) as (l3 & g3 & E3). rewrite (bind_ok _ _ _ _ _ E3).
  destruct (Linear_init_ok d d g3 Hd Hd) as (l4 & g4 & E4). rewrite (bind_ok _ _ _ _ _ E4).
  rewrite (bind_lift_ok _ _ _ _ (Dropout_init_ok p Hp)).
  eexists; eexists; reflexivity.
Qed.

Lemma MultiHeadAttentionBlock_init_inv (d h : Z) (p : Q) (g g' : Generator)
    (a : MultiHeadAttentionBlock.t) :
  MultiHeadAttentionBlock.init d h p g = Ok (a, g') ->
  h <> 0%Z /\ (d mod h = 0)%Z /\ MultiHeadAttentionBlock.h a = h /\
  MultiHeadAttentionBlock.attention_scores a = None /\
  ((0 < h)%Z -> (0 < d)%Z -> wf_MultiHeadAttentionBlock a (Z.to_nat d)).
Proof.
  unfold MultiHeadAttentionBlock.init. intros H. minv H.
  apply check_heads_inv in E. destruct E as [Hh Hm].
  apply Linear_init_inv in E0, E1, E2, E3.
  destruct E0 as (_ & _ & [? ?]), E1 as (_ & _ & [? ?]), E2 as (_ & _ & [? ?]),
    E3 as (_ & _ & [? ?]).
  repeat split; try assumption; cbn.
  - apply Z.div_str_pos. split; [lia|].
    apply Z.mod_divide in Hm; [|exact Hh]. apply Z.divide_pos_le in Hm; lia.
  - f_equal. pose proof (Z.div_mod d h Hh). lia.
Qed.

Lemma MultiHeadAttentionBlock_xavier_inv a a' g g' (d : nat) :
  MultiHeadAttentionBlock.xavier a g = Ok (a', g') ->
  MultiHeadAttentionBlock.h a' = MultiHeadAttentionBlock.h a /\
  MultiHeadAttentionBlock.attention_scores a' = MultiHeadAttentionBlock.attention_scores a /\
  (wf_MultiHeadAttentionBlock a d -> wf_MultiHeadAttentionBlock a' d).
Proof.
  unfold MultiHeadAttentionBlock.xavier. intros H. minv H.
  apply xavier_uniform_inv in E, E0, E1, E2.
  split; [reflexivity|]. split; [reflexivity|].
  intros (Hh & Hk & Hd & [Sq Bq] & [Sk Bk] & [Sv Bv] & [So Bo]).
  repeat split; cbn; congruence.
Qed.

Lemma MultiHeadAttentionBlock_xavier_ok a g (d : nat) :
  wf_MultiHeadAttentionBlock a d -> 0 < d ->
  exists a' g', MultiHeadAttentionBlock.xavier a g = Ok (a', g').
Proof.
  intros (Hh & Hk & Hd & [Sq Bq] & [Sk Bk] & [Sv Bv] & [So Bo]) Hp.
  unfold MultiHeadAttentionBlock.xavier.
  destruct (xavier_uniform_ok _ g d d Sq Hp) as (p1 & g1 & E1 & _).
  rewrite (bind_ok _ _ _ _ _ E1).
  destruct (xavier_uniform_ok _ g1 d d Sk Hp) as (p2 & g2 & E2 & _).
  rewrite (bind_ok _ _ _ _ _ E2).
  destruct (xavier_uniform_ok _ g2 d d Sv Hp) as (p3 & g3 & E3 & _).
  rewrite (bind_ok _ _ _ _ _ E3).
  destruct (xavier_uniform_ok _ g3 d d So Hp) as (p4 & g4 & E4 & _).
  rewrite (bind_ok _ _ _ _ _ E4).
  eexists; eexists; reflexivity.
Qed.

Lemma FeedForwardBlock_init_ok (d dff : Z) (p : Q) (g : Generator) :
  (0 <= d)%Z -> (0 <= dff)%Z -> Qle_bool 0 p && Qle_bool p 1 = true ->
  exists f g', FeedForwardBlock.init d dff p g = Ok (f, g').
Proof.
  intros Hd Hf Hp. unfold FeedForwardBlock.init.
  destruct (Linear_init_ok d dff g Hd Hf) as (l1 & g1 & E1). rewrite (bind_ok _ _ _ _ _ E1).
  rewrite (bind_lift_ok _ _ _ _ (Dropout_init_ok p Hp)).
  destruct (Linear_init_ok dff d g1 Hf Hd) as (l2 & g2 & E2). rewrite (bind_ok _ _ _ _ _ E2).
  eexists; eexists; reflexivity.
Qed.

Lemma FeedForwardBlock_init_inv (d dff : Z) (p : Q) (g g' : Generator) f :
  FeedForwardBlock.init d dff p g = Ok (f, g') ->
  wf_FeedForwardBlock f (Z.to_nat d).
Proof.
  unfold FeedForwardBlock.init. intros H. minv H.
  apply Linear_init_inv in E, E1. destruct E as (_ & _ & W1), E1 as (_ & _ & W2).
  exists (Z.to_nat dff). split; assumption.
Qed.

Lemma FeedForwardBlock_xavier_inv f f' g g' (d : nat) :
  FeedForwardBlock.xavier f g = Ok (f', g') ->
  wf_FeedForwardBlock f d -> wf_FeedForwardBlock f' d.
Proof.
  unfold FeedForwardBlock.xavier. intros H (dff & [S1 B1] & [S2 B2]). minv H.
  apply xavier_uniform_inv in E, E0.
  exists dff. repeat split; cbn; congruence.
Qed.

Lemma FeedForwardBlock_xavier_ok f g (d : nat) :
  wf_FeedForwardBlock f d -> 0 < d ->
  exists f' g', FeedForwardBlock.xavier f g = Ok (f', g').
Proof.
  intros (dff & [S1 B1] & [S2 B2]) Hp. unfold FeedForwardBlock.xavier.
  destruct (xavier_uniform_ok _ g dff d S1 Hp) as (p1 & g1 & E1 & _).
  rewrite (bind_ok _ _ _ _ _ E1).
  unfold nn.xavier_uniform. rewrite S2.
  destruct (Nat.eqb_spec (d + dff) 0); [lia|].
  eexists; eexists; reflexivity.
Qed.

Lemma ResidualConnection_init_ok (p : Q) :
  Qle_bool 0 p && Qle_bool p 1 = true ->
  exists r, ResidualConnection.init p = Ok r /\ wf_ResidualConnection r.
Proof.
  intros Hp. unfold ResidualConnection.init. rewrite (Dropout_init_ok p Hp).
  eexists; split; [reflexivity|]. split; reflexivity.
Qed.

Lemma ResidualConnection_init_inv (p : Q) r :
  ResidualConnection.init p = Ok r -> wf_ResidualConnection r.
Proof.
  unfold ResidualConnection.init. intros H. apply rbind_ok in H.
  destruct H as (dr & _ & [= <-]). split; reflexivity.
Qed.

Lemma EncoderBlock_init_ok a f (p : Q) :
  Qle_bool 0 p && Qle_bool p 1 = true ->
  exists e, EncoderBlock.init a f p = Ok e.
Proof.
  intros Hp. unfold EncoderBlock.init.
  destruct (ResidualConnection_init_ok p Hp) as (r & E & _). rewrite E. cbn [rbind].
  eexists; reflexivity.
Qed.

Lemma EncoderBlock_init_inv a f (p : Q) e :
  EncoderBlock.init a f p = Ok e ->
  EncoderBlock.self_attention_block e = a /\ EncoderBlock.feed_forward_block e = f /\
  exists r0 r1, EncoderBlock.residual_connections e = [r0; r1]
                /\ wf_ResidualConnection r0 /\ wf_ResidualConnection r1.
Proof.
  unfold EncoderBlock.init. intros H.
  apply rbind_ok in H. destruct H as (r0 & E0 & H).
  apply rbind_ok in H. destruct H as (r1 & E1 & [= <-]).
  apply ResidualConnection_init_inv in E0, E1.
  split; [reflexivity|]. split; [reflexivity|].
  exists r0, r1. split; [reflexivity|]. split; assumption.
Qed.

Lemma DecoderBlock_init_ok a c f (p : Q) :
  Qle_bool 0 p && Qle_bool p 1 = true ->
  exists e, DecoderBlock.init a c f p = Ok e.
Proof.
  intros Hp. unfold DecoderBlock.init.
  destruct (ResidualConnection_init_ok p Hp) as (r & E & _). rewrite E. cbn [rbind].
  eexists; reflexivity.
Qed.

Lemma DecoderBlock_init_inv a c f (p : Q) e :
  DecoderBlock.init a c f p = Ok e ->
  DecoderBlock.self_attention_block e = a /\ DecoderBlock.cross_attention_block e = c /\
  DecoderBlock.feed_forward_block e = f /\
  exists r0 r1 r2, DecoderBlock.residual_connection e = [r0; r1; r2]
                   /\ wf_ResidualConnection r0 /\ wf_ResidualConnection r1
                   /\ wf_ResidualConnection r2.
Proof.
  unfold DecoderBlock.init. intros H.
  apply rbind_ok in H. destruct H as (r0 & E0 & H).
  apply rbind_ok in H. destruct H as (r1 & E1 & H).
  apply rbind_ok in H. destruct H as (r2 & E2 & [= <-]).
  apply ResidualConnection_init_inv in E0, E1, E2.
  split; [reflexivity|]. split; [reflexivity|]. split; [reflexivity|].
  exists r0, r1, r2. split; [reflexivity|]. repeat (split; [assumption|]). assumption.
Qed.

Lemma build_encoder_block_ok (d h : Z) (p : Q) (dff : Z) (g : Generator) :
  h <> 0%Z -> (d mod h = 0)%Z -> (0 <= d)%Z -> (0 <= dff)%Z ->
  Qle_bool 0 p && Qle_bool p 1 = true ->
  exists e g', build_encoder_block d h p dff g = Ok (e, g').
Proof.
  intros Hh Hm Hd Hf Hp. unfold build_encoder_block.
  destruct (MultiHeadAttentionBlock_init_ok d h p g Hh Hm Hd Hp) as (a & g1 & E1).
  rewrite (bind_ok _ _ _ _ _ E1).
  destruct (FeedForwardBlock_init_ok d dff p g1 Hd Hf Hp) as (f & g2 & E2).
  rewrite (bind_ok _ _ _ _ _ E2).
  destruct (EncoderBlock_init_ok a f p Hp) as (e & E3).
  unfold lift. rewrite E3. eexists; eexists; reflexivity.
Qed.

Lemma build_encoder_block_inv (d h : Z) (p : Q) (dff : Z) (g g' : Generator) e :
  build_encoder_block d h p dff g = Ok (e, g') ->
  h <> 0%Z /\ (d mod h = 0)%Z /\ ((0 < d)%Z -> fresh_EncoderBlock (Z.to_nat d) h e).
Proof.
  unfold build_encoder_block. intros H. minv H.
  apply MultiHeadAttentionBlock_init_inv in E. destruct E as (Hh & Hm & Eh & Es & W).
  apply FeedForwardBlock_init_inv in E0.
  apply EncoderBlock_init_inv in H. destruct H as (Ea & Ef & R).
  split; [exact Hh|]. split; [exact Hm|]. intros Hd.
  unfold fresh_EncoderBlock, wf_EncoderBlock. rewrite Ea, Ef.
  split; [exact Eh|]. split; [exact Es|]. intros Hp.
  split; [apply W; assumption|]. split; assumption.
Qed.

Lemma build_decoder_block_ok (d h : Z) (p : Q) (dff : Z) (g : Generator) :
  h <> 0%Z -> (d mod h = 0)%Z -> (0 <= d)%Z -> (0 <= dff)%Z ->
  Qle_bool 0 p && Qle_bool p 1 = true ->
  exists e g', build_decoder_block d h p dff g = Ok (e, g').
Proof.
  intros Hh Hm Hd Hf Hp. unfold build_decoder_block.
  destruct (MultiHeadAttentionBlock_init_ok d h p g Hh Hm Hd Hp) as (a & g1 & E1).
  rewrite (bind_ok _ _ _ _ _ E1).
  destruct (MultiHeadAttentionBlock_init_ok d h p g1 Hh Hm Hd Hp) as (c & g2 & E2).
  rewrite (bind_ok _ _ _ _ _ E2).
  destruct (FeedForwardBlock_init_ok d dff p g2 Hd Hf Hp) as (f & g3 & E3).
  rewrite (bind_ok _ _ _ _ _ E3).
  destruct (DecoderBlock_init_ok a c f p Hp) as (e & E4).
  unfold lift. rewrite E4. eexists; eexists; reflexivity.
Qed.

Lemma build_decoder_block_inv (d h : Z) (p : Q) (dff : Z) (g g' : Generator) e :
  build_decoder_block d h p dff g = Ok (e, g') ->
  (0 < d)%Z -> fresh_DecoderBlock (Z.to_nat d) h e.
Proof.
  unfold build_decoder_block. intros H Hd. minv H.
  apply MultiHeadAttentionBlock_init_inv in E, E0.
  destruct E as (Hh & Hm & Eh & Es & W), E0 as (_ & _ & Eh' & _ & W').
  apply FeedForwardBlock_init_inv in E1.
  apply DecoderBlock_init_inv in H. destruct H as (Ea & Ec & Ef & R).
  unfold fresh_DecoderBlock, wf_DecoderBlock. rewrite Ea, Ec, Ef.
  split; [exact Eh|]. split; [exact Eh'|]. intros Hp.
  split; [apply W; assumption|]. split; [apply W'; assumption|]. split; assumption.
Qed.

Lemma replicateM_ok {A} (n : nat) (c : M A) (g : Generator) :
  (forall g1, exists a g2, c g1 = Ok (a, g2)) ->
  exists l g', replicateM n c g = Ok (l, g').
Proof.
  intros Hc. revert g. induction n as [|n IH]; intros g; cbn [replicateM].
  - eexists; eexists; reflexivity.
  - destruct (Hc g) as (a & g1 & E1). rewrite (bind_ok _ _ _ _ _ E1).
    destruct (IH g1) as (l & g2 & E2). rewrite (bind_ok _ _ _ _ _ E2).
    eexists; eexists; reflexivity.
Qed.

Lemma replicateM_inv {A} (P : A -> Prop) (n : nat) (c : M A) (g g' : Generator) l :
  (forall g1 a g2, c g1 = Ok (a, g2) -> P a) ->
  replicateM n c g = Ok (l, g') -> length l = n /\ Forall P l.
Proof.
  intros Hc. revert g l. induction n as [|n IH]; intros g l H; cbn [replicateM] in H.
  - apply ret_inv in H. destruct H as [-> _]. split; [reflexivity|constructor].
  - minv H. destruct (IH _ _ E0) as [L F]. split; [cbn; lia|].
    constructor; [eapply Hc; eassumption|exact F].
Qed.

Lemma mapM_ok {A B} (P : A -> Prop) (f : A -> M B) (l : list A) (g : Generator) :
  (forall a g1, P a -> exists b g2, f a g1 = Ok (b, g2)) -> Forall P l ->
  exists l' g', mapM f l g = Ok (l', g').
Proof.
  intros Hf F. revert g. induction F as [|a l Pa F IH]; intros g; cbn [mapM].
  - eexists; eexists; reflexivity.
  - destruct (Hf a g Pa) as (b & g1 & E1). rewrite (bind_ok _ _ _ _ _ E1).
    destruct (IH g1) as (l' & g2 & E2). rewrite (bind_ok _ _ _ _ _ E2).
    eexists; eexists; reflexivity.
Qed.

Lemma mapM_inv {A B} (P : A -> Prop) (Q : B -> Prop) (f : A -> M B) (l : list A)
    (g g' : Generator) l' :
  (forall a g1 b g2, P a -> f a g1 = Ok (b, g2) -> Q b) -> Forall P l ->
  mapM f l g = Ok (l', g') -> Forall Q l'.
Proof.
  intros Hf F. revert g l'. induction F as [|a l Pa F IH]; intros g l' H; cbn [mapM] in H.
  - apply ret_inv in H. destruct H as [-> _]. constructor.
  - minv H. constructor; [eapply Hf; eassumption|eapply IH; eassumption].
Qed.

Lemma EncoderBlock_xavier_inv e e' g g' (d : nat) (h : Z) :
  fresh_EncoderBlock d h e -> EncoderBlock.xavier e g = Ok (e', g') ->
  fresh_EncoderBlock d h e'.
Proof.
  unfold EncoderBlock.xavier. intros (Eh & Es & W) H. minv H.
  apply (MultiHeadAttentionBlock_xavier_inv _ _ _ _ d) in E. destruct E as (Eh' & Es' & Wa).
  unfold fresh_EncoderBlock. cbn.
  split; [congruence|]. split; [congruence|]. intros Hp.
  destruct (W Hp) as (Wa0 & Wf & R).
  split; [now apply Wa|]. split; [|exact R].
  eapply FeedForwardBlock_xavier_inv; eassumption.
Qed.

Lemma EncoderBlock_xavier_ok e g (d : nat) :
  wf_EncoderBlock d e -> 0 < d -> exists e' g', EncoderBlock.xavier e g = Ok (e', g').
Proof.
  intros (Wa & Wf & _) Hd. unfold EncoderBlock.xavier.
  destruct (MultiHeadAttentionBlock_xavier_ok _ g d Wa Hd) as (a & g1 & E1).
  rewrite (bind_ok _ _ _ _ _ E1).
  destruct (FeedForwardBlock_xavier_ok _ g1 d Wf Hd) as (f & g2 & E2).
  rewrite (bind_ok _ _ _ _ _ E2). eexists; eexists; reflexivity.
Qed.

Lemma DecoderBlock_xavier_inv e e' g g' (d : nat) (h : Z) :
  fresh_DecoderBlock d h e -> DecoderBlock.xavier e g = Ok (e', g') ->
  fresh_DecoderBlock d h e'.
Proof.
  unfold DecoderBlock.xavier. intros (Eh & Ec & W) H. minv H.
  apply (MultiHeadAttentionBlock_xavier_inv _ _ _ _ d) in E, E0.
  destruct E as (Eh' & _ & Wa), E0 as (Ec' & _ & Wc).
  unfold fresh_DecoderBlock. cbn.
  split; [congruence|]. split; [congruence|]. intros Hp.
  destruct (W Hp) as (Wa0 & Wc0 & Wf & R).
  split; [now apply Wa|]. split; [now apply Wc|]. split; [|exact R].
  eapply FeedForwardBlock_xavier_inv; eassumption.
Qed.

Lemma DecoderBlock_xavier_ok e g (d : nat) :
  wf_DecoderBlock d e -> 0 < d -> exists e' g', DecoderBlock.xavier e g = Ok (e', g').
Proof.
  intros (Wa & Wc & Wf & _) Hd. unfold DecoderBlock.xavier.
  destruct (MultiHeadAttentionBlock_xavier_ok _ g d Wa Hd) as (a & g1 & E1).
  rewrite (bind_ok _ _ _ _ _ E1).
  destruct (MultiHeadAttentionBlock_xavier_ok _ g1 d Wc Hd) as (c & g2 & E2).
  rewrite (bind_ok _ _ _ _ _ E2).
  destruct (FeedForwardBlock_xavier_ok _ g2 d Wf Hd) as (f & g3 & E3).
  rewrite (bind_ok _ _ _ _ _ E3). eexists; eexists; reflexivity.
Qed.

Lemma mapM_length {A B} (f : A -> M B) (l : list A) (g g' : Generator) l' :
  mapM f l g = Ok (l', g') -> length l' = length l.
Proof.
  revert g l'. induction l as [|a l IH]; intros g l' H; cbn [mapM] in H.
  - apply ret_inv in H. destruct H as [-> _]. reflexivity.
  - minv H. cbn. f_equal. eapply IH; eassumption.
Qed.

Lemma ProjectionLayer_init_inv (d v : Z) (g g' : Generator) p :
  ProjectionLayer.init d v g = Ok (p, g') ->
  wf_Linear (ProjectionLayer.proj p) (Z.to_nat d) (Z.to_nat v).
Proof.
  unfold ProjectionLayer.init. intros H. minv H.
  apply Linear_init_inv in E. apply E.
Qed.

(** The model [build_transformer] returns. *)
Lemma build_transformer_inv (vs vt ls lt d N h : Z) (p : Q) (dff : Z)
    (g g' : Generator) (m : Transformer.t) :
  build_transformer vs vt ls lt d N h p dff g = Ok (m, g') ->
  (0 < d)%Z /\
  ((0 < N)%Z -> h <> 0%Z /\ (d mod h = 0)%Z) /\
  length (Encoder.layers (Transformer.encoder m)) = Z.to_nat N /\
  Forall (fresh_EncoderBlock (Z.to_nat d) h) (Encoder.layers (Transformer.encoder m)) /\
  ((0 < h)%Z ->
   wf_Transformer m (Z.to_nat d) h (Z.to_nat vs) (Z.to_nat vt) (Z.to_nat ls) (Z.to_nat lt)).
Proof.
  unfold build_transformer. intros H. minv H.
  rename a into se, a0 into te, a1 into sp, a2 into tp, a3 into ebs, a4 into dbs,
    a5 into pl.
  apply InputEmbedding_init_inv in E, E0.
  destruct E as (Hd & Hvs & Wse), E0 as (_ & Hvt & Wte).
  assert (Hd0 : (0 < d)%Z).
  { destruct (Z.eq_dec d 0) as [->|]; [|lia].
    unfold PositionalEncoding.init in E1.
    repeat (apply rbind_ok in E1; destruct E1 as (? & ? & E1)). discriminate. }
  apply PositionalEncoding_table in E1, E2. destruct E1 as [Ssp _], E2 as [Stp _].
  assert (Hdiv : (0 < N)%Z -> h <> 0%Z /\ (d mod h = 0)%Z).
  { intros HN. destruct (Z.to_nat N) as [|n] eqn:En; [lia|].
    cbn [replicateM] in E3. minv E3.
    apply build_encoder_block_inv in E. tauto. }
  pose proof (replicateM_inv (fresh_EncoderBlock (Z.to_nat d) h) _ _ _ _ _
                (fun g1 a g2 Hc => proj2 (proj2 (build_encoder_block_inv _ _ _ _ _ _ _ Hc)) Hd0)
                E3) as [Le Fe].
  pose proof (replicateM_inv (fresh_DecoderBlock (Z.to_nat d) h) _ _ _ _ _
                (fun g1 a g2 Hc => build_decoder_block_inv _ _ _ _ _ _ _ Hc Hd0)
                E4) as [Ld Fd].
  apply ProjectionLayer_init_inv in E5.
  cbn [Transformer.encoder Transformer.decoder Transformer.src_embed
       Transformer.tgt_embed Transformer.projection_layer] in E6, E7, E8, E9, E10.
  unfold Encoder.xavier in E6. unfold Decoder.xavier in E7.
  cbn [Encoder.layers Encoder.init Encoder.norm Decoder.layers Decoder.init Decoder.norm]
    in E6, E7.
  minv E6. minv E7. rename a into ebs', a0 into dbs'.
  pose proof (mapM_length _ _ _ _ _ E) as Le'.
  pose proof (mapM_inv _ (fresh_EncoderBlock (Z.to_nat d) h) _ _ _ _ _
                (fun a g1 b g2 Pa Hx => EncoderBlock_xavier_inv a b g1 g2 _ _ Pa Hx)
                Fe E) as Fe'.
  pose proof (mapM_inv _ (fresh_DecoderBlock (Z.to_nat d) h) _ _ _ _ _
                (fun a g1 b g2 Pa Hx => DecoderBlock_xavier_inv a b g1 g2 _ _ Pa Hx)
                Fd E0) as Fd'.
  apply (fun H => InputEmbedding_xavier_inv _ _ _ _ _ _ H Wse) in E8.
  apply (fun H => InputEmbedding_xavier_inv _ _ _ _ _ _ H Wte) in E9.
  unfold ProjectionLayer.xavier in E10. minv E10. apply xavier_uniform_inv in E1.
  cbn.
  split; [exact Hd0|]. split; [exact Hdiv|]. split; [congruence|]. split; [exact Fe'|].
  intros Hh. constructor; cbn.
  - split; [|split; reflexivity].
    eapply Forall_impl; [|exact Fe']. intros e (_ & _ & W). now apply W.
  - split; [|split; reflexivity].
    eapply Forall_impl; [|exact Fd']. intros e (_ & _ & W). now apply W.
  - eapply Forall_impl; [|exact Fe']. intros e (He & _). exact He.
  - eapply Forall_impl; [|exact Fd']. intros e (He & Hc & _). split; assumption.
  - exact E8.
  - exact E9.
  - exact Ssp.
  - exact Stp.
  - destruct E5 as [Sw Sb]. split; cbn; congruence.
Qed.

Lemma replicateM_zero {A} (c : M A) (g : Generator) : replicateM 0 c g = Ok ([], g).
Proof. reflexivity. Qed.

(** Hyper-parameters for which [build_transformer] succeeds. *)
Lemma build_transformer_ok (vs vt ls lt d N h : Z) (p : Q) (dff : Z) (g : Generator) :
  (0 <= vs)%Z -> (0 <= vt)%Z -> (0 <= ls)%Z -> (0 <= lt)%Z -> (0 <= dff)%Z ->
  (0 < d)%Z -> Z.even d = true ->
  Qle_bool 0 p && Qle_bool p 1 = true ->
  ((0 < h)%Z /\ (d mod h = 0)%Z) \/ (N <= 0)%Z ->
  exists m g', build_transformer vs vt ls lt d N h p dff g = Ok (m, g').
Proof.
  intros Hvs Hvt Hls Hlt Hff Hd Hev Hp Hh. unfold build_transformer.
  destruct (InputEmbedding_init_ok d vs g ltac:(lia) Hvs) as (se & g1 & E1).
  rewrite (bind_ok _ _ _ _ _ E1).
  destruct (InputEmbedding_init_ok d vt g1 ltac:(lia) Hvt) as (te & g2 & E2).
  rewrite (bind_ok _ _ _ _ _ E2).
  apply InputEmbedding_init_inv in E1, E2.
  destruct E1 as (_ & _ & Wse), E2 as (_ & _ & Wte).
  destruct (PositionalEncoding_init_ok d ls p Hp Hls Hd (or_introl Hev)) as (sp & Esp & _).
  rewrite (bind_lift_ok _ _ _ _ Esp).
  destruct (PositionalEncoding_init_ok d lt p Hp Hlt Hd (or_introl Hev)) as (tp & Etp & _).
  rewrite (bind_lift_ok _ _ _ _ Etp).
  assert (He : exists ebs g3, replicateM (Z.to_nat N) (build_encoder_block d h p dff) g2
                              = Ok (ebs, g3)
                              /\ Forall (wf_EncoderBlock (Z.to_nat d)) ebs).
  { destruct Hh as [[Hh Hm]|HN].
    - destruct (replicateM_ok (Z.to_nat N) (build_encoder_block d h p dff) g2)
        as (ebs & g3 & E).
      { intros g0. apply build_encoder_block_ok; try assumption; lia. }
      exists ebs, g3. split; [exact E|].
      pose proof (replicateM_inv (fresh_EncoderBlock (Z.to_nat d) h) _ _ _ _ _
                    (fun g1 a g2 Hc =>
                       proj2 (proj2 (build_encoder_block_inv _ _ _ _ _ _ _ Hc)) Hd) E)
        as [_ F].
      eapply Forall_impl; [|exact F]. intros e (_ & _ & W). now apply W.
    - replace (Z.to_nat N) with 0 by lia. exists [], g2. split; [reflexivity|constructor]. }
  destruct He as (ebs & g3 & Ee & Fe). rewrite (bind_ok _ _ _ _ _ Ee).
  assert (Hdb : exists dbs g4, replicateM (Z.to_nat N) (build_decoder_block d h p dff) g3
                               = Ok (dbs, g4)
                               /\ Forall (wf_DecoderBlock (Z.to_nat d)) dbs).
  { destruct Hh as [[Hh Hm]|HN].
    - destruct (replicateM_ok (Z.to_nat N) (build_decoder_block d h p dff) g3)
        as (dbs & g4 & E).
      { intros g0. apply build_decoder_block_ok; try assumption; lia. }
      exists dbs, g4. split; [exact E|].
      pose proof (replicateM_inv (fresh_DecoderBlock (Z.to_nat d) h) _ _ _ _ _
                    (fun g1 a g2 Hc => build_decoder_block_inv _ _ _ _ _ _ _ Hc Hd) E)
        as [_ F].
      eapply Forall_impl; [|exact F]. intros e (_ & _ & W). now apply W.
    - replace (Z.to_nat N) with 0 by lia. exists [], g3. split; [reflexivity|constructor]. }
  destruct Hdb as (dbs & g4 & Ed & Fd). rewrite (bind_ok _ _ _ _ _ Ed).
  cbv zeta.
  unfold ProjectionLayer.init.
  destruct (Linear_init_ok d vt g4 ltac:(lia) Hvt) as (pl & g5 & Epl).
  rewrite (bind_ok _ _ _ _ _ (bind_ok _ _ _ _ _ Epl)).
  apply Linear_init_inv in Epl. destruct Epl as (_ & _ & [Spl Bpl]).
  unfold Transformer.xavier.
  cbn [Transformer.encoder Transformer.decoder Transformer.src_embed
       Transformer.tgt_embed Transformer.projection_layer Transformer.src_pos
       Transformer.tgt_pos].
  assert (Hdn : 0 < Z.to_nat d) by lia.
  destruct (mapM_ok (wf_EncoderBlock (Z.to_nat d)) EncoderBlock.xavier ebs g5
              (fun a g0 Wa => EncoderBlock_xavier_ok a g0 _ Wa Hdn) Fe)
    as (ebs' & g6 & Ee').
  unfold Encoder.xavier. cbn [Encoder.layers Encoder.init Encoder.norm].
  rewrite (bind_ok _ _ _ _ _ (bind_ok _ _ _ _ _ Ee')).
  destruct (mapM_ok (wf_DecoderBlock (Z.to_nat d)) DecoderBlock.xavier dbs g6
              (fun a g0 Wa => DecoderBlock_xavier_ok a g0 _ Wa Hdn) Fd)
    as (dbs' & g7 & Ed').
  unfold Decoder.xavier. cbn [Decoder.layers Decoder.init Decoder.norm].
  rewrite (bind_ok _ _ _ _ _ (bind_ok _ _ _ _ _ Ed')).
  destruct (InputEmbedding_xavier_ok se g7 _ _ Wse Hdn) as (se' & g8 & Ese).
  rewrite (bind_ok _ _ _ _ _ Ese).
  destruct (InputEmbedding_xavier_ok te g8 _ _ Wte Hdn) as (te' & g9 & Ete).
  rewrite (bind_ok _ _ _ _ _ Ete).
  unfold ProjectionLayer.xavier. cbn [ProjectionLayer.proj nn.Linear.weight nn.Linear.bias].
  destruct (xavier_uniform_ok (nn.Linear.weight pl) g9 _ _ Spl Hdn) as (w & g10 & Ew & _).
  rewrite (bind_ok _ _ _ _ _ (bind_ok _ _ _ _ _ Ew)).
  eexists; eexists; reflexivity.
Qed.

End Construction.

(** ** What a forward call writes, and what it depends on *)

Section ForwardFrame.
Import Torch.

Lemma MultiHeadAttentionBlock_forward_inv tr self q k v mask g r g' :
  MultiHeadAttentionBlock.forward tr self q k v mask g = Ok (r, g') ->
  exists sc, snd r = MultiHeadAttentionBlock.set_attention_scores self (Some sc).
Proof.
  unfold MultiHeadAttentionBlock.forward. intros H. minv H.
  eexists. reflexivity.
Qed.

Lemma MultiHeadAttentionBlock_forward_forget tr self q k v mask g :
  MultiHeadAttentionBlock.forward tr (MultiHeadAttentionBlock.forget self) q k v mask g
  = MultiHeadAttentionBlock.forward tr self q k v mask g.
Proof. reflexivity. Qed.

Lemma ResidualConnection_forward_ext {St} tr self x
    (f f' : Tensor -> M (Tensor * St)) g :
  (forall n g1, f n g1 = f' n g1) ->
  ResidualConnection.forward tr self x f g = ResidualConnection.forward tr self x f' g.
Proof.
  intros H. unfold ResidualConnection.forward, bind.
  destruct (lift _ g) as [[n g1]|e]; [|reflexivity].
  now rewrite H.
Qed.

Lemma ResidualConnection_forward_inv {St} tr self x (f : Tensor -> M (Tensor * St)) g r g' :
  ResidualConnection.forward tr self x f g = Ok (r, g') ->
  exists n g1 y g2, f n g1 = Ok (y, g2) /\ snd r = snd y.
Proof.
  unfold ResidualConnection.forward. intros H. minv H.
  eexists; eexists; eexists; eexists; split; [eassumption|reflexivity].
Qed.

Lemma EncoderBlock_forward_forget tr self x mask g :
  EncoderBlock.forward tr (EncoderBlock.forget self) x mask g
  = EncoderBlock.forward tr self x mask g.
Proof. reflexivity. Qed.

Lemma EncoderBlock_forward_inv tr self x mask g r g' :
  EncoderBlock.forward tr self x mask g = Ok (r, g') ->
  EncoderBlock.forget (snd r) = EncoderBlock.forget self /\
  MultiHeadAttentionBlock.attention_scores (EncoderBlock.self_attention_block (snd r))
  <> None.
Proof.
  unfold EncoderBlock.forward. intros H. minv H.
  apply ResidualConnection_forward_inv in E0.
  destruct E0 as (n & gn & y & gy & Ey & Es).
  apply MultiHeadAttentionBlock_forward_inv in Ey. destruct Ey as (sc & Ey).
  cbn [snd]. rewrite Es, Ey. split; [reflexivity|discriminate].
Qed.

Lemma Encoder_forward_layers_forget tr layers x mask g :
  Encoder.forward_layers tr (map EncoderBlock.forget layers) x mask g
  = Encoder.forward_layers tr layers x mask g.
Proof.
  revert x g. induction layers as [|e layers IH]; intros x g; [reflexivity|].
  cbn [map Encoder.forward_layers]. unfold bind.
  rewrite EncoderBlock_forward_forget.
  destruct (EncoderBlock.forward tr e x mask g) as [[xl g1]|err]; [|reflexivity].
  now rewrite IH.
Qed.

Lemma Encoder_forward_layers_inv tr layers x mask g r g' :
  Encoder.forward_layers tr layers x mask g = Ok (r, g') ->
  map EncoderBlock.forget (snd r) = map EncoderBlock.forget layers /\
  Forall (fun e => MultiHeadAttentionBlock.attention_scores
                     (EncoderBlock.self_attention_block e) <> None) (snd r).
Proof.
  revert x g r. induction layers as [|e layers IH]; intros x g r H;
    cbn [Encoder.forward_layers] in H.
  - apply ret_inv in H. destruct H as [-> _]. split; [reflexivity|constructor].
  - minv H. apply EncoderBlock_forward_inv in E. destruct E as [Ef Es].
    apply IH in E0. destruct E0 as [Em Fs].
    cbn [snd map]. split; [congruence|]. constructor; assumption.
Qed.

Lemma Encoder_forward_forget tr self x mask g :
  Encoder.forward tr (Encoder.forget self) x mask g = Encoder.forward tr self x mask g.
Proof.
  unfold Encoder.forward, Encoder.forget, bind. cbn [Encoder.layers Encoder.norm].
  now rewrite Encoder_forward_layers_forget.
Qed.

Lemma Encoder_forward_inv tr self x mask g r g' :
  Encoder.forward tr self x mask g = Ok (r, g') ->
  Encoder.forget (snd r) = Encoder.forget self /\
  Forall (fun e => MultiHeadAttentionBlock.attention_scores
                     (EncoderBlock.self_attention_block e) <> None)
         (Encoder.layers (snd r)).
Proof.
  unfold Encoder.forward. intros H. minv H.
  apply Encoder_forward_layers_inv in E. destruct E as [Em Fs].
  cbn [snd]. unfold Encoder.forget. cbn [Encoder.layers Encoder.norm].
  split; [now rewrite Em|exact Fs].
Qed.

Lemma DecoderBlock_forward_inv tr self x enc src_mask tgt_mask g r g' :
  DecoderBlock.forward tr self x enc src_mask tgt_mask g = Ok (r, g') ->
  DecoderBlock.forget (snd r) = DecoderBlock.forget self.
Proof.
  unfold DecoderBlock.forward. intros H. minv H.
  apply ResidualConnection_forward_inv in E0, E2.
  destruct E0 as (n & gn & y & gy & Ey & Es), E2 as (n' & gn' & y' & gy' & Ey' & Es').
  apply MultiHeadAttentionBlock_forward_inv in Ey, Ey'.
  destruct Ey as (sc & Ey), Ey' as (sc' & Ey').
  cbn [snd]. rewrite Es, Ey, Es', Ey'. reflexivity.
Qed.

Lemma Decoder_forward_layers_inv tr layers x enc src_mask tgt_mask g r g' :
  Decoder.forward_layers tr layers x enc src_mask tgt_mask g = Ok (r, g') ->
  map DecoderBlock.forget (snd r) = map DecoderBlock.forget layers.
Proof.
  revert x g r. induction layers as [|e layers IH]; intros x g r H;
    cbn [Decoder.forward_layers] in H.
  - apply ret_inv in H. destruct H as [-> _]. reflexivity.
  - minv H. apply DecoderBlock_forward_inv in E. apply IH in E0.
    cbn [snd map]. congruence.
Qed.

Lemma Decoder_forward_inv tr self x enc src_mask tgt_mask g r g' :
  Decoder.forward tr self x enc src_mask tgt_mask g = Ok (r, g') ->
  Decoder.forget (snd r) = Decoder.forget self.
Proof.
  unfold Decoder.forward. intros H. minv H.
  apply Decoder_forward_layers_inv in E.
  cbn [snd]. unfold Decoder.forget. cbn [Decoder.layers Decoder.norm].
  now rewrite E.
Qed.

Lemma Transformer_encode_inv tr m src mask g r g' :
  Transformer.encode tr m src mask g = Ok (r, g') ->
  exists enc',
    snd r = Transformer.mk enc' (Transformer.decoder m) (Transformer.src_embed m)
              (Transformer.tgt_embed m) (Transformer.src_pos m) (Transformer.tgt_pos m)
              (Transformer.projection_layer m) /\
    Encoder.forget enc' = Encoder.forget (Transformer.encoder m) /\
    Forall (fun e => MultiHeadAttentionBlock.attention_scores
                       (EncoderBlock.self_attention_block e) <> None)
           (Encoder.layers enc').
Proof.
  unfold Transformer.encode. intros H. minv H.
  apply Encoder_forward_inv in E1. destruct E1 as [Ef Fs].
  exists (snd a1). cbn [snd]. repeat split; assumption.
Qed.

Lemma Transformer_decode_inv tr m enc src_mask tgt tgt_mask g r g' :
  Transformer.decode tr m enc src_mask tgt tgt_mask g = Ok (r, g') ->
  exists dec',
    snd r = Transformer.mk (Transformer.encoder m) dec' (Transformer.src_embed m)
              (Transformer.tgt_embed m) (Transformer.src_pos m) (Transformer.tgt_pos m)
              (Transformer.projection_layer m) /\
    Decoder.forget dec' = Decoder.forget (Transformer.decoder m).
Proof.
  unfold Transformer.decode. intros H. minv H.
  apply Decoder_forward_inv in E1.
  exists (snd a1). cbn [snd]. split; [reflexivity|assumption].
Qed.

(** *** Computations that draw nothing *)

Lemma draws_nothing_ret {A} (a : A) : draws_nothing (ret a).
Proof. intros g. reflexivity. Qed.

Lemma draws_nothing_lift {A} (r : result A) : draws_nothing (lift r).
Proof. intros g. unfold lift. destruct r; reflexivity. Qed.

Lemma draws_nothing_bind {A B} (c : M A) (k : A -> M B) :
  draws_nothing c -> (forall a, draws_nothing (k a)) -> draws_nothing (bind c k).
Proof.
  intros Hc Hk g. unfold bind. rewrite (Hc g).
  destruct (c zero_generator) as [[a g1]|e]; [|reflexivity].
  rewrite (Hk a g), (Hk a g1).
  destruct (k a zero_generator) as [[b g2]|e]; reflexivity.
Qed.

Lemma draws_nothing_dropout (self : nn.Dropout.t) (x : Tensor) :
  draws_nothing (nn.Dropout.forward false self x).
Proof.
  intros g. unfold nn.Dropout.forward. now rewrite !dropout_eval.
Qed.

Lemma draws_nothing_attention query key value mask dr :
  draws_nothing (MultiHeadAttentionBlock.attention false query key value mask dr).
Proof.
  unfold MultiHeadAttentionBlock.attention.
  repeat first [ apply draws_nothing_bind; [|intros ?]
               | apply draws_nothing_lift
               | apply draws_nothing_ret
               | apply draws_nothing_dropout ].
  destruct dr.
  - repeat first [ apply draws_nothing_bind; [|intros ?]
                 | apply draws_nothing_lift
                 | apply draws_nothing_ret
                 | apply draws_nothing_dropout ].
  - apply draws_nothing_ret.
Qed.

End ForwardFrame.

Ltac draws :=
  repeat first [ apply draws_nothing_lift
               | apply draws_nothing_ret
               | apply draws_nothing_dropout
               | apply draws_nothing_attention
               | apply draws_nothing_bind; [|intros ?] ].


Section EvaluationMode.
Import Torch.

Lemma draws_nothing_MultiHeadAttentionBlock self q k v mask :
  draws_nothing (MultiHeadAttentionBlock.forward false self q k v mask).
Proof. unfold MultiHeadAttentionBlock.forward. draws. Qed.

Lemma draws_nothing_FeedForwardBlock self x :
  draws_nothing (FeedForwardBlock.forward false self x).
Proof. unfold FeedForwardBlock.forward. draws. Qed.

Lemma draws_nothing_ResidualConnection {St} self x (f : Tensor -> M (Tensor * St)) :
  (forall n, draws_nothing (f n)) ->
  draws_nothing (ResidualConnection.forward false self x f).
Proof.
  intros Hf. unfold ResidualConnection.forward.
  apply draws_nothing_bind; [apply draws_nothing_lift|intros n].
  apply draws_nothing_bind; [apply Hf|intros ys]. draws.
Qed.

Lemma draws_nothing_EncoderBlock self x mask :
  draws_nothing (EncoderBlock.forward false self x mask).
Proof.
  unfold EncoderBlock.forward.
  apply draws_nothing_bind; [apply draws_nothing_lift|intros r0].
  apply draws_nothing_bind; [|intros xa].
  { apply draws_nothing_ResidualConnection. intros n.
    apply draws_nothing_MultiHeadAttentionBlock. }
  apply draws_nothing_bind; [apply draws_nothing_lift|intros r1].
  apply draws_nothing_bind; [|intros xf; apply draws_nothing_ret].
  apply draws_nothing_ResidualConnection. intros n.
  apply draws_nothing_bind; [apply draws_nothing_FeedForwardBlock|intros y].
  apply draws_nothing_ret.
Qed.

Lemma draws_nothing_Encoder_layers layers x mask :
  draws_nothing (Encoder.forward_layers false layers x mask).
Proof.
  revert x. induction layers as [|e layers IH]; intros x; cbn [Encoder.forward_layers].
  - apply draws_nothing_ret.
  - apply draws_nothing_bind; [apply draws_nothing_EncoderBlock|intros xl].
    apply draws_nothing_bind; [apply IH|intros xr]. apply draws_nothing_ret.
Qed.

Lemma draws_nothing_Encoder self x mask :
  draws_nothing (Encoder.forward false self x mask).
Proof.
  unfold Encoder.forward.
  apply draws_nothing_bind; [apply draws_nothing_Encoder_layers|intros xl]. draws.
Qed.

Lemma draws_nothing_PositionalEncoding self x :
  draws_nothing (PositionalEncoding.forward false self x).
Proof. unfold PositionalEncoding.forward. draws. Qed.

Lemma draws_nothing_encode m src mask :
  draws_nothing (Transformer.encode false m src mask).
Proof.
  unfold Transformer.encode.
  apply draws_nothing_bind; [apply draws_nothing_lift|intros e].
  apply draws_nothing_bind; [apply draws_nothing_PositionalEncoding|intros y].
  apply draws_nothing_bind; [apply draws_nothing_Encoder|intros ye].
  apply draws_nothing_ret.
Qed.

Lemma draws_nothing_run {A} (c : M A) (g g' g2 : Generator) (a : A) :
  draws_nothing c -> c g = Ok (a, g') -> c g2 = Ok (a, g2).
Proof.
  intros H E. rewrite (H g) in E. rewrite (H g2).
  destruct (c zero_generator) as [[b gb]|e]; [|discriminate].
  injection E as -> _. reflexivity.
Qed.

(** A second run of [encode], on the model as the first run left it. *)
Lemma encode_again m src mask g1 g1' g2 out m1 :
  Transformer.encode false m src mask g1 = Ok ((out, m1), g1') ->
  Transformer.encode false m1 src mask g2 = Ok ((out, m1), g2).
Proof.
  intros H.
  pose proof (draws_nothing_run _ g1 g1' g2 _ (draws_nothing_encode m src mask) H) as H2.
  destruct (Transformer_encode_inv _ _ _ _ _ _ _ H) as (enc' & Em & Ef & _).
  cbn [snd] in Em. subst m1.
  unfold Transformer.encode in *.
  cbn [Transformer.src_embed Transformer.src_pos Transformer.encoder Transformer.decoder
       Transformer.tgt_embed Transformer.tgt_pos Transformer.projection_layer].
  unfold bind in *.
  destruct (lift (InputEmbedding.forward (Transformer.src_embed m) src) g2)
    as [[e ge]|err]; [|discriminate].
  destruct (PositionalEncoding.forward false (Transformer.src_pos m) e ge)
    as [[y gy]|err]; [|discriminate].
  rewrite <- Encoder_forward_forget, Ef, Encoder_forward_forget.
  destruct (Encoder.forward false (Transformer.encoder m) y mask gy)
    as [[ye gz]|err]; [|discriminate].
  unfold ret in *. injection H2 as Ho Henc Hg. subst. reflexivity.
Qed.

End EvaluationMode.

(** ** Projection and residual connection *)

Section ProjectionResidual.
Import Torch.

Lemma sum_n_pos n f : 0 < n -> (forall k, (0 < f k)%R) -> (0 < sum_n n f)%R.
Proof.
  intros Hn Hf. destruct n as [|n]; [lia|]. clear Hn.
  induction n as [|n IH]; cbn [sum_n] in *.
  - specialize (Hf 0). lra.
  - specialize (Hf (S n)). lra.
Qed.

Lemma sel_sel (s : Shape) (i : Index) (k k' : nat) :
  sel s (sel s i k) k' = sel s i k'.
Proof.
  destruct s as [|d s]; [reflexivity|]. unfold sel. now rewrite removelast_last.
Qed.

Lemma log_softmax_row (z : Tensor) (i : Index) :
  0 < last_dim (shape z) ->
  sum_n (last_dim (shape z))
        (fun k => exp (item (log_softmax z) (sel (shape z) i k))) = 1%R.
Proof.
  intros Hn. cbn [log_softmax item].
  set (S := row_sum z exp i).
  assert (HS : (0 < S)%R).
  { unfold S, row_sum. apply sum_n_pos; [exact Hn|]. intros k. apply exp_pos. }
  rewrite (sum_n_ext _ _ (fun k => exp (item z (sel (shape z) i k)) * / S)%R).
  - rewrite sum_n_scal. fold (row_sum z exp i). fold S.
    apply Rinv_r. lra.
  - intros k Hk.
    assert (ES : row_sum z exp (sel (shape z) i k) = S).
    { unfold S, row_sum. apply sum_n_ext. intros k' _. now rewrite sel_sel. }
    rewrite ES. unfold Rminus. rewrite exp_plus, exp_Ropp, exp_ln by exact HS.
    reflexivity.
Qed.

Lemma ProjectionLayer_forward_inv self x y :
  ProjectionLayer.forward self x = Ok y ->
  exists z, nn.Linear.forward (ProjectionLayer.proj self) x = Ok z /\ y = log_softmax z.
Proof.
  unfold ProjectionLayer.forward. intros H. apply rbind_ok in H.
  destruct H as (z & Ez & [= <-]). now exists z.
Qed.

Lemma ResidualConnection_forward_value {St} tr self x
    (sublayer : Tensor -> M (Tensor * St)) g n ys g1 d g2 :
  LayerNormalization.forward (ResidualConnection.norm self) x = Ok n ->
  sublayer n g = Ok (ys, g1) ->
  nn.Dropout.forward tr (ResidualConnection.dropout self) (fst ys) g1 = Ok (d, g2) ->
  ResidualConnection.forward tr self x sublayer g
  = rmap (fun r => ((r, snd ys), g2)) (add x d)
  /\ (tr = false -> d = fst ys)
  /\ (shape d = shape x ->
      exists r, ResidualConnection.forward tr self x sublayer g = Ok ((r, snd ys), g2)
        /\ shape r = shape x
        /\ forall i, in_range (shape x) i -> item r i = (item x i + item d i)%R).
Proof.
  intros En Es Ed.
  assert (E1 : ResidualConnection.forward tr self x sublayer g
               = rmap (fun r => ((r, snd ys), g2)) (add x d)).
  { unfold ResidualConnection.forward.
    rewrite (bind_lift_ok _ _ _ _ En), (bind_ok _ _ _ _ _ Es), (bind_ok _ _ _ _ _ Ed).
    unfold bind, lift, ret, rmap, rbind. destruct (add x d); reflexivity. }
  split; [exact E1|]. split.
  - intros ->. unfold nn.Dropout.forward in Ed. rewrite dropout_eval in Ed.
    now injection Ed as <- _.
  - intros Sd. destruct (binop_same_shape Rplus x d (eq_sym Sd)) as (r & Er & Sr).
    exists r. rewrite E1. unfold add. rewrite Er. split; [reflexivity|].
    split; [exact Sr|]. intros i Hi.
    apply binop_inv in Er. destruct Er as [_ Ir]. rewrite Ir, Sd, !bidx_id by exact Hi.
    reflexivity.
Qed.

End ProjectionResidual.

(** The model used in the examples: vocabularies of ten entries, four
    positions, feature dimension 8, one layer, two heads. *)
Lemma example_model :
  exists (m : Transformer.t) (g : Generator),
    build_transformer 10 10 4 4 8 1 2 (1 # 10) 16 zero_generator = Ok (m, g) /\
    wf_Transformer m 8 2 10 10 4 4.
Proof.
  assert (Hh : ((0 < 2)%Z /\ (8 mod 2 = 0)%Z) \/ (1 <= 0)%Z)
    by (left; split; [lia|reflexivity]).
  destruct (build_transformer_ok 10 10 4 4 8 1 2 (1 # 10) 16 zero_generator
              ltac:(lia) ltac:(lia) ltac:(lia) ltac:(lia) ltac:(lia) ltac:(lia)
              eq_refl eq_refl Hh)
    as (m & g & E).
  exists m, g. split; [exact E|].
  destruct (build_transformer_inv _ _ _ _ _ _ _ _ _ _ _ _ E) as (_ & _ & _ & _ & W).
  exact (W ltac:(lia)).
Qed.

(** C5: at every position the exponentials of the output of [project]
    over the vocabulary dimension sum to 1.  Whenever [project] returns,
    this holds of every row of its output with a non-empty last dimension
    (the row through an index [i] is [sel (shape y) i k] for [k] below the
    size of the last dimension); and on a model returned by
    [build_transformer] with a non-empty target vocabulary, [project]
    returns on every input of shape (batch, s, d_model), with an output of
    shape (batch, s, tgt_vocab_size) whose row at every batch index and
    sequence position sums to 1 after exponentiation. *)
Theorem project_log_probabilities :
  (forall (m : Transformer.t) (x y : Torch.Tensor),
      Transformer.project m x = Ok y ->
      0 < Torch.last_dim (Torch.shape y) ->
      forall i : Torch.Index,
        Torch.sum_n (Torch.last_dim (Torch.shape y))
          (fun k => exp (Torch.item y (Torch.sel (Torch.shape y) i k))) = 1%R) /\
  (forall (src_vocab_size tgt_vocab_size src_seq_len tgt_seq_len d_model N h : Z)
          (dropout : Q) (d_ff : Z) (g g' : Generator) (m : Transformer.t),
      build_transformer src_vocab_size tgt_vocab_size src_seq_len tgt_seq_len
        d_model N h dropout d_ff g = Ok (m, g') ->
      (0 < h)%Z -> (0 < tgt_vocab_size)%Z ->
      forall (x : Torch.Tensor) (b s : nat),
        Torch.shape x = [b; s; Z.to_nat d_model] ->
        exists y,
          Transformer.project m x = Ok y /\
          Torch.shape y = [b; s; Z.to_nat tgt_vocab_size] /\
          forall i j, i < b -> j < s ->
            Torch.sum_n (Z.to_nat tgt_vocab_size)
              (fun k => exp (Torch.item y [i; j; k])) = 1%R).
Proof.
  assert (P : forall (m : Transformer.t) (x y : Torch.Tensor),
             Transformer.project m x = Ok y ->
             0 < Torch.last_dim (Torch.shape y) ->
             forall i : Torch.Index,
               Torch.sum_n (Torch.last_dim (Torch.shape y))
                 (fun k => exp (Torch.item y (Torch.sel (Torch.shape y) i k))) = 1%R).
  { intros m x y H Hn i. unfold Transformer.project in H.
    apply ProjectionLayer_forward_inv in H. destruct H as (z & _ & ->).
    exact (log_softmax_row z i Hn). }
  split; [exact P|].
  intros vs vt ls lt d N h p dff g g' m E Hh Hv x b s Sx.
  destruct (build_transformer_inv _ _ _ _ _ _ _ _ _ _ _ _ E) as (_ & _ & _ & _ & W).
  destruct (Transformer_project_ok m x _ _ _ _ _ _ b s (W Hh) Sx) as (y & Ey & Sy).
  exists y. split; [exact Ey|]. split; [exact Sy|]. intros i j _ _.
  pose proof (P m x y Ey) as Q. rewrite Sy in Q.
  exact (Q ltac:(cbn; lia) [i; j; 0]).
Qed.

(** A model with a vocabulary of ten entries, on a batch of one sequence
    of four positions: the ten probabilities at position 0 sum to 1. *)
Lemma project_log_probabilities_witness :
  exists (m : Transformer.t) (g : Generator) (y : Torch.Tensor),
    build_transformer 10 10 4 4 8 1 2 (1 # 10) 16 zero_generator = Ok (m, g) /\
    Transformer.project m (Torch.zeros [1; 4; 8]) = Ok y /\
    Torch.shape y = [1; 4; 10] /\
    Torch.sum_n 10 (fun k => exp (Torch.item y [0; 0; k])) = 1%R.
Proof.
  destruct example_model as (m & g & E & _).
  destruct project_log_probabilities as [_ H].
  destruct (H 10%Z 10%Z 4%Z 4%Z 8%Z 1%Z 2%Z (1 # 10)%Q 16%Z zero_generator g m E
              ltac:(lia) ltac:(lia) (Torch.zeros [1; 4; 8]) 1 4 eq_refl)
    as (y & Ey & Sy & Hy).
  exists m, g, y. split; [exact E|]. split; [exact Ey|]. split; [exact Sy|].
  exact (Hy 0 0 ltac:(lia) ltac:(lia)).
Defined.

(** C6: [ResidualConnection.forward] is x + dropout(sublayer(norm(x))).
    With [n] the normalised input, [ys] what the sublayer returns on [n]
    and [d] the dropout of it, the call returns the sum of the untouched
    input [x] and [d] (together with the module the sublayer wrote to);
    outside training [d] is the sublayer's output itself; and when the
    sublayer keeps the shape the sum is elementwise. *)
Theorem residual_connection_forward :
  forall (St : Type) (training : bool) (self : ResidualConnection.t)
         (x : Torch.Tensor) (sublayer : Torch.Tensor -> M (Torch.Tensor * St))
         (g : Generator) (n : Torch.Tensor) (ys : Torch.Tensor * St)
         (g1 : Generator) (d : Torch.Tensor) (g2 : Generator),
    LayerNormalization.forward (ResidualConnection.norm self) x = Ok n ->
    sublayer n g = Ok (ys, g1) ->
    nn.Dropout.forward training (ResidualConnection.dropout self) (fst ys) g1
    = Ok (d, g2) ->
    ResidualConnection.forward training self x sublayer g
    = rmap (fun r => ((r, snd ys), g2)) (Torch.add x d)
    /\ (training = false -> d = fst ys)
    /\ (Torch.shape d = Torch.shape x ->
        exists r,
          ResidualConnection.forward training self x sublayer g = Ok ((r, snd ys), g2)
          /\ Torch.shape r = Torch.shape x
          /\ forall i, Torch.in_range (Torch.shape x) i ->
                       Torch.item r i = (Torch.item x i + Torch.item d i)%R).
Proof.
  intros St training self x sublayer g n ys g1 d g2 En Es Ed.
  exact (ResidualConnection_forward_value training self x sublayer g n ys g1 d g2
           En Es Ed).
Qed.

(** A residual connection around the identity sublayer, on the vector
    (0, 1), outside training: the output is x + norm(x). *)
Lemma residual_connection_forward_witness :
  exists (self : ResidualConnection.t) (n r : Torch.Tensor),
    ResidualConnection.init (1 # 10) = Ok self /\
    LayerNormalization.forward (ResidualConnection.norm self) vector01 = Ok n /\
    ResidualConnection.forward false self vector01 (fun t => ret (t, tt)) zero_generator
    = Ok ((r, tt), zero_generator) /\
    Torch.item r [0] = (Torch.item vector01 [0%nat] + Torch.item n [0%nat])%R /\
    Torch.item r [1] = (Torch.item vector01 [1%nat] + Torch.item n [1%nat])%R.
Proof.
  destruct (ResidualConnection_init_ok (1 # 10) eq_refl) as (self & E & [Sa Sb]).
  destruct (LayerNormalization_forward_ok (ResidualConnection.norm self) vector01
              Sa Sb ltac:(discriminate)) as (n & En & Sn).
  destruct (residual_connection_forward unit false self vector01
              (fun t => ret (t, tt)) zero_generator n (n, tt) zero_generator n
              zero_generator En eq_refl (dropout_eval _ _ _))
    as (_ & _ & Hr).
  destruct (Hr Sn) as (r & Er & _ & Ir).
  exists self, n, r. split; [exact E|]. split; [exact En|]. split; [exact Er|].
  split; apply Ir; repeat constructor.
Defined.

(** ** Construction and the divisibility of [d_model] by [h] *)

(** C1, as the code has it.  [MultiHeadAttentionBlock] raises when [h]
    is zero (the remainder itself raises) or does not divide [d_model]
    (the assertion), and is constructed when [h] divides a non-negative
    [d_model] and the dropout probability is valid.  [build_transformer]
    raises for such [h] and [d_model] whenever it builds at least one layer
    ([N >= 1]), and returns a model when a positive [h] divides a positive
    even [d_model] and the sizes and the dropout probability are valid. *)
Theorem construction_and_divisibility :
  forall (d_model h : Z) (dropout : Q) (g : Generator),
    (h = 0%Z ->
     MultiHeadAttentionBlock.init d_model h dropout g = Raise ZeroDivisionError) /\
    (h <> 0%Z -> (d_model mod h)%Z <> 0%Z ->
     MultiHeadAttentionBlock.init d_model h dropout g = Raise AssertionError) /\
    (h <> 0%Z -> (d_model mod h)%Z = 0%Z -> (0 <= d_model)%Z ->
     Qle_bool 0 dropout && Qle_bool dropout 1 = true ->
     exists a g', MultiHeadAttentionBlock.init d_model h dropout g = Ok (a, g')) /\
    forall (src_vocab_size tgt_vocab_size src_seq_len tgt_seq_len N d_ff : Z),
      ((0 < N)%Z -> h = 0%Z \/ (d_model mod h)%Z <> 0%Z ->
       exists e, build_transformer src_vocab_size tgt_vocab_size src_seq_len tgt_seq_len
                   d_model N h dropout d_ff g = Raise e) /\
      ((0 < h)%Z -> (d_model mod h)%Z = 0%Z ->
       (0 < d_model)%Z -> Z.even d_model = true ->
       (0 <= src_vocab_size)%Z -> (0 <= tgt_vocab_size)%Z ->
       (0 <= src_seq_len)%Z -> (0 <= tgt_seq_len)%Z -> (0 <= d_ff)%Z ->
       Qle_bool 0 dropout && Qle_bool dropout 1 = true ->
       exists m g', build_transformer src_vocab_size tgt_vocab_size src_seq_len
                      tgt_seq_len d_model N h dropout d_ff g = Ok (m, g')).
Proof.
  intros d h p g.
  split; [|split; [|split; [|intros src_vocab_size tgt_vocab_size src_seq_len
                                    tgt_seq_len N d_ff; split]]].
  - intros ->. reflexivity.
  - intros Hh Hm. unfold MultiHeadAttentionBlock.init, bind, lift,
      MultiHeadAttentionBlock.check_heads.
    apply Z.eqb_neq in Hh, Hm. now rewrite Hh, Hm.
  - intros Hh Hm Hd Hp. now apply MultiHeadAttentionBlock_init_ok.
  - intros HN Hbad.
    destruct (build_transformer src_vocab_size tgt_vocab_size src_seq_len tgt_seq_len
                d N h p d_ff g) as [[m g']|e] eqn:E; [|now exists e].
    destruct (build_transformer_inv _ _ _ _ _ _ _ _ _ _ _ _ E) as (_ & Hdiv & _).
    destruct (Hdiv HN) as [Hh Hm]. destruct Hbad; contradiction.
  - intros Hh Hm Hd Hev Hvs Hvt Hls Hlt Hff Hp.
    apply build_transformer_ok; try assumption. left. split; assumption.
Qed.

(** With [d_model = 8] and one layer: two heads build, three do not. *)
Lemma construction_and_divisibility_witness :
  (exists m g', build_transformer 10 10 4 4 8 1 2 (1 # 10) 16 zero_generator
                = Ok (m, g')) /\
  (exists e, build_transformer 10 10 4 4 8 1 3 (1 # 10) 16 zero_generator = Raise e).
Proof.
  pose proof (construction_and_divisibility 8 2 (1 # 10) zero_generator) as (_ & _ & _ & H2).
  pose proof (construction_and_divisibility 8 3 (1 # 10) zero_generator) as (_ & _ & _ & H3).
  split.
  - apply (H2 10%Z 10%Z 4%Z 4%Z 1%Z 16%Z); try reflexivity; lia.
  - apply (H3 10%Z 10%Z 4%Z 4%Z 1%Z 16%Z); [lia|]. right. discriminate.
Defined.

(** With no layer ([N = 0]) three heads build although 3 does not divide
    8; and with [d_model = 9] three heads do not build although 3 divides
    9 (the positional encoding table needs an even [d_model]). *)
Lemma construction_not_equivalent_to_divisibility :
  ((8 mod 3)%Z <> 0%Z /\
   exists m g', build_transformer 10 10 4 4 8 0 3 (1 # 10) 16 zero_generator
                = Ok (m, g')) /\
  ((9 mod 3)%Z = 0%Z /\
   build_transformer 10 10 4 4 9 1 3 (1 # 10) 16 zero_generator = Raise RuntimeError).
Proof.
  split; split.
  - discriminate.
  - apply build_transformer_ok; try reflexivity; lia.
  - reflexivity.
  - reflexivity.
Qed.

(** ** The shape of the encoder output *)

(** C3, as the code has it: on a model returned by [build_transformer]
    (with a positive head count), for a token tensor of shape (batch, s)
    with a non-empty batch, [s] at most the source maximum length, every
    token id inside the source vocabulary and a mask that is absent or
    broadcasts to (batch, h, s, s), [encode] returns a tensor of shape
    (batch, s, d_model), in training and in evaluation mode. *)
Theorem encode_output_shape :
  forall (src_vocab_size tgt_vocab_size src_seq_len tgt_seq_len d_model N h : Z)
         (dropout : Q) (d_ff : Z) (g g' : Generator) (m : Transformer.t),
    build_transformer src_vocab_size tgt_vocab_size src_seq_len tgt_seq_len
      d_model N h dropout d_ff g = Ok (m, g') ->
    (0 < h)%Z ->
    forall (training : bool) (src : Torch.LongTensor) (src_mask : option Torch.LongTensor)
           (g1 : Generator) (b s : nat),
      Torch.lshape src = [b; s] ->
      0 < b ->
      s <= Z.to_nat src_seq_len ->
      tokens_in src (Z.to_nat src_vocab_size) = true ->
      mask_fits src_mask [b; Z.to_nat h; s; s] = true ->
      exists out m1 g2,
        Transformer.encode training m src src_mask g1 = Ok ((out, m1), g2)
        /\ Torch.shape out = [b; s; Z.to_nat d_model].
Proof.
  intros vs vt ls lt d N h p dff g g' m E Hh tr src mask g1 b s Ss Hb Hs Ht Hm.
  destruct (build_transformer_inv _ _ _ _ _ _ _ _ _ _ _ _ E) as (_ & _ & _ & _ & W).
  destruct (Transformer_encode_ok tr m src mask g1 _ _ _ _ _ _ b s (W Hh) Ss Hb Hs Ht Hm)
    as ([out m1] & g2 & Er & So).
  exists out, m1, g2. split; [exact Er|exact So].
Qed.

(** The example model on the tokens 0, 1, 2, 3, in training mode. *)
Lemma encode_output_shape_witness :
  exists (m : Transformer.t) (g : Generator) (out : Torch.Tensor)
         (m1 : Transformer.t) (g2 : Generator),
    build_transformer 10 10 4 4 8 1 2 (1 # 10) 16 zero_generator = Ok (m, g) /\
    Transformer.encode true m example_tokens None g = Ok ((out, m1), g2) /\
    Torch.shape out = [1; 4; 8].
Proof.
  destruct example_model as (m & g & E & _).
  destruct (encode_output_shape 10 10 4 4 8 1 2 (1 # 10) 16 zero_generator g m E
              ltac:(lia) true example_tokens None g 1 4 eq_refl ltac:(lia)
              ltac:(change (Z.to_nat 4) with 4; lia) eq_refl eq_refl)
    as (out & m1 & g2 & Er & So).
  exists m, g, out, m1, g2. split; [exact E|]. split; [exact Er|exact So].
Defined.

(** The example model on four tokens of id 10, outside its vocabulary of
    ten entries: the shape is (1, 4), the length is within the maximum, and
    [encode] raises in the embedding lookup.  And on a batch of no
    sequence, of shape (0, 4): [encode] raises in the first attention
    block, where [view] cannot infer the sequence dimension. *)
Lemma encode_raises_within_maximum_length :
  exists (m : Transformer.t) (g : Generator),
    build_transformer 10 10 4 4 8 1 2 (1 # 10) 16 zero_generator = Ok (m, g) /\
    4 <= Z.to_nat 4 /\
    (Torch.lshape tokens_out_of_vocabulary = [1; 4] /\
     Transformer.encode false m tokens_out_of_vocabulary None g = Raise IndexError) /\
    (Torch.lshape empty_batch = [0; 4] /\
     Transformer.encode false m empty_batch None g = Raise RuntimeError).
Proof.
  destruct example_model as (m & g & E & W).
  exists m, g. split; [exact E|].
  split; [change (Z.to_nat 4) with 4; lia|]. split; (split; [reflexivity|]).
  - destruct (wf_src_embed _ _ _ _ _ _ _ W) as [_ Sw].
    unfold Transformer.encode, bind, lift, InputEmbedding.forward, nn.Embedding.forward,
      Torch.embedding.
    rewrite Sw. reflexivity.
  - destruct (build_transformer_inv _ _ _ _ _ _ _ _ _ _ _ _ E) as (_ & _ & L & _).
    apply (Transformer_encode_empty_batch false m empty_batch None g _ _ _ _ _ _ 4 W);
      [|reflexivity|lia].
    intros Hn. rewrite Hn in L. discriminate L.
Qed.

(** ** What a forward call leaves behind *)

Section StoredScores.
Import Torch.

Lemma DecoderBlock_forward_forget tr self x enc src_mask tgt_mask g :
  DecoderBlock.forward tr (DecoderBlock.forget self) x enc src_mask tgt_mask g
  = DecoderBlock.forward tr self x enc src_mask tgt_mask g.
Proof. reflexivity. Qed.

Lemma Decoder_forward_layers_forget tr layers x enc src_mask tgt_mask g :
  Decoder.forward_layers tr (map DecoderBlock.forget layers) x enc src_mask tgt_mask g
  = Decoder.forward_layers tr layers x enc src_mask tgt_mask g.
Proof.
  revert x g. induction layers as [|e layers IH]; intros x g; [reflexivity|].
  cbn [map Decoder.forward_layers]. unfold bind.
  rewrite DecoderBlock_forward_forget.
  destruct (DecoderBlock.forward tr e x enc src_mask tgt_mask g) as [[xl g1]|err];
    [|reflexivity].
  now rewrite IH.
Qed.

Lemma Decoder_forward_forget tr self x enc src_mask tgt_mask g :
  Decoder.forward tr (Decoder.forget self) x enc src_mask tgt_mask g
  = Decoder.forward tr self x enc src_mask tgt_mask g.
Proof.
  unfold Decoder.forward, Decoder.forget, bind. cbn [Decoder.layers Decoder.norm].
  now rewrite Decoder_forward_layers_forget.
Qed.

(** What [encode] returns or raises, and the generator it leaves, for two
    models that differ in their stored attention weights only. *)
Lemma Transformer_encode_stored tr m m2 src mask g :
  Transformer.forget m2 = Transformer.forget m ->
  rmap (fun r => (fst (fst r), snd r)) (Transformer.encode tr m2 src mask g)
  = rmap (fun r => (fst (fst r), snd r)) (Transformer.encode tr m src mask g).
Proof.
  intros H.
  assert (He : Encoder.forget (Transformer.encoder m2)
               = Encoder.forget (Transformer.encoder m))
    by exact (f_equal Transformer.encoder H).
  assert (Hse : Transformer.src_embed m2 = Transformer.src_embed m)
    by exact (f_equal Transformer.src_embed H).
  assert (Hsp : Transformer.src_pos m2 = Transformer.src_pos m)
    by exact (f_equal Transformer.src_pos H).
  unfold Transformer.encode, bind. rewrite Hse, Hsp.
  destruct (lift (InputEmbedding.forward (Transformer.src_embed m) src) g)
    as [[e ge]|err]; [|reflexivity].
  destruct (PositionalEncoding.forward tr (Transformer.src_pos m) e ge)
    as [[y gy]|err]; [|reflexivity].
  rewrite <- (Encoder_forward_forget tr (Transformer.encoder m2)), He,
    Encoder_forward_forget.
  destruct (Encoder.forward tr (Transformer.encoder m) y mask gy) as [[ye gz]|err];
    reflexivity.
Qed.

Lemma Transformer_decode_stored tr m m2 enc src_mask tgt tgt_mask g :
  Transformer.forget m2 = Transformer.forget m ->
  rmap (fun r => (fst (fst r), snd r))
       (Transformer.decode tr m2 enc src_mask tgt tgt_mask g)
  = rmap (fun r => (fst (fst r), snd r))
         (Transformer.decode tr m enc src_mask tgt tgt_mask g).
Proof.
  intros H.
  assert (Hd : Decoder.forget (Transformer.decoder m2)
               = Decoder.forget (Transformer.decoder m))
    by exact (f_equal Transformer.decoder H).
  assert (Hte : Transformer.tgt_embed m2 = Transformer.tgt_embed m)
    by exact (f_equal Transformer.tgt_embed H).
  assert (Htp : Transformer.tgt_pos m2 = Transformer.tgt_pos m)
    by exact (f_equal Transformer.tgt_pos H).
  unfold Transformer.decode, bind. rewrite Hte, Htp.
  destruct (lift (InputEmbedding.forward (Transformer.tgt_embed m) tgt) g)
    as [[e ge]|err]; [|reflexivity].
  destruct (PositionalEncoding.forward tr (Transformer.tgt_pos m) e ge)
    as [[y gy]|err]; [|reflexivity].
  rewrite <- (Decoder_forward_forget tr (Transformer.decoder m2)), Hd,
    Decoder_forward_forget.
  destruct (Decoder.forward tr (Transformer.decoder m) y enc src_mask tgt_mask gy)
    as [[yd gz]|err]; reflexivity.
Qed.

End StoredScores.

(** C7, as the code has it.  An [encode] or [decode] call that returns
    writes one attribute, the [attention_scores] of the attention blocks it
    runs ([MultiHeadAttentionBlock.forward], line 150), and nothing else:
    the model it leaves is the model it was called on up to the stored
    attention weights, so every learned parameter, buffer and
    hyper-parameter is unchanged, in training and in evaluation mode; after
    [encode] every encoder block holds stored attention weights.  And the
    stored weights are never read: for two models that differ in their
    stored attention weights only, [encode] and [decode] return the same
    output or raise the same exception, and leave the same generator state.
    ([project] returns a tensor only.) *)
Theorem forward_writes_only_attention_scores :
  forall (training : bool) (m : Transformer.t),
    (forall src src_mask g out m' g',
        Transformer.encode training m src src_mask g = Ok ((out, m'), g') ->
        Transformer.forget m' = Transformer.forget m /\
        Forall (fun e => MultiHeadAttentionBlock.attention_scores
                           (EncoderBlock.self_attention_block e) <> None)
               (Encoder.layers (Transformer.encoder m'))) /\
    (forall encoder_output src_mask tgt tgt_mask g out m' g',
        Transformer.decode training m encoder_output src_mask tgt tgt_mask g
        = Ok ((out, m'), g') ->
        Transformer.forget m' = Transformer.forget m) /\
    (forall m2 : Transformer.t,
        Transformer.forget m2 = Transformer.forget m ->
        (forall src src_mask g,
            rmap (fun r => (fst (fst r), snd r))
                 (Transformer.encode training m2 src src_mask g)
            = rmap (fun r => (fst (fst r), snd r))
                   (Transformer.encode training m src src_mask g)) /\
        (forall encoder_output src_mask tgt tgt_mask g,
            rmap (fun r => (fst (fst r), snd r))
                 (Transformer.decode training m2 encoder_output src_mask tgt tgt_mask g)
            = rmap (fun r => (fst (fst r), snd r))
                   (Transformer.decode training m encoder_output src_mask tgt tgt_mask g))).
Proof.
  intros training m. split; [|split].
  - intros src src_mask g out m' g' H.
    destruct (Transformer_encode_inv _ _ _ _ _ _ _ H) as (enc' & Em & Ef & Fs).
    cbn [snd] in Em. subst m'. split; [|exact Fs]. unfold Transformer.forget.
    cbn [Transformer.encoder Transformer.decoder Transformer.src_embed
         Transformer.tgt_embed Transformer.src_pos Transformer.tgt_pos
         Transformer.projection_layer].
    now rewrite Ef.
  - intros encoder_output src_mask tgt tgt_mask g out m' g' H.
    destruct (Transformer_decode_inv _ _ _ _ _ _ _ _ _ H) as (dec' & Em & Ef).
    cbn [snd] in Em. subst m'. unfold Transformer.forget.
    cbn [Transformer.encoder Transformer.decoder Transformer.src_embed
         Transformer.tgt_embed Transformer.src_pos Transformer.tgt_pos
         Transformer.projection_layer].
    now rewrite Ef.
  - intros m2 Hm. split.
    + intros src src_mask g. now apply Transformer_encode_stored.
    + intros encoder_output src_mask tgt tgt_mask g. now apply Transformer_decode_stored.
Qed.

(** The example model: an [encode], then a [decode] against its output on
    the model as [encode] left it, which returns what a [decode] on the
    model as built returns. *)
Lemma forward_writes_only_attention_scores_witness :
  exists (m : Transformer.t) (g : Generator) (out : Torch.Tensor)
         (m1 : Transformer.t) (g1 : Generator) (out2 : Torch.Tensor)
         (m2 : Transformer.t) (g2 : Generator),
    build_transformer 10 10 4 4 8 1 2 (1 # 10) 16 zero_generator = Ok (m, g) /\
    Transformer.encode true m example_tokens None g = Ok ((out, m1), g1) /\
    Transformer.forget m1 = Transformer.forget m /\
    Transformer.decode true m out None example_tokens None g1 = Ok ((out2, m2), g2) /\
    Transformer.forget m2 = Transformer.forget m /\
    rmap (fun r => (fst (fst r), snd r))
         (Transformer.decode true m1 out None example_tokens None g1)
    = Ok (out2, g2).
Proof.
  destruct example_model as (m & g & E & W).
  destruct (Transformer_encode_ok true m example_tokens None g 8 2 10 10 4 4 1 4 W
              eq_refl ltac:(lia) ltac:(lia) eq_refl eq_refl)
    as ([out m1] & g1 & E1 & S1).
  destruct (Transformer_decode_ok true m out None example_tokens None g1
              8 2 10 10 4 4 1 4 4 W eq_refl S1 ltac:(lia) ltac:(lia) eq_refl eq_refl
              eq_refl)
    as ([out2 m2] & g2 & E2 & S2).
  exists m, g, out, m1, g1, out2, m2, g2.
  destruct (forward_writes_only_attention_scores true m) as (He & Hd & Hs).
  pose proof (proj1 (He _ _ _ _ _ _ E1)) as F1.
  split; [exact E|]. split; [exact E1|]. split; [exact F1|].
  split; [exact E2|]. split; [exact (Hd _ _ _ _ _ _ _ _ E2)|].
  rewrite (proj2 (Hs m1 F1) out None example_tokens None g1), E2. reflexivity.
Defined.

(** The example model is not the same after [encode]: the attention
    block of its encoder layer, which had no [attention_scores] attribute,
    has one. *)
Lemma encode_writes_attention_scores :
  exists (m : Transformer.t) (g : Generator) (out : Torch.Tensor)
         (m1 : Transformer.t) (g1 : Generator),
    build_transformer 10 10 4 4 8 1 2 (1 # 10) 16 zero_generator = Ok (m, g) /\
    Transformer.encode false m example_tokens None g = Ok ((out, m1), g1) /\
    m1 <> m.
Proof.
  destruct example_model as (m & g & E & W).
  destruct (Transformer_encode_ok false m example_tokens None g 8 2 10 10 4 4 1 4 W
              eq_refl ltac:(lia) ltac:(lia) eq_refl eq_refl)
    as ([out m1] & g1 & E1 & S1).
  exists m, g, out, m1, g1. split; [exact E|]. split; [exact E1|].
  destruct (build_transformer_inv _ _ _ _ _ _ _ _ _ _ _ _ E) as (_ & _ & L & F & _).
  destruct (Transformer_encode_inv _ _ _ _ _ _ _ E1) as (enc' & Em & _ & Fs).
  cbn [snd] in Em. intros Heq. rewrite Heq in Em.
  assert (Ee : enc' = Transformer.encoder m) by (rewrite Em; reflexivity).
  rewrite Ee in Fs.
  destruct (Encoder.layers (Transformer.encoder m)) as [|e l]; [discriminate L|].
  apply Forall_inv in F, Fs. destruct F as (_ & Hnone & _). contradiction.
Qed.

(** ** Determinism of [encode] in evaluation mode *)

(** C9: in evaluation mode [encode] is deterministic.  Its outcome does
    not depend on the state of the random number generator; a second call
    on the same input, on the model as the first call left it, returns the
    same output (and leaves the same model); and for a model built with
    [d_model = 8], [h = 2] and maximum length 4, whatever its parameters,
    a batch of one sequence of four tokens of the vocabulary gives an
    output of shape (1, 4, 8), the same at every call. *)
Theorem encode_deterministic_in_evaluation_mode :
  (forall (m : Transformer.t) src src_mask (g1 g2 : Generator),
      rmap (fun r => fst (fst r)) (Transformer.encode false m src src_mask g1)
      = rmap (fun r => fst (fst r)) (Transformer.encode false m src src_mask g2)) /\
  (forall (m : Transformer.t) src src_mask (g1 g1' g2 : Generator) out m1,
      Transformer.encode false m src src_mask g1 = Ok ((out, m1), g1') ->
      Transformer.encode false m1 src src_mask g2 = Ok ((out, m1), g2)) /\
  (forall (src_vocab_size tgt_vocab_size N : Z) (dropout : Q) (d_ff : Z)
          (g g' : Generator) (m : Transformer.t),
      build_transformer src_vocab_size tgt_vocab_size 4 4 8 N 2 dropout d_ff g
      = Ok (m, g') ->
      forall src src_mask,
        Torch.lshape src = [1; 4] ->
        tokens_in src (Z.to_nat src_vocab_size) = true ->
        mask_fits src_mask [1; 2; 4; 4] = true ->
        exists out m1,
          Torch.shape out = [1; 4; 8] /\
          (forall g1, Transformer.encode false m src src_mask g1 = Ok ((out, m1), g1)) /\
          (forall g2, Transformer.encode false m1 src src_mask g2 = Ok ((out, m1), g2))).
Proof.
  split; [|split].
  - intros m src src_mask g1 g2.
    rewrite (draws_nothing_encode m src src_mask g1),
            (draws_nothing_encode m src src_mask g2).
    destruct (Transformer.encode false m src src_mask zero_generator) as [[r g0]|e];
      reflexivity.
  - intros m src src_mask g1 g1' g2 out m1 H.
    exact (encode_again m src src_mask g1 g1' g2 out m1 H).
  - intros vs vt N p dff g g' m E src src_mask Ss Ht Hm.
    destruct (build_transformer_inv _ _ _ _ _ _ _ _ _ _ _ _ E) as (_ & _ & _ & _ & W).
    specialize (W ltac:(lia)).
    destruct (Transformer_encode_ok false m src src_mask zero_generator _ _ _ _ _ _ 1 4 W
                Ss ltac:(lia) ltac:(change (Z.to_nat 4) with 4; lia) Ht Hm)
      as ([out m1] & g2 & Er & So).
    exists out, m1. split; [exact So|]. split.
    + intros g1.
      exact (draws_nothing_run _ _ _ g1 _ (draws_nothing_encode m src src_mask) Er).
    + intros g3. exact (encode_again m src src_mask _ _ g3 out m1 Er).
Qed.

(** The example model, called twice on the tokens 0, 1, 2, 3. *)
Lemma encode_deterministic_in_evaluation_mode_witness :
  exists (m : Transformer.t) (g : Generator) (out : Torch.Tensor) (m1 : Transformer.t),
    build_transformer 10 10 4 4 8 1 2 (1 # 10) 16 zero_generator = Ok (m, g) /\
    Torch.shape out = [1; 4; 8] /\
    Transformer.encode false m example_tokens None g = Ok ((out, m1), g) /\
    Transformer.encode false m1 example_tokens None g = Ok ((out, m1), g).
Proof.
  destruct example_model as (m & g & E & _).
  destruct encode_deterministic_in_evaluation_mode as (_ & _ & H).
  destruct (H 10%Z 10%Z 1%Z (1 # 10)%Q 16%Z zero_generator g m E example_tokens None
              eq_refl eq_refl eq_refl)
    as (out & m1 & So & H1 & H2).
  exists m, g, out, m1. split; [exact E|]. split; [exact So|].
  split; [apply H1|apply H2].
Defined.

(* ================================================================== *)
(** * Further properties of the forward pass and of construction *)

(** ** The embedding lookup *)

(** X1: [InputEmbedding.forward] is a table lookup scaled by
    sqrt(d_model).  When every token id is a row of the embedding table the
    output has the shape of the input with a feature dimension appended,
    and its entry at a token position [i] and feature [j] is the entry
    [j] of the row of that token, times sqrt(d_model); when some token id
    is outside the table the call raises [IndexError]. *)
Theorem input_embedding_lookup :
  forall (self : InputEmbedding.t) (x : Torch.LongTensor) (d v : nat),
    wf_InputEmbedding self d v ->
    (tokens_in x v = true ->
     exists r,
       InputEmbedding.forward self x = Ok r /\
       Torch.shape r = Torch.lshape x ++ [d] /\
       forall (i : Torch.Index) (j : nat),
         Torch.item r (i ++ [j])
         = (Torch.item (nn.Embedding.weight (InputEmbedding.embedding self))
              [Z.to_nat (Torch.litem x i); j] * sqrt (INR d))%R) /\
    (tokens_in x v = false -> InputEmbedding.forward self x = Raise IndexError).
Proof.
  intros self x d v [Hd Sw]. split; intros Ht.
  - unfold InputEmbedding.forward, nn.Embedding.forward, Torch.embedding.
    rewrite Sw. unfold tokens_in in Ht. rewrite Ht. cbn [rbind].
    rewrite Hd. replace (Z.of_nat d <? 0)%Z with false by (symmetry; apply Z.ltb_ge; lia).
    cbn [rbind]. eexists. split; [reflexivity|]. split; [reflexivity|].
    intros i j. cbn [Torch.mul_scalar Torch.map_t Torch.item].
    rewrite removelast_last, last_last, <- INR_IZR_INZ. reflexivity.
  - unfold InputEmbedding.forward, nn.Embedding.forward, Torch.embedding.
    rewrite Sw. unfold tokens_in in Ht. rewrite Ht. reflexivity.
Qed.

Lemma input_embedding_lookup_witness :
  exists (m : Transformer.t) (g : Generator) (r : Torch.Tensor),
    build_transformer 10 10 4 4 8 1 2 (1 # 10) 16 zero_generator = Ok (m, g) /\
    InputEmbedding.forward (Transformer.src_embed m) example_tokens = Ok r /\
    Torch.shape r = [1; 4; 8] /\
    InputEmbedding.forward (Transformer.src_embed m) tokens_out_of_vocabulary
    = Raise IndexError.
Proof.
  destruct example_model as (m & g & E & W).
  destruct (input_embedding_lookup (Transformer.src_embed m) example_tokens 8 10
              (wf_src_embed _ _ _ _ _ _ _ W)) as [Hok _].
  destruct (Hok eq_refl) as (r & Er & Sr & _).
  destruct (input_embedding_lookup (Transformer.src_embed m) tokens_out_of_vocabulary 8 10
              (wf_src_embed _ _ _ _ _ _ _ W)) as [_ Hbad].
  exists m, g, r. split; [exact E|]. split; [exact Er|]. split; [exact Sr|].
  exact (Hbad eq_refl).
Defined.

(** ** The positional encoding table *)

Lemma angle_pair (d_model : Z) (pos j : nat) :
  Nat.even j = true -> angle d_model pos (S j) = angle d_model pos j.
Proof.
  intros Hj. unfold angle.
  replace (S j / 2) with (j / 2); [reflexivity|].
  destruct (parity_cases j) as [(_ & E0 & _)|(Ev & _)]; [|congruence]. dlia.
Qed.

(** X2: the table built by [PositionalEncoding.__init__].  It has shape
    (1, seq_len, d_model); every entry lies between -1 and 1; the two
    entries of a dimension pair (2i, 2i + 1) are the sine and the cosine of
    one angle, so their squares sum to 1; and the first pair, whose
    frequency is exp(0) = 1, holds sin(pos) and cos(pos) at every position
    up to 2^24 (the positions a single-precision [arange] represents
    exactly).  The angles of the other pairs are products of rounded
    factors; no formula is stated for them. *)
Theorem positional_encoding_table_entries :
  forall (d_model seq_len : Z) (dropout : Q) (self : PositionalEncoding.t),
    PositionalEncoding.init d_model seq_len dropout = Ok self ->
    Torch.shape (PositionalEncoding.pe self) = [1; Z.to_nat seq_len; Z.to_nat d_model] /\
    forall pos j : nat,
      pos < Z.to_nat seq_len -> j < Z.to_nat d_model ->
      (-1 <= Torch.item (PositionalEncoding.pe self) [0%nat; pos; j] <= 1)%R /\
      (Nat.even j = true -> S j < Z.to_nat d_model ->
       (Torch.item (PositionalEncoding.pe self) [0%nat; pos; j]
        * Torch.item (PositionalEncoding.pe self) [0%nat; pos; j]
        + Torch.item (PositionalEncoding.pe self) [0%nat; pos; S j]
          * Torch.item (PositionalEncoding.pe self) [0%nat; pos; S j] = 1)%R) /\
      ((Z.of_nat pos <= 2 ^ 24)%Z -> j <= 1 ->
       Torch.item (PositionalEncoding.pe self) [0; pos; j]
       = if Nat.even j then sin (INR pos) else cos (INR pos)).
Proof.
  intros d_model seq_len dropout self H.
  destruct (PositionalEncoding_table _ _ _ _ H) as [Spe T].
  split; [exact Spe|]. intros pos j Hpos Hj. split; [|split].
  - rewrite (T pos j Hpos Hj). destruct (Nat.even j); [apply SIN_bound|apply COS_bound].
  - intros Hev HSj. rewrite (T pos j Hpos Hj), (T pos (S j) Hpos HSj).
    rewrite Nat.even_succ, <- Nat.negb_even, Hev. cbn [negb].
    rewrite (angle_pair d_model pos j Hev).
    pose proof (sin2_cos2 (angle d_model pos j)) as P. unfold Rsqr in P. exact P.
  - intros _ Hj1. rewrite (T pos j Hpos Hj).
    assert (Ea : angle d_model pos j = INR pos).
    { unfold angle. replace (j / 2) with 0 by (destruct j as [|[|j]]; [reflexivity..|lia]).
      cbn [Z.of_nat Z.mul]. rewrite Rmult_0_l, exp_0, Rmult_1_r.
      symmetry. apply INR_IZR_INZ. }
    now rewrite Ea.
Qed.

Lemma positional_encoding_table_entries_witness :
  exists self : PositionalEncoding.t,
    PositionalEncoding.init 4 4 (1 # 10) = Ok self /\
    Torch.shape (PositionalEncoding.pe self) = [1; 4; 4] /\
    Torch.item (PositionalEncoding.pe self) [0; 3; 0] = sin (INR 3) /\
    Torch.item (PositionalEncoding.pe self) [0; 3; 1] = cos (INR 3).
Proof.
  destruct (PositionalEncoding_init_ok 4 4 (1 # 10) eq_refl ltac:(lia) ltac:(lia)
              (or_introl eq_refl)) as (self & E & _).
  exists self. split; [exact E|].
  destruct (positional_encoding_table_entries 4 4 (1 # 10) self E) as [S T].
  split; [exact S|]. split.
  - apply (T 3 0); [change (Z.to_nat 4) with 4; lia..|lia|lia].
  - apply (T 3 1); [change (Z.to_nat 4) with 4; lia..|lia|lia].
Defined.

Section PositionalEncodingConstruction.
Import Torch.

Lemma PositionalEncoding_init_inv (d L : Z) (p : Q) (self : PositionalEncoding.t) :
  PositionalEncoding.init d L p = Ok self ->
  Qle_bool 0 p && Qle_bool p 1 = true /\ (0 <= L)%Z /\ (0 < d)%Z /\
  (Z.even d = true \/ d = 1%Z).
Proof.
  unfold PositionalEncoding.init. intros H.
  repeat (apply rbind_ok in H; destruct H as (? & ? & H)).
  clear H.
  rename x1 into p0, x2 into position, x3 into evens, x4 into c, x5 into a,
    x6 into pe1, x7 into a', x8 into pe2, x9 into pe3.
  assert (x7eq : a' = a) by congruence. subst a'.
  destruct (Z.eqb_spec d 0) as [|Hd0]; [discriminate|].
  apply Dropout_init_inv in H0.
  apply size_of_inv in H1. destruct H1 as [Hnn ->].
  pose proof (Forall_inv Hnn) as HL. pose proof (Forall_inv (Forall_inv_tail Hnn)) as Hd.
  cbv beta in HL, Hd.
  apply arange_inv in H2. destruct H2 as (_ & _ & Sp0 & _).
  apply unsqueeze_inv in H3. destruct H3 as (_ & Spos & _).
  apply arange_inv in H4. destruct H4 as (_ & _ & Sev & _).
  apply binop_inv in H6. destruct H6 as (Sa & _).
  apply setitem_cols_inv in H7. destruct H7 as (r & c0 & S0 & S1 & _ & _).
  apply setitem_cols_inv in H9. destruct H9 as (r' & c' & S1' & _ & X2 & _).
  rewrite S1 in S1'. injection S1' as <- <-.
  cbn in S0. injection S0 as <- <-.
  replace ((L - 0 + 1 - Z.sgn 1) / 1)%Z with L in Sp0
    by (cbn [Z.sgn]; rewrite Z.div_1_r; lia).
  rewrite Sp0 in Spos. cbn [firstn skipn app] in Spos.
  cbn [map_t mul_scalar shape] in Sa, X2.
  rewrite Spos, Sev, broadcast_col_row in Sa. injection Sa as Sa.
  rewrite <- Sa, expandable_2, Nat.eqb_refl in X2. cbn [orb andb] in X2.
  rewrite andb_true_r in X2. apply orb_true_iff in X2.
  repeat split; try assumption; try lia.
  cbn [Z.sgn] in X2. rewrite Zeven_mod.
  destruct X2 as [X2|X2]; apply Nat.eqb_eq in X2.
  - left. apply Z.eqb_eq. dlia.
  - destruct (Z.eq_dec d 1); [now right|left]. apply Z.eqb_eq. dlia.
Qed.

Lemma PositionalEncoding_init_odd (d L : Z) (p : Q) :
  Qle_bool 0 p && Qle_bool p 1 = true -> (0 <= L)%Z -> (3 <= d)%Z -> Z.odd d = true ->
  PositionalEncoding.init d L p = Raise RuntimeError.
Proof.
  intros Hp HL Hd Hodd.
  unfold PositionalEncoding.init, nn.Dropout.init. rewrite Hp. cbn [rbind].
  rewrite size_of_ok by (repeat constructor; lia). cbn [rbind map].
  step (arange_ok 0 L 1 ltac:(lia) ltac:(cbn [Z.sgn]; dlia)).
  step (unsqueeze_ok t 1 ltac:(unfold rank; rewrite S; cbn; lia)).
  step (arange_ok 0 d 2 ltac:(lia) ltac:(cbn [Z.sgn]; dlia)).
  destruct (Z.eqb_spec d 0); [lia|]. cbn [rbind].
  rewrite S in S0. cbn [firstn skipn app] in S0.
  replace ((L - 0 + 1 - Z.sgn 1) / 1)%Z with L in S0
    by (cbn [Z.sgn]; rewrite Z.div_1_r; lia).
  set (hw := Z.to_nat ((d - 0 + 2 - Z.sgn 2) / 2)) in *.
  unfold mul.
  step (binop_ok Rmult t0 (map_t exp (mul_scalar t1 (- ln 10000 / IZR d)))
          [Z.to_nat L; hw]
          ltac:(cbn [shape map_t mul_scalar]; rewrite S0, S1;
                apply broadcast_col_row)).
  step (setitem_cols_ok (zeros [Z.to_nat L; Z.to_nat d]) (map_t sin t2) 0 2 _ _ eq_refl
          ltac:(cbn [shape map_t]; rewrite S2, expandable_2, Nat.eqb_refl;
                replace ((Z.to_nat d - 0 + (2 - 1)) / 2) with hw
                  by (subst hw; cbn [Z.sgn]; dlia);
                now rewrite Nat.eqb_refl)).
  unfold setitem_cols. rewrite S3. cbn [shape map_t]. rewrite S2, expandable_2.
  rewrite Zodd_mod in Hodd. apply Z.eqb_eq in Hodd.
  replace (hw =? (Z.to_nat d - 1 + (2 - 1)) / 2) with false
    by (symmetry; apply Nat.eqb_neq; subst hw; cbn [Z.sgn]; dlia).
  replace (hw =? 1) with false
    by (symmetry; apply Nat.eqb_neq; subst hw; cbn [Z.sgn]; dlia).
  rewrite andb_false_r. reflexivity.
Qed.

Lemma PositionalEncoding_init_invalid_dropout (d L : Z) (p : Q) :
  Qle_bool 0 p && Qle_bool p 1 = false ->
  PositionalEncoding.init d L p = Raise ValueError.
Proof. intros Hp. unfold PositionalEncoding.init, nn.Dropout.init. now rewrite Hp. Qed.

Lemma PositionalEncoding_init_negative (d L : Z) (p : Q) :
  Qle_bool 0 p && Qle_bool p 1 = true -> (L < 0)%Z \/ (d < 0)%Z ->
  PositionalEncoding.init d L p = Raise RuntimeError.
Proof.
  intros Hp Hneg. unfold PositionalEncoding.init, nn.Dropout.init, size_of.
  rewrite Hp. cbn [rbind forallb].
  replace ((0 <=? L)%Z && ((0 <=? d)%Z && true)) with false; [reflexivity|].
  symmetry. rewrite andb_true_r. apply andb_false_iff.
  destruct Hneg; [left|right]; apply Z.leb_gt; assumption.
Qed.

Lemma PositionalEncoding_init_zero (L : Z) (p : Q) :
  Qle_bool 0 p && Qle_bool p 1 = true -> (0 <= L)%Z ->
  PositionalEncoding.init 0 L p = Raise ZeroDivisionError.
Proof.
  intros Hp HL. unfold PositionalEncoding.init, nn.Dropout.init. rewrite Hp.
  cbn [rbind]. rewrite size_of_ok by (repeat constructor; lia). cbn [rbind map].
  step (arange_ok 0 L 1 ltac:(lia) ltac:(cbn [Z.sgn]; dlia)).
  step (unsqueeze_ok t 1 ltac:(unfold rank; rewrite S; cbn; lia)).
  reflexivity.
Qed.

End PositionalEncodingConstruction.

(** X3: when [PositionalEncoding.__init__] returns and what it raises.
    It returns exactly when the dropout probability is in [0, 1], [seq_len]
    is not negative and [d_model] is positive and even, or is 1.  An invalid
    dropout probability raises [ValueError] before anything else; a
    negative size raises [RuntimeError]; [d_model = 0] raises
    [ZeroDivisionError] (the division by [d_model]); and an odd
    [d_model >= 3] raises [RuntimeError], in the assignment of the cosine
    columns, whatever [seq_len] is. *)
Theorem positional_encoding_construction :
  forall (d_model seq_len : Z) (dropout : Q),
    ((exists self, PositionalEncoding.init d_model seq_len dropout = Ok self) <->
     (Qle_bool 0 dropout && Qle_bool dropout 1 = true /\ (0 <= seq_len)%Z /\
      (0 < d_model)%Z /\ (Z.even d_model = true \/ d_model = 1%Z))) /\
    (Qle_bool 0 dropout && Qle_bool dropout 1 = false ->
     PositionalEncoding.init d_model seq_len dropout = Raise ValueError) /\
    (Qle_bool 0 dropout && Qle_bool dropout 1 = true ->
     ((seq_len < 0)%Z \/ (d_model < 0)%Z ->
      PositionalEncoding.init d_model seq_len dropout = Raise RuntimeError) /\
     ((0 <= seq_len)%Z -> d_model = 0%Z ->
      PositionalEncoding.init d_model seq_len dropout = Raise ZeroDivisionError) /\
     ((0 <= seq_len)%Z -> (3 <= d_model)%Z -> Z.odd d_model = true ->
      PositionalEncoding.init d_model seq_len dropout = Raise RuntimeError)).
Proof.
  intros d L p. split; [split|split].
  - intros [self H]. exact (PositionalEncoding_init_inv d L p self H).
  - intros (Hp & HL & Hd & Hev).
    destruct (PositionalEncoding_init_ok d L p Hp HL Hd Hev) as (self & E & _).
    now exists self.
  - intros Hp. now apply PositionalEncoding_init_invalid_dropout.
  - intros Hp. split; [|split].
    + intros Hneg. now apply PositionalEncoding_init_negative.
    + intros HL ->. now apply PositionalEncoding_init_zero.
    + intros HL Hd Hodd. now apply PositionalEncoding_init_odd.
Qed.

(** ** Adding the positional encoding *)

(** X4: outside training [PositionalEncoding.forward] adds the table row
    of the position to every element and draws nothing: for an input of
    shape (batch, s, d_model) with [s <= seq_len], the output has the same
    shape, its element (i, j, k) is x[i, j, k] plus the table entry
    pe[0, j, k], the same for every batch index [i], and the generator
    state is returned unchanged. *)
Theorem positional_encoding_forward_values :
  forall (d_model seq_len : Z) (dropout : Q) (self : PositionalEncoding.t)
         (x : Torch.Tensor) (b s : nat) (g : Generator),
    PositionalEncoding.init d_model seq_len dropout = Ok self ->
    Torch.shape x = [b; s; Z.to_nat d_model] ->
    s <= Z.to_nat seq_len ->
    exists y,
      PositionalEncoding.forward false self x g = Ok (y, g) /\
      Torch.shape y = [b; s; Z.to_nat d_model] /\
      forall i j k : nat,
        i < b -> j < s -> k < Z.to_nat d_model ->
        Torch.item y [i; j; k]
        = (Torch.item x [i; j; k] + Torch.item (PositionalEncoding.pe self) [0%nat; j; k])%R.
Proof.
  intros d L p self x b s g H Sx Hs.
  destruct (PositionalEncoding_table _ _ _ _ H) as [Spe _].
  unfold PositionalEncoding.forward, bind, lift, nn.getitem, Torch.slice_dim1.
  rewrite Sx, Spe. cbn [nth_error].
  destruct (binop_ok Rplus x
              (Torch.mkTensor [1; Nat.min s (Z.to_nat L); Z.to_nat d]
                 (Torch.item (PositionalEncoding.pe self)))
              [b; s; Z.to_nat d]) as (y & E & Sy).
  { rewrite Sx. cbn [Torch.shape]. apply broadcast_expand_r.
    rewrite expandable_3, !Nat.eqb_refl. cbn [orb andb].
    rewrite orb_true_r. cbn [andb]. rewrite andb_true_r.
    apply orb_true_iff. left. apply Nat.eqb_eq. lia. }
  unfold Torch.add. rewrite E. unfold nn.Dropout.forward. rewrite dropout_eval.
  exists y. split; [reflexivity|]. split; [exact Sy|].
  intros i j k Hi Hj Hk.
  apply binop_inv in E. destruct E as [_ I]. rewrite I. cbn [Torch.shape Torch.item].
  rewrite Sx, bidx_id by (repeat constructor; assumption).
  replace (Nat.min s (Z.to_nat L)) with s by lia.
  change (Torch.bidx [1; s; Z.to_nat d] [i; j; k])
    with [0; if s =? 1 then 0 else j; if Z.to_nat d =? 1 then 0 else k].
  replace (if s =? 1 then 0 else j) with j by (destruct (Nat.eqb_spec s 1); lia).
  replace (if Z.to_nat d =? 1 then 0 else k) with k
    by (destruct (Nat.eqb_spec (Z.to_nat d) 1); lia).
  reflexivity.
Qed.

Lemma positional_encoding_forward_values_witness :
  exists (self : PositionalEncoding.t) (y : Torch.Tensor),
    PositionalEncoding.init 4 4 (1 # 10) = Ok self /\
    PositionalEncoding.forward false self (Torch.zeros [1; 4; 4]) zero_generator
    = Ok (y, zero_generator) /\
    Torch.item y [0; 3; 2] = (0 + Torch.item (PositionalEncoding.pe self) [0%nat; 3%nat; 2%nat])%R.
Proof.
  destruct (PositionalEncoding_init_ok 4 4 (1 # 10) eq_refl ltac:(lia) ltac:(lia)
              (or_introl eq_refl)) as (self & E & _).
  destruct (positional_encoding_forward_values 4 4 (1 # 10) self (Torch.zeros [1; 4; 4])
              1 4 zero_generator E eq_refl ltac:(change (Z.to_nat 4) with 4; lia))
    as (y & Ey & _ & Iy).
  exists self, y. split; [exact E|]. split; [exact Ey|].
  apply (Iy 0 3 2); change (Z.to_nat 4) with 4; lia.
Defined.

(** ** Sums of a constant *)

Section ConstantSums.
Import Torch.

Lemma sum_n_const n c : sum_n n (fun _ => c) = (INR n * c)%R.
Proof.
  induction n as [|n IH]; [cbn; ring|].
  cbn [sum_n]. rewrite IH, S_INR. ring.
Qed.

End ConstantSums.

(** ** The feed-forward block, position by position *)

Section LinearValues.
Import Torch.

Lemma linear_item (x w bias r : Tensor) (b s d o : nat) :
  shape x = [b; s; d] -> shape w = [o; d] -> shape bias = [o] ->
  linear x w bias = Ok r ->
  forall i j k, i < b -> j < s -> k < o ->
    item r [i; j; k]
    = (sum_n d (fun n => item x [i; j; n] * item w [k; n]) + item bias [k])%R.
Proof.
  intros Sx Sw Sb H i j k Hi Hj Hk. unfold linear in H.
  apply rbind_ok in H. destruct H as (wt & Et & H).
  apply rbind_ok in H. destruct H as (y & Ey & H).
  unfold transpose, rank in Et. rewrite Sw in Et. cbn in Et. injection Et as <-.
  unfold matmul, rank in Ey. rewrite Sx in Ey.
  cbn [shape split_matrix rev app length Nat.eqb] in Ey.
  rewrite Nat.eqb_refl, broadcast_nil_r in Ey. injection Ey as <-.
  apply binop_inv in H. destruct H as [_ I]. rewrite I.
  cbn [shape item app length firstn skipn nth].
  rewrite Sb.
  change (bidx [b; s; o] [i; j; k])
    with [if b =? 1 then 0 else i; if s =? 1 then 0 else j; if o =? 1 then 0 else k].
  change (bidx [o] [i; j; k]) with [if o =? 1 then 0 else k].
  replace (if b =? 1 then 0 else i) with i by (destruct (Nat.eqb_spec b 1); lia).
  replace (if s =? 1 then 0 else j) with j by (destruct (Nat.eqb_spec s 1); lia).
  replace (if o =? 1 then 0 else k) with k by (destruct (Nat.eqb_spec o 1); lia).
  cbn [firstn skipn nth].
  change (bidx [b] [i]) with [if b =? 1 then 0 else i].
  replace (if b =? 1 then 0 else i) with i by (destruct (Nat.eqb_spec b 1); lia).
  reflexivity.
Qed.

End LinearValues.

(** X7: outside training [FeedForwardBlock.forward] works position by
    position.  On an input of shape (batch, s, d_model) the output has the
    same shape, and its element (i, j, k) is
    sum_m relu(sum_n x[i, j, n] * W1[m, n] + b1[m]) * W2[k, m] + b2[k]:
    it depends on the input row (i, j) only.  No random number is drawn. *)
Theorem feed_forward_position_wise :
  forall (self : FeedForwardBlock.t) (x : Torch.Tensor) (b s d d_ff : nat) (g : Generator),
    wf_Linear (FeedForwardBlock.linear_1 self) d d_ff ->
    wf_Linear (FeedForwardBlock.linear_2 self) d_ff d ->
    Torch.shape x = [b; s; d] ->
    exists y,
      FeedForwardBlock.forward false self x g = Ok (y, g) /\
      Torch.shape y = [b; s; d] /\
      forall i j k : nat,
        i < b -> j < s -> k < d ->
        Torch.item y [i; j; k]
        = (Torch.sum_n d_ff
             (fun m =>
                Rmax 0
                  (Torch.sum_n d
                     (fun n => Torch.item x [i; j; n]
                               * Torch.item (nn.Linear.weight (FeedForwardBlock.linear_1 self))
                                   [m; n])
                   + Torch.item (nn.Linear.bias (FeedForwardBlock.linear_1 self)) [m])
                * Torch.item (nn.Linear.weight (FeedForwardBlock.linear_2 self)) [k; m])
           + Torch.item (nn.Linear.bias (FeedForwardBlock.linear_2 self)) [k])%R.
Proof.
  intros self x b s d dff g W1 W2 Sx. unfold FeedForwardBlock.forward.
  destruct (Linear_forward_ok _ x b s d dff W1 Sx) as (a & Ea & Sa).
  rewrite (bind_lift_ok _ _ _ _ Ea). unfold nn.Dropout.forward.
  rewrite (bind_ok _ _ _ _ _ (dropout_eval _ _ g)).
  destruct (Linear_forward_ok _ (Torch.relu a) b s dff d W2 Sa) as (y & Ey & Sy).
  unfold lift. rewrite Ey. exists y. split; [reflexivity|]. split; [exact Sy|].
  intros i j k Hi Hj Hk.
  destruct W1 as [Sw1 Sb1], W2 as [Sw2 Sb2].
  rewrite (linear_item (Torch.relu a) _ _ y b s dff d Sa Sw2 Sb2 Ey i j k Hi Hj Hk).
  f_equal. apply sum_n_ext. intros m Hm.
  cbn [Torch.relu Torch.map_t Torch.item].
  rewrite (linear_item x _ _ a b s d dff Sx Sw1 Sb1 Ea i j m Hi Hj Hm).
  reflexivity.
Qed.

Lemma feed_forward_position_wise_witness :
  exists (self : FeedForwardBlock.t) (g : Generator) (y : Torch.Tensor),
    FeedForwardBlock.init 2 3 (1 # 10) zero_generator = Ok (self, g) /\
    FeedForwardBlock.forward false self (Torch.ones [1; 4; 2]) g = Ok (y, g) /\
    Torch.shape y = [1; 4; 2].
Proof.
  destruct (FeedForwardBlock_init_ok 2 3 (1 # 10) zero_generator
              ltac:(lia) ltac:(lia) eq_refl) as (self & g & E).
  destruct (FeedForwardBlock_init_inv _ _ _ _ _ _ E) as (dff & W1 & W2).
  destruct (feed_forward_position_wise self (Torch.ones [1; 4; 2]) 1 4 2 dff g
              W1 W2 eq_refl) as (y & Ey & Sy & _).
  exists self, g, y. split; [exact E|]. split; [exact Ey|exact Sy].
Defined.

(** ** Scaled dot-product attention *)

Section AttentionValues.
Import Torch.

Lemma transpose_eq (t : Tensor) (d0 d1 : Z) (i j : nat) :
  wrap_dim (rank t) d0 = Ok i -> wrap_dim (rank t) d1 = Ok j ->
  transpose t d0 d1
  = Ok (mkTensor (swap (shape t) i j) (fun idx => item t (swap idx i j))).
Proof. intros E0 E1. unfold transpose. now rewrite E0, E1. Qed.

Lemma bidx_2 (b h bi hi : nat) : bi < b -> hi < h -> bidx [b; h] [bi; hi] = [bi; hi].
Proof. intros Hb Hh. apply bidx_id. repeat constructor; assumption. Qed.

Lemma matmul_4_4_item (a c r : Tensor) (b h s k t : nat) :
  shape a = [b; h; s; k] -> shape c = [b; h; k; t] ->
  matmul a c = Ok r ->
  forall bi hi i j, bi < b -> hi < h -> i < s -> j < t ->
    item r [bi; hi; i; j]
    = sum_n k (fun n => item a [bi; hi; i; n] * item c [bi; hi; n; j])%R.
Proof.
  intros Sa Sc H bi hi i j Hbi Hhi Hi Hj.
  unfold matmul, rank in H. rewrite Sa, Sc in H.
  cbn [split_matrix rev app length Nat.eqb] in H.
  rewrite Nat.eqb_refl, broadcast_shapes_refl in H. injection H as <-.
  cbn [item length firstn skipn nth]. rewrite bidx_2 by assumption. reflexivity.
Qed.

Lemma softmax_item (z : Tensor) (b h s t : nat) (bi hi i k : nat) :
  shape z = [b; h; s; t] ->
  item (softmax z) [bi; hi; i; k]
  = (exp (item z [bi; hi; i; k]) / sum_n t (fun k' => exp (item z [bi; hi; i; k'])))%R.
Proof. intros Sz. cbn [softmax item]. unfold row_sum. rewrite Sz. reflexivity. Qed.

Lemma attention_values tr (query key value : Tensor) mask dr g (b h s t dk dv : nat) :
  shape query = [b; h; s; dk] -> shape key = [b; h; t; dk] ->
  shape value = [b; h; t; dv] -> mask_fits mask [b; h; s; t] = true ->
  exists out sc g',
    MultiHeadAttentionBlock.attention tr query key value mask (Some dr) g
    = Ok ((out, sc), g') /\
    shape out = [b; h; s; dv] /\ shape sc = [b; h; s; t] /\
    (forall bi hi i k, bi < b -> hi < h -> i < s -> k < t ->
       item sc [bi; hi; i; k]
       = (exp (masked_score query key mask dk bi hi i k)
          / sum_n t (fun k' => exp (masked_score query key mask dk bi hi i k')))%R) /\
    (forall bi hi i j, bi < b -> hi < h -> i < s -> j < dv ->
       item out [bi; hi; i; j]
       = sum_n t (fun k => item sc [bi; hi; i; k] * item value [bi; hi; k; j])%R).
Proof.
  intros Sq Sk Sv Hm. unfold MultiHeadAttentionBlock.attention.
  rewrite Sq. rewrite (bind_lift_ok _ _ _ _ eq_refl). cbv beta iota.
  rewrite (bind_lift_ok _ _ _ _
             (transpose_eq key (-2) (-1) 2 3
                ltac:(unfold rank; rewrite Sk; reflexivity)
                ltac:(unfold rank; rewrite Sk; reflexivity))).
  set (kt := mkTensor (swap (shape key) 2 3) (fun idx => item key (swap idx 2 3))).
  assert (Skt : shape kt = [b; h; dk; t]) by (unfold kt; rewrite Sk; reflexivity).
  destruct (matmul_4_4 query kt b h s dk t Sq Skt) as (qk & Eqk & Sqk).
  rewrite (bind_lift_ok _ _ _ _ Eqk). cbv beta.
  change (last [b; h; s; dk] 0) with dk.
  set (scaled := div_scalar qk (sqrt (INR dk))).
  assert (Hfill : exists f, match mask with
                            | Some m => masked_fill_eq0 scaled m (-1000000000)
                            | None => Ok scaled
                            end = Ok f /\ shape f = [b; h; s; t] /\
            forall bi hi i k, bi < b -> hi < h -> i < s -> k < t ->
              item f [bi; hi; i; k] = masked_score query key mask dk bi hi i k).
  { assert (Iraw : forall bi hi i k, bi < b -> hi < h -> i < s -> k < t ->
              item scaled [bi; hi; i; k]
              = (sum_n dk (fun n => item query [bi; hi; i; n] * item key [bi; hi; k; n])
                 / sqrt (INR dk))%R).
    { intros bi hi i k Hbi Hhi Hi Hk. unfold scaled.
      cbn [div_scalar map_t item].
      rewrite (matmul_4_4_item query kt qk b h s dk t Sq Skt Eqk) by assumption.
      reflexivity. }
    destruct mask as [m|].
    - unfold masked_fill_eq0. cbn [mask_fits] in Hm.
      change (shape scaled) with (shape qk). rewrite Sqk, Hm.
      eexists. split; [reflexivity|]. split; [reflexivity|].
      intros bi hi i k Hbi Hhi Hi Hk. cbn [item]. unfold masked_score.
      rewrite Iraw by assumption. reflexivity.
    - exists scaled. split; [reflexivity|]. split; [exact Sqk|].
      intros bi hi i k Hbi Hhi Hi Hk. unfold masked_score. now apply Iraw. }
  destruct Hfill as (f & Ef & Sf & If).
  rewrite (bind_lift_ok _ _ _ _ Ef). cbv beta.
  unfold nn.Dropout.forward.
  destruct (dropout_ok (softmax f) (nn.Dropout.p dr) tr g) as (y & g' & Ey & Sy).
  destruct (binop_same_shape Rminus (softmax f) y (eq_sym Sy)) as (z & Ez & _).
  assert (Edrop : bind (dropout (softmax f) (nn.Dropout.p dr) tr)
                    (fun dropped => lift (sub (softmax f) dropped)) g = Ok (z, g')).
  { rewrite (bind_ok _ _ _ _ _ Ey). unfold sub. now rewrite Ez. }
  rewrite (bind_ok _ _ _ _ _ Edrop).
  destruct (matmul_4_4 (softmax f) value b h s t dv Sf Sv) as (o & Eo & So).
  rewrite (bind_lift_ok _ _ _ _ Eo). cbv beta.
  exists o, (softmax f), g'. split; [reflexivity|]. split; [exact So|].
  split; [exact Sf|]. split.
  - intros bi hi i k Hbi Hhi Hi Hk.
    rewrite (softmax_item f b h s t bi hi i k Sf), If by assumption.
    f_equal. apply sum_n_ext. intros k' Hk'. now rewrite If.
  - intros bi hi i j Hbi Hhi Hi Hj.
    exact (matmul_4_4_item (softmax f) value o b h s t dv Sf Sv Eo bi hi i j Hbi Hhi Hi Hj).
Qed.

End AttentionValues.



Section AttentionWeights.
Import Torch.

Lemma sum_n_ge_term n (f : nat -> R) k :
  k < n -> (forall j, (0 <= f j)%R) -> (f k <= sum_n n f)%R.
Proof.
  intros Hk Hf. induction n as [|n IH]; [lia|]. cbn [sum_n].
  destruct (Nat.eq_dec k n) as [->|Hne].
  - assert (0 <= sum_n n f)%R.
    { clear IH Hk. induction n as [|n IH]; cbn [sum_n]; [lra|].
      specialize (Hf n). lra. }
    lra.
  - specialize (IH ltac:(lia)). specialize (Hf n). lra.
Qed.

Lemma softmax_weights (e : nat -> R) (t : nat) :
  0 < t ->
  let w := fun k => (exp (e k) / sum_n t (fun k' => exp (e k')))%R in
  (forall k, (0 < w k)%R) /\
  (forall k, k < t -> (w k <= 1)%R) /\
  sum_n t w = 1%R.
Proof.
  intros Ht w.
  assert (HS : (0 < sum_n t (fun k' => exp (e k')))%R).
  { apply sum_n_pos; [exact Ht|]. intros k. apply exp_pos. }
  split; [|split].
  - intros k. unfold w. apply Rdiv_lt_0_compat; [apply exp_pos|exact HS].
  - intros k Hk. unfold w.
    apply (Rmult_le_reg_r (sum_n t (fun k' => exp (e k')))); [exact HS|].
    unfold Rdiv. rewrite Rmult_assoc, Rinv_l, Rmult_1_r, Rmult_1_l by lra.
    apply (sum_n_ge_term t (fun k' => exp (e k')) k Hk).
    intros j. apply Rlt_le, exp_pos.
  - unfold w, Rdiv. rewrite sum_n_scal. apply Rinv_r. lra.
Qed.

End AttentionWeights.

(** X9: the attention weights of every query position form a
    probability distribution over the keys: with a positive [d_k] and at
    least one key, every weight lies between 0 and 1 and the weights of a
    row sum to 1. *)
Theorem attention_weights_distribution :
  forall (training : bool) (query key value : Torch.Tensor)
         (mask : option Torch.LongTensor) (dr : nn.Dropout.t) (g : Generator)
         (b h s t d_k d_v : nat),
    Torch.shape query = [b; h; s; d_k] ->
    Torch.shape key = [b; h; t; d_k] ->
    Torch.shape value = [b; h; t; d_v] ->
    mask_fits mask [b; h; s; t] = true ->
    0 < d_k -> 0 < t ->
    exists out sc g',
      MultiHeadAttentionBlock.attention training query key value mask (Some dr) g
      = Ok ((out, sc), g') /\
      forall bi hi i, bi < b -> hi < h -> i < s ->
        (forall k, k < t -> (0 <= Torch.item sc [bi; hi; i; k] <= 1)%R) /\
        Torch.sum_n t (fun k => Torch.item sc [bi; hi; i; k]) = 1%R.
Proof.
  intros tr query key value mask dr g b h s t dk dv Sq Sk Sv Hm _ Ht.
  destruct (attention_values tr query key value mask dr g b h s t dk dv Sq Sk Sv Hm)
    as (out & sc & g' & E & _ & _ & Isc & _).
  exists out, sc, g'. split; [exact E|]. intros bi hi i Hbi Hhi Hi.
  destruct (softmax_weights (masked_score query key mask dk bi hi i) t Ht)
    as (Hpos & Hle & Hsum).
  split.
  - intros k Hk. rewrite (Isc bi hi i k) by assumption.
    split; [apply Rlt_le, Hpos|now apply Hle].
  - rewrite <- Hsum. apply sum_n_ext. intros k Hk. now apply Isc.
Qed.

Lemma attention_weights_distribution_witness :
  exists (out sc : Torch.Tensor) (g' : Generator),
    MultiHeadAttentionBlock.attention true (Torch.ones [1; 2; 3; 4]) (Torch.ones [1; 2; 5; 4])
      (Torch.ones [1; 2; 5; 4]) None (Some (nn.Dropout.mk (1 # 10))) zero_generator
    = Ok ((out, sc), g') /\
    Torch.sum_n 5 (fun k => Torch.item sc [0; 1; 2; k]) = 1%R.
Proof.
  destruct (attention_weights_distribution true (Torch.ones [1; 2; 3; 4])
              (Torch.ones [1; 2; 5; 4]) (Torch.ones [1; 2; 5; 4]) None
              (nn.Dropout.mk (1 # 10)) zero_generator 1 2 3 5 4 4
              eq_refl eq_refl eq_refl eq_refl ltac:(lia) ltac:(lia))
    as (out & sc & g' & E & I).
  exists out, sc, g'. split; [exact E|].
  exact (proj2 (I 0 1 2 ltac:(lia) ltac:(lia) ltac:(lia))).
Defined.

(** X10: a query position whose keys are all masked attends uniformly.
    The mask value is -1e9, not minus infinity: when the mask is 0 at every
    key of a row, every weight of that row is 1/t and the output is the
    plain average of the value rows. *)
Theorem attention_fully_masked_row :
  forall (training : bool) (query key value : Torch.Tensor)
         (m : Torch.LongTensor) (dr : nn.Dropout.t) (g : Generator)
         (b h s t d_k d_v : nat) (bi hi i : nat),
    Torch.shape query = [b; h; s; d_k] ->
    Torch.shape key = [b; h; t; d_k] ->
    Torch.shape value = [b; h; t; d_v] ->
    mask_fits (Some m) [b; h; s; t] = true ->
    0 < t -> bi < b -> hi < h -> i < s ->
    (forall k, k < t ->
       Torch.litem m (Torch.bidx (Torch.lshape m) [bi; hi; i; k]) = 0%Z) ->
    exists out sc g',
      MultiHeadAttentionBlock.attention training query key value (Some m) (Some dr) g
      = Ok ((out, sc), g') /\
      (forall k, k < t -> Torch.item sc [bi; hi; i; k] = (1 / INR t)%R) /\
      (forall j, j < d_v ->
         Torch.item out [bi; hi; i; j]
         = (Torch.sum_n t (fun k => Torch.item value [bi; hi; k; j]) / INR t)%R).
Proof.
  intros tr query key value m dr g b h s t dk dv bi hi i Sq Sk Sv Hm Ht Hbi Hhi Hi Hz.
  destruct (attention_values tr query key value (Some m) dr g b h s t dk dv Sq Sk Sv Hm)
    as (out & sc & g' & E & _ & _ & Isc & Iout).
  assert (He : forall k, k < t ->
             masked_score query key (Some m) dk bi hi i k = (-1000000000)%R).
  { intros k Hk. unfold masked_score. now rewrite (Hz k Hk). }
  assert (Hw : forall k, k < t -> Torch.item sc [bi; hi; i; k] = (1 / INR t)%R).
  { intros k Hk. rewrite (Isc bi hi i k) by assumption.
    rewrite (sum_n_ext t _ (fun _ => exp (-1000000000))%R)
      by (intros k' Hk'; now rewrite He).
    rewrite sum_n_const, (He k Hk).
    assert (INR t <> 0%R) by (apply not_0_INR; lia).
    pose proof (exp_pos (-1000000000)). field. split; lra. }
  exists out, sc, g'. split; [exact E|]. split; [exact Hw|].
  intros j Hj. rewrite (Iout bi hi i j) by assumption.
  rewrite (sum_n_ext t _ (fun k => Torch.item value [bi; hi; k; j] * (1 / INR t))%R).
  - rewrite sum_n_scal. unfold Rdiv. ring.
  - intros k Hk. rewrite (Hw k Hk). ring.
Qed.

Lemma attention_fully_masked_row_witness :
  exists (out sc : Torch.Tensor) (g' : Generator),
    MultiHeadAttentionBlock.attention false (Torch.ones [1; 1; 1; 2]) (Torch.ones [1; 1; 4; 2])
      (Torch.ones [1; 1; 4; 2]) (Some (zero_mask [1; 1; 1; 4]))
      (Some (nn.Dropout.mk (1 # 10))) zero_generator
    = Ok ((out, sc), g') /\
    Torch.item sc [0; 0; 0; 3] = (1 / INR 4)%R.
Proof.
  destruct (attention_fully_masked_row false (Torch.ones [1; 1; 1; 2])
              (Torch.ones [1; 1; 4; 2]) (Torch.ones [1; 1; 4; 2])
              (zero_mask [1; 1; 1; 4]) (nn.Dropout.mk (1 # 10)) zero_generator
              1 1 1 4 2 2 0 0 0 eq_refl eq_refl eq_refl eq_refl
              ltac:(lia) ltac:(lia) ltac:(lia) ltac:(lia) (fun _ _ => eq_refl))
    as (out & sc & g' & E & Hw & _).
  exists out, sc, g'. split; [exact E|]. apply Hw. lia.
Defined.



(** ** Splitting the feature dimension into heads, and merging back *)

Section Heads.
Import Torch.

Lemma ravel_lt (s : Shape) (i : Index) : in_range s i -> ravel s i < numel s.
Proof.
  unfold in_range. intros H. induction H as [|k d i s Hk H IH]; cbn; [lia|].
  change (fold_right Nat.mul 1 s) with (numel s). nia.
Qed.

Lemma unravel_ravel (s : Shape) (i : Index) : in_range s i -> unravel s (ravel s i) = i.
Proof.
  unfold in_range. intros H. induction H as [|k d i s Hk H IH]; cbn [ravel unravel];
    [reflexivity|].
  pose proof (ravel_lt s i H) as Hr.
  assert (Hn : numel s <> 0) by lia.
  replace ((k * numel s + ravel s i) / numel s) with k
    by (apply (Nat.div_unique _ _ _ (ravel s i)); lia).
  replace ((k * numel s + ravel s i) mod numel s) with (ravel s i)
    by (apply (Nat.mod_unique _ _ k); lia).
  now rewrite IH.
Qed.

Lemma ravel_unravel (s : Shape) (off : nat) :
  off < numel s -> ravel s (unravel s off) = off.
Proof.
  revert off. induction s as [|d s IH]; intros off H; cbn [ravel unravel].
  - cbn in H. lia.
  - assert (Hn : numel s <> 0).
    { intros E. cbn [numel fold_right] in H. change (fold_right Nat.mul 1 s) with (numel s) in H.
      rewrite E in H. lia. }
    rewrite IH by (apply Nat.mod_upper_bound; exact Hn).
    pose proof (Nat.div_mod_eq off (numel s)). lia.
Qed.

Lemma unravel_length (s : Shape) (off : nat) : length (unravel s off) = length s.
Proof. revert off. induction s as [|d s IH]; intros off; cbn; [reflexivity|now rewrite IH]. Qed.

Lemma swap_swap_4 (l : list nat) : length l = 4 -> swap (swap l 1 2) 1 2 = l.
Proof.
  destruct l as [|a [|b [|c [|d [|e l]]]]]; try discriminate. reflexivity.
Qed.

Lemma view_4_3 (x : Tensor) (b s H K : nat) (bi i hi j : nat) :
  bi < b -> i < s -> hi < H -> j < K ->
  unravel [b; s; H * K] (ravel [b; s; H; K] [bi; i; hi; j]) = [bi; i; hi * K + j].
Proof.
  intros Hbi Hi Hhi Hj.
  replace (ravel [b; s; H; K] [bi; i; hi; j])
    with (ravel [b; s; H * K] [bi; i; hi * K + j]).
  - apply unravel_ravel. repeat constructor; try assumption. nia.
  - cbn [ravel numel fold_right]. ring.
Qed.

Lemma split_heads_eq (self : MultiHeadAttentionBlock.t) (x : Tensor) (b s d : nat) :
  (0 < MultiHeadAttentionBlock.h self)%Z -> (0 < MultiHeadAttentionBlock.d_k self)%Z ->
  Z.to_nat (MultiHeadAttentionBlock.h self * MultiHeadAttentionBlock.d_k self) = d ->
  0 < b -> shape x = [b; s; d] ->
  let H := Z.to_nat (MultiHeadAttentionBlock.h self) in
  let K := Z.to_nat (MultiHeadAttentionBlock.d_k self) in
  MultiHeadAttentionBlock.split_heads self x
  = Ok (mkTensor [b; H; s; K]
          (fun idx => item x (unravel [b; s; d] (ravel [b; s; H; K] (swap idx 1 2))))).
Proof.
  intros Hh Hk Hd Hb Sx H K.
  unfold MultiHeadAttentionBlock.split_heads, MultiHeadAttentionBlock.size0, nn.getitem.
  rewrite Sx. cbn [nth_error rmap rbind]. unfold view. rewrite Sx, <- Hd.
  rewrite infer_split by assumption. cbn [rbind]. reflexivity.
Qed.

End Heads.

(** X12: how [MultiHeadAttentionBlock.forward] splits the feature
    dimension into heads ([view(b, -1, h, d_k).transpose(1, 2)]): head [hi]
    is the contiguous slice of [d_k] features starting at [hi * d_k], that
    is, element (bi, hi, i, j) of the result is element
    (bi, i, hi * d_k + j) of the input. *)
Theorem split_heads_layout :
  forall (self : MultiHeadAttentionBlock.t) (x : Torch.Tensor) (b s d : nat),
    (0 < MultiHeadAttentionBlock.h self)%Z ->
    (0 < MultiHeadAttentionBlock.d_k self)%Z ->
    Z.to_nat (MultiHeadAttentionBlock.h self * MultiHeadAttentionBlock.d_k self) = d ->
    0 < b -> Torch.shape x = [b; s; d] ->
    let H := Z.to_nat (MultiHeadAttentionBlock.h self) in
    let K := Z.to_nat (MultiHeadAttentionBlock.d_k self) in
    exists y,
      MultiHeadAttentionBlock.split_heads self x = Ok y /\
      Torch.shape y = [b; H; s; K] /\
      forall bi hi i j, bi < b -> hi < H -> i < s -> j < K ->
        Torch.item y [bi; hi; i; j] = Torch.item x [bi; i; hi * K + j].
Proof.
  intros self x b s d Hh Hk Hd Hb Sx H K.
  rewrite (split_heads_eq self x b s d Hh Hk Hd Hb Sx).
  eexists. split; [reflexivity|]. split; [reflexivity|].
  intros bi hi i j Hbi Hhi Hi Hj. cbn [Torch.item].
  change (Torch.swap [bi; hi; i; j] 1 2) with [bi; i; hi; j].
  assert (Ed : d = H * K) by (subst d H K; rewrite Z2Nat.inj_mul by lia; reflexivity).
  rewrite Ed. fold H K. now rewrite view_4_3.
Qed.

Lemma split_heads_layout_witness :
  exists (a : MultiHeadAttentionBlock.t) (g : Generator) (y : Torch.Tensor),
    MultiHeadAttentionBlock.init 8 2 (1 # 10) zero_generator = Ok (a, g) /\
    MultiHeadAttentionBlock.split_heads a (Torch.ones [1; 4; 8]) = Ok y /\
    Torch.shape y = [1; Z.to_nat (MultiHeadAttentionBlock.h a); 4;
                     Z.to_nat (MultiHeadAttentionBlock.d_k a)].
Proof.
  destruct (MultiHeadAttentionBlock_init_ok 8 2 (1 # 10) zero_generator
              ltac:(lia) eq_refl ltac:(lia) eq_refl) as (a & g & E).
  destruct (MultiHeadAttentionBlock_init_inv _ _ _ _ _ _ E) as (_ & _ & _ & _ & W).
  destruct (W ltac:(lia) ltac:(lia)) as (Hh & Hk & Hd & _).
  destruct (split_heads_layout a (Torch.ones [1; 4; 8]) 1 4 8 Hh Hk Hd ltac:(lia) eq_refl)
    as (y & Ey & Sy & _).
  exists a, g, y. split; [exact E|]. split; [exact Ey|exact Sy].
Defined.

(** X13: merging the heads undoes splitting them.  Applying to the
    split tensor what [forward] applies to the attention output
    ([transpose(1, 2)], then [view(b, -1, h * d_k)]) gives back a tensor
    of the input's shape (b, s, d_model) with the input's entries. *)
Theorem split_merge_heads_round_trip :
  forall (self : MultiHeadAttentionBlock.t) (x : Torch.Tensor) (b s d : nat),
    (0 < MultiHeadAttentionBlock.h self)%Z ->
    (0 < MultiHeadAttentionBlock.d_k self)%Z ->
    Z.to_nat (MultiHeadAttentionBlock.h self * MultiHeadAttentionBlock.d_k self) = d ->
    0 < b -> Torch.shape x = [b; s; d] ->
    exists y yt z,
      MultiHeadAttentionBlock.split_heads self x = Ok y /\
      Torch.transpose y 1 2 = Ok yt /\
      Torch.view yt [Z.of_nat b; (-1)%Z;
                     (MultiHeadAttentionBlock.h self * MultiHeadAttentionBlock.d_k self)%Z]
      = Ok z /\
      Torch.shape z = [b; s; d] /\
      forall bi i c, bi < b -> i < s -> c < d ->
        Torch.item z [bi; i; c] = Torch.item x [bi; i; c].
Proof.
  intros self x b s d Hh Hk Hd Hb Sx.
  rewrite (split_heads_eq self x b s d Hh Hk Hd Hb Sx).
  set (H := Z.to_nat (MultiHeadAttentionBlock.h self)).
  set (K := Z.to_nat (MultiHeadAttentionBlock.d_k self)).
  set (y := Torch.mkTensor [b; H; s; K] _).
  exists y, (Torch.mkTensor [b; s; H; K] (fun idx => Torch.item y (Torch.swap idx 1 2))).
  eexists. split; [reflexivity|].
  split; [apply (transpose_eq y 1 2 1 2); reflexivity|].
  unfold Torch.view. cbn [Torch.shape].
  subst H K. rewrite infer_merge by assumption. cbn [rbind].
  split; [reflexivity|]. split; [now rewrite Hd|].
  intros bi i c Hbi Hi Hc. cbn [Torch.item].
  set (H := Z.to_nat (MultiHeadAttentionBlock.h self)).
  set (K := Z.to_nat (MultiHeadAttentionBlock.d_k self)).
  assert (Ed : d = H * K) by (subst d H K; rewrite Z2Nat.inj_mul by lia; reflexivity).
  rewrite Hd.
  set (off := Torch.ravel [b; s; d] [bi; i; c]).
  assert (Hoff : off < Torch.numel [b; s; H; K]).
  { pose proof (ravel_lt [b; s; d] [bi; i; c]
                  ltac:(repeat constructor; assumption)) as L.
    fold off in L. cbn [Torch.numel fold_right] in *. rewrite Ed in L. lia. }
  subst y. cbn [Torch.item]. fold H K.
  rewrite swap_swap_4 by apply unravel_length.
  rewrite (ravel_unravel [b; s; H; K] off Hoff). unfold off.
  rewrite unravel_ravel by (repeat constructor; assumption). reflexivity.
Qed.

Lemma split_merge_heads_round_trip_witness :
  exists (a : MultiHeadAttentionBlock.t) (g : Generator) (y yt z : Torch.Tensor),
    MultiHeadAttentionBlock.init 8 2 (1 # 10) zero_generator = Ok (a, g) /\
    MultiHeadAttentionBlock.split_heads a vector148 = Ok y /\
    Torch.transpose y 1 2 = Ok yt /\
    Torch.view yt [1%Z; (-1)%Z;
                   (MultiHeadAttentionBlock.h a * MultiHeadAttentionBlock.d_k a)%Z] = Ok z /\
    Torch.item z [0; 3; 5] = Torch.item vector148 [0; 3; 5].
Proof.
  destruct (MultiHeadAttentionBlock_init_ok 8 2 (1 # 10) zero_generator
              ltac:(lia) eq_refl ltac:(lia) eq_refl) as (a & g & E).
  destruct (MultiHeadAttentionBlock_init_inv _ _ _ _ _ _ E) as (_ & _ & _ & _ & W).
  destruct (W ltac:(lia) ltac:(lia)) as (Hh & Hk & Hd & _).
  destruct (split_merge_heads_round_trip a vector148 1 4 8 Hh Hk Hd ltac:(lia) eq_refl)
    as (y & yt & z & Ey & Et & Ez & _ & I).
  exists a, g, y, yt, z. split; [exact E|]. split; [exact Ey|]. split; [exact Et|].
  split; [exact Ez|]. apply I; lia.
Defined.

(** ** [MultiHeadAttentionBlock.forward] *)

(** X14: [MultiHeadAttentionBlock.forward] raises on an empty batch.
    The three projections succeed, then [view(0, -1, h, d_k)] cannot infer
    the sequence dimension from a tensor of no elements. *)
Theorem multi_head_attention_empty_batch :
  forall (training : bool) (self : MultiHeadAttentionBlock.t) (q k v : Torch.Tensor)
         (mask : option Torch.LongTensor) (g : Generator) (s t d : nat),
    wf_MultiHeadAttentionBlock self d ->
    Torch.shape q = [0; s; d] -> Torch.shape k = [0; t; d] -> Torch.shape v = [0; t; d] ->
    MultiHeadAttentionBlock.forward training self q k v mask g = Raise RuntimeError.
Proof.
  intros tr self q k v mask g s t d (Hh & Hk & Hd & Wq & Wk & Wv & Wo) Sq Sk Sv.
  unfold MultiHeadAttentionBlock.forward.
  mstep (Linear_forward_ok _ q 0 s d d Wq Sq).
  mstep (Linear_forward_ok _ k 0 t d d Wk Sk).
  mstep (Linear_forward_ok _ v 0 t d d Wv Sv).
  rewrite (split_heads_empty_batch self t0 s d Hh Hk S). reflexivity.
Qed.

Lemma multi_head_attention_empty_batch_witness :
  exists (a : MultiHeadAttentionBlock.t) (g : Generator),
    MultiHeadAttentionBlock.init 8 2 (1 # 10) zero_generator = Ok (a, g) /\
    MultiHeadAttentionBlock.forward false a (Torch.zeros [0; 4; 8]) (Torch.zeros [0; 4; 8])
      (Torch.zeros [0; 4; 8]) None g = Raise RuntimeError.
Proof.
  destruct (MultiHeadAttentionBlock_init_ok 8 2 (1 # 10) zero_generator
              ltac:(lia) eq_refl ltac:(lia) eq_refl) as (a & g & E).
  destruct (MultiHeadAttentionBlock_init_inv _ _ _ _ _ _ E) as (_ & _ & _ & _ & W).
  exists a, g. split; [exact E|].
  exact (multi_head_attention_empty_batch false a (Torch.zeros [0; 4; 8])
           (Torch.zeros [0; 4; 8]) (Torch.zeros [0; 4; 8]) None g 4 4 8
           (W ltac:(lia) ltac:(lia)) eq_refl eq_refl eq_refl).
Defined.

(** X15: what [MultiHeadAttentionBlock.forward] returns and stores.
    For a non-empty batch, a query input of shape (b, s, d_model) and key
    and value inputs of shape (b, t, d_model), the output has shape
    (b, s, d_model); the block it leaves is the block it was called on with
    [attention_scores] set to the weights of this call, of shape
    (b, h, s, t), not negative and summing to 1 along the keys. *)
Theorem multi_head_attention_stores_weights :
  forall (training : bool) (self : MultiHeadAttentionBlock.t) (q k v : Torch.Tensor)
         (mask : option Torch.LongTensor) (g : Generator) (b s t d : nat),
    wf_MultiHeadAttentionBlock self d -> 0 < b ->
    Torch.shape q = [b; s; d] -> Torch.shape k = [b; t; d] -> Torch.shape v = [b; t; d] ->
    mask_fits mask [b; Z.to_nat (MultiHeadAttentionBlock.h self); s; t] = true ->
    exists out sc g',
      MultiHeadAttentionBlock.forward training self q k v mask g
      = Ok ((out, MultiHeadAttentionBlock.set_attention_scores self (Some sc)), g') /\
      Torch.shape out = [b; s; d] /\
      Torch.shape sc = [b; Z.to_nat (MultiHeadAttentionBlock.h self); s; t] /\
      (0 < t ->
       forall bi hi i,
         bi < b -> hi < Z.to_nat (MultiHeadAttentionBlock.h self) -> i < s ->
         (forall j, j < t -> (0 <= Torch.item sc [bi; hi; i; j] <= 1)%R) /\
         Torch.sum_n t (fun j => Torch.item sc [bi; hi; i; j]) = 1%R).
Proof.
  intros tr self q k v mask g b s t d (Hh & Hk & Hd & Wq & Wk & Wv & Wo) Hb Sq Sk Sv Hm.
  unfold MultiHeadAttentionBlock.forward.
  mstep (Linear_forward_ok _ q b s d d Wq Sq).
  mstep (Linear_forward_ok _ k b t d d Wk Sk).
  mstep (Linear_forward_ok _ v b t d d Wv Sv).
  mstep (split_heads_ok self t0 b s d Hh Hk Hd Hb S).
  mstep (split_heads_ok self t1 b t d Hh Hk Hd Hb S0).
  mstep (split_heads_ok self t2 b t d Hh Hk Hd Hb S1).
  destruct (attention_values tr t3 t4 t5 mask (MultiHeadAttentionBlock.dropout self) g
              _ _ _ _ _ _ S2 S3 S4 Hm) as (o & sc & g' & Er & So & Ssc & Isc & _).
  rewrite (bind_ok _ _ _ _ _ Er). cbv beta zeta. cbn [fst snd].
  unfold MultiHeadAttentionBlock.size0, nn.getitem. rewrite So.
  cbn [nth_error rmap rbind]. rewrite (bind_lift_ok _ _ _ _ eq_refl). cbv beta.
  mstep (transpose_ok o 1 2 1 2
           ltac:(unfold Torch.rank; rewrite So; reflexivity)
           ltac:(unfold Torch.rank; rewrite So; reflexivity)).
  rewrite So in S5. cbn in S5.
  unfold Torch.view. rewrite S5, infer_merge by assumption. cbn [rbind].
  rewrite (bind_lift_ok _ _ _ _ eq_refl). cbv beta.
  mstep (Linear_forward_ok (MultiHeadAttentionBlock.w_o self)
           (Torch.mkTensor [b; s; Z.to_nat (MultiHeadAttentionBlock.h self * MultiHeadAttentionBlock.d_k self)]
              (fun i => Torch.item t6 (Torch.unravel [b; s; Z.to_nat (MultiHeadAttentionBlock.h self);
                                          Z.to_nat (MultiHeadAttentionBlock.d_k self)]
                                   (Torch.ravel [b; s; Z.to_nat (MultiHeadAttentionBlock.h self * MultiHeadAttentionBlock.d_k self)] i))))
           b s d d Wo ltac:(cbn [Torch.shape]; now rewrite Hd)).
  exists t7, sc, g'. split; [reflexivity|]. split; [exact S6|]. split; [exact Ssc|].
  intros Ht bi hi i Hbi Hhi Hi.
  destruct (softmax_weights
              (masked_score t3 t4 mask (Z.to_nat (MultiHeadAttentionBlock.d_k self)) bi hi i)
              t Ht) as (Hpos & Hle & Hsum).
  split.
  - intros j Hj. rewrite (Isc bi hi i j) by assumption.
    split; [apply Rlt_le, Hpos|now apply Hle].
  - rewrite <- Hsum. apply sum_n_ext. intros j Hj. now apply Isc.
Qed.

Lemma multi_head_attention_stores_weights_witness :
  exists (a : MultiHeadAttentionBlock.t) (g : Generator)
         (out sc : Torch.Tensor) (g' : Generator),
    MultiHeadAttentionBlock.init 8 2 (1 # 10) zero_generator = Ok (a, g) /\
    MultiHeadAttentionBlock.forward true a (Torch.ones [1; 4; 8]) (Torch.ones [1; 4; 8])
      (Torch.ones [1; 4; 8]) None g
    = Ok ((out, MultiHeadAttentionBlock.set_attention_scores a (Some sc)), g') /\
    Torch.shape out = [1; 4; 8] /\
    Torch.sum_n 4 (fun j => Torch.item sc [0; 0; 3; j]) = 1%R.
Proof.
  destruct (MultiHeadAttentionBlock_init_ok 8 2 (1 # 10) zero_generator
              ltac:(lia) eq_refl ltac:(lia) eq_refl) as (a & g & E).
  destruct (MultiHeadAttentionBlock_init_inv _ _ _ _ _ _ E) as (_ & _ & Ha & _ & W).
  destruct (multi_head_attention_stores_weights true a (Torch.ones [1; 4; 8])
              (Torch.ones [1; 4; 8]) (Torch.ones [1; 4; 8]) None g 1 4 4 8
              (W ltac:(lia) ltac:(lia)) ltac:(lia) eq_refl eq_refl eq_refl eq_refl)
    as (out & sc & g' & Er & So & _ & I).
  exists a, g, out, sc, g'. split; [exact E|]. split; [exact Er|]. split; [exact So|].
  apply (I ltac:(lia) 0 0 3); lia.
Defined.

(** ** The decoder, and the whole forward pass *)

Section Pipeline.
Import Torch.




End Pipeline.

(** X16: on a model returned by [build_transformer] (with a positive
    head count), [Transformer.decode] returns a tensor of shape
    (batch, s, d_model) for target tokens of shape (batch, s) inside the
    target vocabulary, with [s] at most the target maximum length, an
    encoder output of shape (batch, t, d_model) and masks that are absent or
    broadcast to the attention scores ((batch, h, s, s) for the target mask,
    (batch, h, s, t) for the source mask). *)
Theorem decode_output_shape :
  forall (src_vocab_size tgt_vocab_size src_seq_len tgt_seq_len d_model N h : Z)
         (dropout : Q) (d_ff : Z) (g g' : Generator) (m : Transformer.t),
    build_transformer src_vocab_size tgt_vocab_size src_seq_len tgt_seq_len
      d_model N h dropout d_ff g = Ok (m, g') ->
    (0 < h)%Z ->
    forall (training : bool) (encoder_output : Torch.Tensor)
           (src_mask : option Torch.LongTensor) (tgt : Torch.LongTensor)
           (tgt_mask : option Torch.LongTensor) (g1 : Generator) (b s t : nat),
      Torch.lshape tgt = [b; s] ->
      Torch.shape encoder_output = [b; t; Z.to_nat d_model] ->
      0 < b ->
      s <= Z.to_nat tgt_seq_len ->
      tokens_in tgt (Z.to_nat tgt_vocab_size) = true ->
      mask_fits tgt_mask [b; Z.to_nat h; s; s] = true ->
      mask_fits src_mask [b; Z.to_nat h; s; t] = true ->
      exists out m1 g2,
        Transformer.decode training m encoder_output src_mask tgt tgt_mask g1
        = Ok ((out, m1), g2)
        /\ Torch.shape out = [b; s; Z.to_nat d_model].
Proof.
  intros vs vt ls lt d N h p dff g g' m E Hh tr enc src_mask tgt tgt_mask g1 b s t
         Ss Se Hb Hs Ht Hmt Hms.
  destruct (build_transformer_inv _ _ _ _ _ _ _ _ _ _ _ _ E) as (_ & _ & _ & _ & W).
  destruct (Transformer_decode_ok tr m enc src_mask tgt tgt_mask g1 _ _ _ _ _ _ b s t
              (W Hh) Ss Se Hb Hs Ht Hmt Hms) as ([out m1] & g2 & Er & So).
  exists out, m1, g2. split; [exact Er|exact So].
Qed.

Lemma decode_output_shape_witness :
  exists (m : Transformer.t) (g : Generator) (out : Torch.Tensor)
         (m1 : Transformer.t) (g2 : Generator),
    build_transformer 10 10 4 4 8 1 2 (1 # 10) 16 zero_generator = Ok (m, g) /\
    Transformer.decode true m (Torch.zeros [1; 3; 8]) None example_tokens None g
    = Ok ((out, m1), g2) /\
    Torch.shape out = [1; 4; 8].
Proof.
  destruct example_model as (m & g & E & _).
  destruct (decode_output_shape 10 10 4 4 8 1 2 (1 # 10) 16 zero_generator g m E
              ltac:(lia) true (Torch.zeros [1; 3; 8]) None example_tokens None g 1 4 3
              eq_refl eq_refl ltac:(lia) ltac:(change (Z.to_nat 4) with 4; lia)
              eq_refl eq_refl eq_refl)
    as (out & m1 & g2 & Er & So).
  exists m, g, out, m1, g2. split; [exact E|]. split; [exact Er|exact So].
Defined.



(** ** Evaluation mode and the random number generator *)

Section DecoderEvaluation.
Import Torch.

Lemma draws_nothing_DecoderBlock self x enc src_mask tgt_mask :
  draws_nothing (DecoderBlock.forward false self x enc src_mask tgt_mask).
Proof.
  unfold DecoderBlock.forward.
  apply draws_nothing_bind; [apply draws_nothing_lift|intros r0].
  apply draws_nothing_bind; [|intros xa].
  { apply draws_nothing_ResidualConnection. intros n.
    apply draws_nothing_MultiHeadAttentionBlock. }
  apply draws_nothing_bind; [apply draws_nothing_lift|intros r1].
  apply draws_nothing_bind; [|intros xc].
  { apply draws_nothing_ResidualConnection. intros n.
    apply draws_nothing_MultiHeadAttentionBlock. }
  apply draws_nothing_bind; [apply draws_nothing_lift|intros r2].
  apply draws_nothing_bind; [|intros xf; apply draws_nothing_ret].
  apply draws_nothing_ResidualConnection. intros n.
  apply draws_nothing_bind; [apply draws_nothing_FeedForwardBlock|intros y].
  apply draws_nothing_ret.
Qed.

Lemma draws_nothing_Decoder_layers layers x enc src_mask tgt_mask :
  draws_nothing (Decoder.forward_layers false layers x enc src_mask tgt_mask).
Proof.
  revert x. induction layers as [|e layers IH]; intros x; cbn [Decoder.forward_layers].
  - apply draws_nothing_ret.
  - apply draws_nothing_bind; [apply draws_nothing_DecoderBlock|intros xl].
    apply draws_nothing_bind; [apply IH|intros xr]. apply draws_nothing_ret.
Qed.

Lemma draws_nothing_decode m enc src_mask tgt tgt_mask :
  draws_nothing (Transformer.decode false m enc src_mask tgt tgt_mask).
Proof.
  unfold Transformer.decode.
  apply draws_nothing_bind; [apply draws_nothing_lift|intros e].
  apply draws_nothing_bind; [apply draws_nothing_PositionalEncoding|intros y].
  apply draws_nothing_bind; [|intros yd; apply draws_nothing_ret].
  unfold Decoder.forward.
  apply draws_nothing_bind; [apply draws_nothing_Decoder_layers|intros xl].
  apply draws_nothing_bind; [apply draws_nothing_lift|intros z]. apply draws_nothing_ret.
Qed.

Lemma draws_nothing_generator {A} (c : M A) (g g' : Generator) (a : A) :
  draws_nothing c -> c g = Ok (a, g') -> g' = g.
Proof.
  intros H E. rewrite (H g) in E.
  destruct (c zero_generator) as [[b gb]|e]; [|discriminate].
  now injection E as _ <-.
Qed.

End DecoderEvaluation.

(** X18: in evaluation mode the forward pass never touches the random
    number generator: a successful [encode] or [decode] returns the
    generator state it was given, and what [decode] returns or raises is
    the same for every generator state. *)
Theorem evaluation_mode_draws_nothing :
  forall (m : Transformer.t) (encoder_output : Torch.Tensor)
         (src tgt : Torch.LongTensor) (src_mask tgt_mask : option Torch.LongTensor),
    (forall g r g',
        Transformer.encode false m src src_mask g = Ok (r, g') -> g' = g) /\
    (forall g r g',
        Transformer.decode false m encoder_output src_mask tgt tgt_mask g = Ok (r, g') ->
        g' = g) /\
    (forall g1 g2,
        outcome (Transformer.decode false m encoder_output src_mask tgt tgt_mask g1)
        = outcome (Transformer.decode false m encoder_output src_mask tgt tgt_mask g2)).
Proof.
  intros m enc src tgt src_mask tgt_mask. split; [|split].
  - intros g r g' H.
    exact (draws_nothing_generator _ g g' r (draws_nothing_encode m src src_mask) H).
  - intros g r g' H.
    exact (draws_nothing_generator _ g g' r
             (draws_nothing_decode m enc src_mask tgt tgt_mask) H).
  - intros g1 g2.
    rewrite (draws_nothing_decode m enc src_mask tgt tgt_mask g1),
            (draws_nothing_decode m enc src_mask tgt tgt_mask g2).
    destruct (Transformer.decode false m enc src_mask tgt tgt_mask zero_generator)
      as [[r g0]|e]; reflexivity.
Qed.

(** ** What [build_transformer] assembles *)

Section BuildParts.
Import Torch.

Lemma replicateM_length {A} (n : nat) (c : M A) (g g' : Generator) (l : list A) :
  replicateM n c g = Ok (l, g') -> length l = n.
Proof.
  revert g l. induction n as [|n IH]; intros g l H; cbn [replicateM] in H.
  - apply ret_inv in H. destruct H as [-> _]. reflexivity.
  - minv H. cbn. f_equal. eapply IH; eassumption.
Qed.

Lemma build_transformer_parts (vs vt ls lt d N h : Z) (p : Q) (dff : Z)
    (g g' : Generator) (m : Transformer.t) :
  build_transformer vs vt ls lt d N h p dff g = Ok (m, g') ->
  PositionalEncoding.init d ls p = Ok (Transformer.src_pos m) /\
  PositionalEncoding.init d lt p = Ok (Transformer.tgt_pos m) /\
  length (Encoder.layers (Transformer.encoder m)) = Z.to_nat N /\
  length (Decoder.layers (Transformer.decoder m)) = Z.to_nat N /\
  Encoder.norm (Transformer.encoder m)
  = LayerNormalization.init LayerNormalization.default_eps /\
  Decoder.norm (Transformer.decoder m)
  = LayerNormalization.init LayerNormalization.default_eps /\
  wf_InputEmbedding (Transformer.src_embed m) (Z.to_nat d) (Z.to_nat vs) /\
  wf_InputEmbedding (Transformer.tgt_embed m) (Z.to_nat d) (Z.to_nat vt) /\
  wf_Linear (ProjectionLayer.proj (Transformer.projection_layer m))
    (Z.to_nat d) (Z.to_nat vt).
Proof.
  unfold build_transformer. intros H. minv H.
  rename a into se, a0 into te, a1 into sp, a2 into tp, a3 into ebs, a4 into dbs,
    a5 into pl.
  apply InputEmbedding_init_inv in E, E0.
  destruct E as (Hd & Hvs & Wse), E0 as (_ & Hvt & Wte).
  pose proof (replicateM_length _ _ _ _ _ E3) as Le.
  pose proof (replicateM_length _ _ _ _ _ E4) as Ld.
  apply ProjectionLayer_init_inv in E5.
  cbn [Transformer.encoder Transformer.decoder Transformer.src_embed
       Transformer.tgt_embed Transformer.projection_layer] in E6, E7, E8, E9, E10.
  unfold Encoder.xavier in E6. unfold Decoder.xavier in E7.
  cbn [Encoder.layers Encoder.init Encoder.norm Decoder.layers Decoder.init Decoder.norm]
    in E6, E7.
  minv E6. minv E7. rename a into ebs', a0 into dbs'.
  pose proof (mapM_length _ _ _ _ _ E) as Le'.
  pose proof (mapM_length _ _ _ _ _ E0) as Ld'.
  apply (fun H => InputEmbedding_xavier_inv _ _ _ _ _ _ H Wse) in E8.
  apply (fun H => InputEmbedding_xavier_inv _ _ _ _ _ _ H Wte) in E9.
  unfold ProjectionLayer.xavier in E10. minv E10. apply xavier_uniform_inv in E6.
  cbn.
  split; [exact E1|]. split; [exact E2|]. split; [congruence|]. split; [congruence|].
  split; [reflexivity|]. split; [reflexivity|]. split; [exact E8|]. split; [exact E9|].
  destruct E5 as [Sw Sb]. split; cbn; congruence.
Qed.

End BuildParts.

(** X19: what [build_transformer] assembles.  The model has [N] encoder
    blocks and [N] decoder blocks (none for [N <= 0]); no encoder attention
    block has an [attention_scores] attribute yet; the final norms of the
    encoder and of the decoder are fresh ones (alpha 1, bias 0, eps 1e-6:
    the Xavier loop only touches parameters of more than one dimension);
    the positional encodings are the tables [PositionalEncoding] builds for
    the two maximum lengths; and the embedding tables and the projection
    have the shapes (vocab_size, d_model). *)
Theorem build_transformer_structure :
  forall (src_vocab_size tgt_vocab_size src_seq_len tgt_seq_len d_model N h : Z)
         (dropout : Q) (d_ff : Z) (g g' : Generator) (m : Transformer.t),
    build_transformer src_vocab_size tgt_vocab_size src_seq_len tgt_seq_len
      d_model N h dropout d_ff g = Ok (m, g') ->
    length (Encoder.layers (Transformer.encoder m)) = Z.to_nat N /\
    length (Decoder.layers (Transformer.decoder m)) = Z.to_nat N /\
    Forall (fun e => MultiHeadAttentionBlock.attention_scores
                       (EncoderBlock.self_attention_block e) = None)
           (Encoder.layers (Transformer.encoder m)) /\
    Encoder.norm (Transformer.encoder m)
    = LayerNormalization.init LayerNormalization.default_eps /\
    Decoder.norm (Transformer.decoder m)
    = LayerNormalization.init LayerNormalization.default_eps /\
    PositionalEncoding.init d_model src_seq_len dropout = Ok (Transformer.src_pos m) /\
    PositionalEncoding.init d_model tgt_seq_len dropout = Ok (Transformer.tgt_pos m) /\
    Torch.shape (nn.Embedding.weight (InputEmbedding.embedding (Transformer.src_embed m)))
    = [Z.to_nat src_vocab_size; Z.to_nat d_model] /\
    Torch.shape (nn.Embedding.weight (InputEmbedding.embedding (Transformer.tgt_embed m)))
    = [Z.to_nat tgt_vocab_size; Z.to_nat d_model] /\
    Torch.shape (nn.Linear.weight (ProjectionLayer.proj (Transformer.projection_layer m)))
    = [Z.to_nat tgt_vocab_size; Z.to_nat d_model] /\
    Torch.shape (nn.Linear.bias (ProjectionLayer.proj (Transformer.projection_layer m)))
    = [Z.to_nat tgt_vocab_size].
Proof.
  intros vs vt ls lt d N h p dff g g' m E.
  destruct (build_transformer_parts _ _ _ _ _ _ _ _ _ _ _ _ E)
    as (Esp & Etp & Le & Ld & Ne & Nd & [_ Sse] & [_ Ste] & [Sw Sb]).
  destruct (build_transformer_inv _ _ _ _ _ _ _ _ _ _ _ _ E) as (_ & _ & _ & F & _).
  repeat (split; [assumption|]).
  split; [|repeat (split; [assumption|]); assumption].
  eapply Forall_impl; [|exact F]. intros e (_ & Hn & _). exact Hn.
Qed.

Lemma build_transformer_structure_witness :
  exists (m : Transformer.t) (g : Generator),
    build_transformer 10 10 4 4 8 1 2 (1 # 10) 16 zero_generator = Ok (m, g) /\
    length (Encoder.layers (Transformer.encoder m)) = 1 /\
    length (Decoder.layers (Transformer.decoder m)) = 1 /\
    PositionalEncoding.init 8 4 (1 # 10) = Ok (Transformer.src_pos m).
Proof.
  destruct example_model as (m & g & E & _).
  destruct (build_transformer_structure 10 10 4 4 8 1 2 (1 # 10) 16 zero_generator g m E)
    as (Le & Ld & _ & _ & _ & Esp & _).
  exists m, g. split; [exact E|]. split; [exact Le|]. split; [exact Ld|exact Esp].
Defined.

(** ** Which exception [build_transformer] raises *)

(** X20: which exception [build_transformer] raises, in the order the
    constructors run.  A negative source vocabulary size or [d_model] raises
    [RuntimeError] in the first embedding.  With valid sizes, a dropout
    probability outside [0, 1] raises [ValueError]; with a valid one,
    [d_model = 0] raises [ZeroDivisionError] and an odd [d_model >= 3] raises
    [RuntimeError], both in the positional encoding, before any attention
    block is built; and with a positive even [d_model] and at least one
    layer, [h = 0] raises [ZeroDivisionError] and an [h] that does not
    divide [d_model] raises [AssertionError]. *)
Theorem build_transformer_errors :
  forall (src_vocab_size tgt_vocab_size src_seq_len tgt_seq_len d_model N h : Z)
         (dropout : Q) (d_ff : Z) (g : Generator),
    let build := build_transformer src_vocab_size tgt_vocab_size src_seq_len tgt_seq_len
                   d_model N h dropout d_ff g in
    ((src_vocab_size < 0)%Z \/ (d_model < 0)%Z -> build = Raise RuntimeError) /\
    ((0 <= src_vocab_size)%Z -> (0 <= tgt_vocab_size)%Z -> (0 <= d_model)%Z ->
     (Qle_bool 0 dropout && Qle_bool dropout 1 = false -> build = Raise ValueError) /\
     (Qle_bool 0 dropout && Qle_bool dropout 1 = true ->
      (0 <= src_seq_len)%Z ->
      (d_model = 0%Z -> build = Raise ZeroDivisionError) /\
      ((3 <= d_model)%Z -> Z.odd d_model = true -> build = Raise RuntimeError) /\
      ((0 < d_model)%Z -> Z.even d_model = true -> (0 <= tgt_seq_len)%Z -> (0 < N)%Z ->
       (h = 0%Z -> build = Raise ZeroDivisionError) /\
       (h <> 0%Z -> (d_model mod h)%Z <> 0%Z -> build = Raise AssertionError)))).
Proof.
  intros vs vt ls lt d N h p dff g build. subst build. split.
  - intros Hneg. unfold build_transformer. apply bind_raise.
    unfold InputEmbedding.init. apply bind_raise.
    unfold nn.Embedding.init. apply bind_raise.
    unfold lift, Torch.size_of. cbn [forallb].
    replace ((0 <=? vs)%Z && ((0 <=? d)%Z && true)) with false; [reflexivity|].
    symmetry. rewrite andb_true_r. apply andb_false_iff.
    destruct Hneg; [left|right]; apply Z.leb_gt; assumption.
  - intros Hvs Hvt Hd. unfold build_transformer.
    destruct (InputEmbedding_init_ok d vs g Hd Hvs) as (se & g1 & E1).
    rewrite (bind_ok _ _ _ _ _ E1).
    destruct (InputEmbedding_init_ok d vt g1 Hd Hvt) as (te & g2 & E2).
    rewrite (bind_ok _ _ _ _ _ E2).
    split.
    + intros Hp. apply bind_raise. unfold lift.
      now rewrite (PositionalEncoding_init_invalid_dropout d ls p Hp).
    + intros Hp Hls. split; [|split].
      * intros ->. apply bind_raise. unfold lift.
        now rewrite (PositionalEncoding_init_zero ls p Hp Hls).
      * intros H3 Ho. apply bind_raise. unfold lift.
        now rewrite (PositionalEncoding_init_odd d ls p Hp Hls H3 Ho).
      * intros Hpos Hev Hlt HN.
        destruct (PositionalEncoding_init_ok d ls p Hp Hls Hpos (or_introl Hev))
          as (sp & Esp & _).
        rewrite (bind_lift_ok _ _ _ _ Esp).
        destruct (PositionalEncoding_init_ok d lt p Hp Hlt Hpos (or_introl Hev))
          as (tp & Etp & _).
        rewrite (bind_lift_ok _ _ _ _ Etp).
        destruct (Z.to_nat N) as [|n] eqn:En; [lia|]. cbn [replicateM].
        split.
        -- intros ->. apply bind_raise. apply bind_raise.
           unfold build_encoder_block. apply bind_raise. reflexivity.
        -- intros Hh Hm. apply bind_raise. apply bind_raise.
           unfold build_encoder_block. apply bind_raise.
           unfold MultiHeadAttentionBlock.init. apply bind_raise.
           unfold lift, MultiHeadAttentionBlock.check_heads.
           apply Z.eqb_neq in Hh, Hm. now rewrite Hh, Hm.
Qed.

(** ** Log-probabilities *)

Section LogProbabilities.
Import Torch.

Lemma in_range_last (s : Shape) (i : Index) :
  in_range s i -> sel s i (last i 0) = i /\ last i 0 < last_dim s.
Proof.
  unfold in_range, last_dim. intros H. destruct H as [|k d i s Hk H].
  - split; [reflexivity|cbn; lia].
  - split.
    + unfold sel. symmetry. apply app_removelast_last. discriminate.
    + revert k d Hk. induction H as [|k' d' i s Hk' H IH]; intros k d Hk; [exact Hk|].
      change (last (k :: k' :: i) 0) with (last (k' :: i) 0).
      change (last (d :: d' :: s) 1) with (last (d' :: s) 1). now apply IH.
Qed.

Lemma log_softmax_nonpositive (z : Tensor) (i : Index) :
  in_range (shape z) i -> (item (log_softmax z) i <= 0)%R.
Proof.
  intros Hi. destruct (in_range_last _ _ Hi) as [Es Hl].
  cbn [log_softmax item]. set (S := row_sum z exp i).
  assert (Hge : (exp (item z i) <= S)%R).
  { unfold S, row_sum. rewrite <- Es at 1.
    apply (sum_n_ge_term _ (fun k => exp (item z (sel (shape z) i k))) (last i 0) Hl).
    intros j. apply Rlt_le, exp_pos. }
  pose proof (exp_pos (item z i)) as Hp.
  assert (Hln : (ln (exp (item z i)) <= ln S)%R).
  { destruct Hge as [Hlt|Heq]; [left; now apply ln_increasing|right; now rewrite Heq]. }
  rewrite ln_exp in Hln. lra.
Qed.

End LogProbabilities.

(** X21: every entry of the output of [Transformer.project] is a
    log-probability: it is at most 0. *)
Theorem project_log_probabilities_nonpositive :
  forall (m : Transformer.t) (x y : Torch.Tensor),
    Transformer.project m x = Ok y ->
    forall i : Torch.Index,
      Torch.in_range (Torch.shape y) i -> (Torch.item y i <= 0)%R.
Proof.
  intros m x y H i Hi. unfold Transformer.project in H.
  apply ProjectionLayer_forward_inv in H. destruct H as (z & _ & ->).
  now apply log_softmax_nonpositive.
Qed.

Lemma project_log_probabilities_nonpositive_witness :
  exists (m : Transformer.t) (g : Generator) (y : Torch.Tensor),
    build_transformer 10 10 4 4 8 1 2 (1 # 10) 16 zero_generator = Ok (m, g) /\
    Transformer.project m (Torch.zeros [1; 4; 8]) = Ok y /\
    (Torch.item y [0%nat; 3%nat; 9%nat] <= 0)%R.
Proof.
  destruct example_model as (m & g & E & W).
  destruct (Transformer_project_ok m (Torch.zeros [1; 4; 8]) _ _ _ _ _ _ 1 4 W eq_refl)
    as (y & Ey & Sy).
  exists m, g, y. split; [exact E|]. split; [exact Ey|].
  apply (project_log_probabilities_nonpositive m (Torch.zeros [1; 4; 8]) y Ey).
  rewrite Sy. repeat constructor; lia.
Defined.

(** ** The attention output as a weighted average *)

Section Convex.
Import Torch.



End Convex.



(** ** A negative head count *)

Section NegativeHeads.
Import Torch.

Lemma MultiHeadAttentionBlock_init_fields (d h : Z) (p : Q) (g g' : Generator)
    (a : MultiHeadAttentionBlock.t) :
  MultiHeadAttentionBlock.init d h p g = Ok (a, g') ->
  MultiHeadAttentionBlock.h a = h /\
  MultiHeadAttentionBlock.d_k a = (d / h)%Z /\
  wf_Linear (MultiHeadAttentionBlock.w_q a) (Z.to_nat d) (Z.to_nat d) /\
  wf_Linear (MultiHeadAttentionBlock.w_k a) (Z.to_nat d) (Z.to_nat d) /\
  wf_Linear (MultiHeadAttentionBlock.w_v a) (Z.to_nat d) (Z.to_nat d).
Proof.
  unfold MultiHeadAttentionBlock.init. intros H. minv H.
  apply Linear_init_inv in E0, E1, E2.
  destruct E0 as (_ & _ & W0), E1 as (_ & _ & W1), E2 as (_ & _ & W2).
  repeat split; cbn; first [reflexivity | apply W0 | apply W1 | apply W2].
Qed.

Lemma infer_size_negative_heads (b : nat) (h dk : Z) (n : nat) :
  (h < 0)%Z -> infer_size [Z.of_nat b; (-1)%Z; h; dk] n = Raise RuntimeError.
Proof.
  intros Hh. unfold infer_size.
  destruct (existsb (fun d => (d <? -1)%Z) [Z.of_nat b; (-1)%Z; h; dk]) eqn:Ex;
    [reflexivity|].
  cbn [existsb] in Ex. apply orb_false_iff in Ex. destruct Ex as [_ Ex].
  apply orb_false_iff in Ex. destruct Ex as [_ Ex].
  apply orb_false_iff in Ex. destruct Ex as [Ex _]. apply Z.ltb_ge in Ex.
  assert (h = (-1)%Z) by lia. subst h.
  cbn [count_occ].
  destruct (Z.eq_dec (Z.of_nat b) (-1)); [lia|].
  destruct (Z.eq_dec (-1) (-1)); [|congruence].
  destruct (count_occ Z.eq_dec [dk] (-1)%Z); reflexivity.
Qed.

End NegativeHeads.

(** X23: a negative head count passes the constructor and fails at the
    first call.  When a negative [h] divides [d_model] the assertion holds
    and [MultiHeadAttentionBlock] is constructed (with a negative [d_k]);
    [forward] then raises [RuntimeError] on every input, in
    [view(b, -1, h, d_k)]. *)
Theorem negative_head_count :
  forall (d_model h : Z) (dropout : Q) (g : Generator),
    (h < 0)%Z -> (d_model mod h = 0)%Z -> (0 <= d_model)%Z ->
    Qle_bool 0 dropout && Qle_bool dropout 1 = true ->
    exists a g',
      MultiHeadAttentionBlock.init d_model h dropout g = Ok (a, g') /\
      forall (training : bool) (q k v : Torch.Tensor) (mask : option Torch.LongTensor)
             (g1 : Generator) (b s t : nat),
        Torch.shape q = [b; s; Z.to_nat d_model] ->
        Torch.shape k = [b; t; Z.to_nat d_model] ->
        Torch.shape v = [b; t; Z.to_nat d_model] ->
        MultiHeadAttentionBlock.forward training a q k v mask g1 = Raise RuntimeError.
Proof.
  intros d h p g Hh Hm Hd Hp.
  destruct (MultiHeadAttentionBlock_init_ok d h p g ltac:(lia) Hm Hd Hp) as (a & g' & E).
  exists a, g'. split; [exact E|].
  destruct (MultiHeadAttentionBlock_init_fields _ _ _ _ _ _ E) as (Ha & _ & Wq & Wk & Wv).
  intros tr q k v mask g1 b s t Sq Sk Sv.
  unfold MultiHeadAttentionBlock.forward.
  mstep (Linear_forward_ok _ q b s _ _ Wq Sq).
  mstep (Linear_forward_ok _ k b t _ _ Wk Sk).
  mstep (Linear_forward_ok _ v b t _ _ Wv Sv).
  unfold MultiHeadAttentionBlock.split_heads at 1.
  unfold MultiHeadAttentionBlock.size0, nn.getitem. rewrite S.
  cbn [nth_error rmap rbind]. unfold Torch.view.
  rewrite Ha, infer_size_negative_heads by exact Hh. reflexivity.
Qed.

Lemma negative_head_count_witness :
  exists (a : MultiHeadAttentionBlock.t) (g' : Generator),
    MultiHeadAttentionBlock.init 8 (-2) (1 # 10) zero_generator = Ok (a, g') /\
    MultiHeadAttentionBlock.forward false a (Torch.ones [1; 4; 8]) (Torch.ones [1; 4; 8])
      (Torch.ones [1; 4; 8]) None g' = Raise RuntimeError.
Proof.
  destruct (negative_head_count 8 (-2) (1 # 10) zero_generator
              ltac:(lia) eq_refl ltac:(lia) eq_refl) as (a & g' & E & F).
  exists a, g'. split; [exact E|].
  exact (F false (Torch.ones [1; 4; 8]) (Torch.ones [1; 4; 8]) (Torch.ones [1; 4; 8])
           None g' 1 4 4 eq_refl eq_refl eq_refl).
Defined.

